(** * FreightInvoiceAgent: the rating and invoicing engine

    A shallow embedding of [app/services/invoice_generator.py] and
    [app/services/payment_tracker.py], of the routes that call or
    mirror them, and of the SQLAlchemy models they read and write,
    followed by the properties of the engine.

    Conventions of the embedding.
    - A Python [float] is a binary64 value: Rocq's primitive [float],
      with the IEEE operations the interpreter uses.
    - A Python [str] is a [string], the sequence of its UTF-8 bytes;
      byte-wise order on UTF-8 is code-point order, which is the order
      of Python's [<] on [str] and of SQLite's BINARY collation.
    - A nullable column is an [option]; a [Date] is its proleptic
      Gregorian ordinal ([date.toordinal()]).
    - A table is the list of its rows in storage order.  An ORM object
      obtained from a query and then assigned to is a reference to a
      row: it is modelled by the row's position in its table. *)

From Stdlib Require Import ZArith List String Ascii Bool Lia.
From Stdlib Require Import Floats DecimalString.
From Stdlib Require Import Sorting.Sorted Sorting.Permutation.
Import ListNotations.

Set Implicit Arguments.
Open Scope string_scope.
Open Scope list_scope.
Open Scope Z_scope.

(** ** Python built-ins used by the services *)

Module Py.

(** [float(n)] for an [int]: the nearest binary64 value, ties to even.
    (CPython raises OverflowError beyond the binary64 range; the
    integers of this program come from 64-bit INTEGER columns.) *)
Definition float_of_int (n : Z) : float :=
  SF2Prim (binary_normalize prec emax n 0 false).

(** The nearest integer to [num / den] ([den > 0]), ties to even. *)
Definition round_half_even (num den : Z) : Z :=
  let q := num / den in
  let r := num mod den in
  match 2 * r ?= den with
  | Lt => q
  | Gt => q + 1
  | Eq => if Z.even q then q else q + 1
  end.

(** [round(x, 2)] on a float.  CPython prints the exact binary value
    of [x] to two decimals, correctly rounded with ties to even, and
    reads the decimal back as the nearest float; nan, infinities and
    zeros are returned as they are, and a result of zero keeps the
    sign of [x]. *)
Definition round2 (x : float) : float :=
  match Prim2SF x with
  | S754_finite s m e =>
      let n := if 0 <=? e then Z.pos m * 2 ^ e * 100
               else round_half_even (Z.pos m * 100) (2 ^ (- e)) in
      match n with
      | Z.pos p =>
          SF2Prim (SFdiv prec emax (S754_finite s p 0)
                                   (S754_finite false 100 0))
      | _ => SF2Prim (S754_zero s)
      end
  | _ => x
  end.

(** [max(a, b)] on two numbers: [b] when [b > a], else [a]. *)
Definition max (a b : float) : float :=
  if (a <? b)%float then b else a.

(** [x or d] on an optional float: [x] when it is truthy (neither
    None nor zero), else [d]. *)
Definition float_or (x : option float) (d : float) : float :=
  match x with
  | Some v => if (v =? 0)%float then d else v
  | None => d
  end.

(** [n or d] on an optional int. *)
Definition int_or (n : option Z) (d : Z) : Z :=
  match n with
  | Some v => if v =? 0 then d else v
  | None => d
  end.

(** [sum(xs)] over floats, by left-to-right addition from the int 0.
    (CPython 3.12 and later compensate the running sum; the results
    are rounded to cents by the caller.) *)
Definition sum (xs : list float) : float :=
  fold_left (fun acc x => (acc + x)%float) xs 0%float.

(** [str(n)] for an int. *)
Definition str_of_int (n : Z) : string :=
  NilZero.string_of_int (Z.to_int n).

(** [str(x)] for an optional int, as an f-string prints it. *)
Definition str_of_opt_int (n : option Z) : string :=
  match n with
  | Some v => str_of_int v
  | None => "None"
  end.

Fixpoint zeros (k : nat) : string :=
  match k with
  | O => ""
  | S k' => String "0" (zeros k')
  end.

(** [f"{n:04d}"]: the sign first, then zeros up to a width of four. *)
Definition format_04d (n : Z) : string :=
  let digits := NilZero.string_of_uint (N.to_uint (Z.abs_N n)) in
  if n <? 0
  then ("-" ++ zeros (3 - String.length digits) ++ digits)%string
  else (zeros (4 - String.length digits) ++ digits)%string.

(** [s.split(sep)] for a separator of one character: never empty. *)
Fixpoint split (sep : ascii) (s : string) : list string :=
  match s with
  | EmptyString => [""]
  | String c t =>
      if Ascii.eqb c sep then "" :: split sep t
      else match split sep t with
           | h :: r => String c h :: r
           | [] => [String c ""]
           end
  end.

(** [l[-1]]: the last element, IndexError ([None]) on an empty list. *)
Fixpoint last_item (l : list string) : option string :=
  match l with
  | [] => None
  | [x] => Some x
  | _ :: t => last_item t
  end.

(** The white space of [Py_ISSPACE], which [PyLong_FromString] skips
    around the literal: tab to carriage return, and the blank. *)
Definition is_space (c : ascii) : bool :=
  let n := N_of_ascii c in
  ((9 <=? n) && (n <=? 13) || (n =? 32))%N.

Definition digit_of (c : ascii) : option Z :=
  let n := Z.of_N (N_of_ascii c) in
  if (48 <=? n) && (n <=? 57) then Some (n - 48) else None.

Fixpoint lstrip (s : string) : string :=
  match s with
  | String c t => if is_space c then lstrip t else s
  | EmptyString => ""
  end.

Fixpoint all_space (s : string) : bool :=
  match s with
  | String c t => is_space c && all_space t
  | EmptyString => true
  end.

(** The digits of an [int] literal in base ten: decimal digits, single
    underscores between two digits, then white space up to the end.
    [after_digit] tells whether the previous character was a digit;
    [acc] is the value read so far and [count] the digits read. *)
Fixpoint int_digits (s : string) (acc : Z) (count : Z) (after_digit : bool)
  : option (Z * Z) :=
  match s with
  | EmptyString => if after_digit then Some (acc, count) else None
  | String c t =>
      match digit_of c with
      | Some d => int_digits t (10 * acc + d) (count + 1) true
      | None =>
          if negb after_digit then None
          else if Ascii.eqb c "_" then int_digits t acc count false
          else if all_space s then Some (acc, count)
          else None
      end
  end.

(** The default of [sys.get_int_max_str_digits()]. *)
Definition int_max_str_digits : Z := 4300.

(** [PyLong_FromString] in base ten on ASCII text, [None] standing for
    ValueError. *)
Definition long_from_string (s : string) : option Z :=
  let body := lstrip s in
  let '(neg, rest) :=
    match body with
    | String "+" t => (false, t)
    | String "-" t => (true, t)
    | _ => (false, body)
    end in
  match int_digits rest 0 0 false with
  | Some (v, count) =>
      if int_max_str_digits <? count then None
      else Some (if neg then - v else v)
  | None => None
  end.

(** The payload of a continuation byte of UTF-8. *)
Definition continuation (c : ascii) : option Z :=
  let n := Z.of_N (N_of_ascii c) in
  if (128 <=? n) && (n <? 192) then Some (n - 128) else None.

(** The code points of a [str], read from its UTF-8 bytes; [None] for
    bytes that encode no [str] (a stray or missing continuation byte,
    an overlong form, a surrogate, a value above U+10FFFF). *)
Fixpoint code_points (s : string) : option (list Z) :=
  match s with
  | EmptyString => Some []
  | String c t =>
      let n := Z.of_N (N_of_ascii c) in
      if n <? 128 then option_map (cons n) (code_points t)
      else if n <? 192 then None
      else if n <? 224 then
        match t with
        | String c1 t1 =>
            match continuation c1 with
            | Some a1 =>
                let cp := (n - 192) * 64 + a1 in
                if cp <? 128 then None
                else option_map (cons cp) (code_points t1)
            | None => None
            end
        | EmptyString => None
        end
      else if n <? 240 then
        match t with
        | String c1 (String c2 t2) =>
            match continuation c1, continuation c2 with
            | Some a1, Some a2 =>
                let cp := ((n - 224) * 64 + a1) * 64 + a2 in
                if (cp <? 2048) || ((55296 <=? cp) && (cp <=? 57343)) then None
                else option_map (cons cp) (code_points t2)
            | _, _ => None
            end
        | _ => None
        end
      else if n <? 248 then
        match t with
        | String c1 (String c2 (String c3 t3)) =>
            match continuation c1, continuation c2, continuation c3 with
            | Some a1, Some a2, Some a3 =>
                let cp := (((n - 240) * 64 + a1) * 64 + a2) * 64 + a3 in
                if (cp <? 65536) || (1114111 <? cp) then None
                else option_map (cons cp) (code_points t3)
            | _, _, _ => None
            end
        | _ => None
        end
      else None
  end.

(** [Py_UNICODE_ISSPACE] above U+007F. *)
Definition unicode_space (cp : Z) : bool :=
  (cp =? 133) || (cp =? 160) || (cp =? 5760)
  || ((8192 <=? cp) && (cp <=? 8202))
  || (cp =? 8232) || (cp =? 8233) || (cp =? 8239) || (cp =? 8287)
  || (cp =? 12288).

(** The digit zero of every script with decimal digits above U+007F;
    its digits one to nine follow it (Unicode 14.0, CPython 3.11). *)
Definition decimal_zeros : list Z :=
  [1632; 1776; 1984; 2406; 2534; 2662; 2790; 2918; 3046; 3174; 3302; 3430;
   3558; 3664; 3792; 3872; 4160; 4240; 6112; 6160; 6470; 6608; 6784; 6800;
   6992; 7088; 7232; 7248; 42528; 43216; 43264; 43472; 43504; 43600; 44016;
   65296; 66720; 68912; 69734; 69872; 69942; 70096; 70384; 70736; 70864;
   71248; 71360; 71472; 71904; 72016; 72784; 73040; 73120; 92768; 92864;
   93008; 120782; 120792; 120802; 120812; 120822; 123200; 123632; 125264;
   130032].

(** [Py_UNICODE_TODECIMAL] above U+007F. *)
Definition unicode_decimal (cp : Z) : option Z :=
  match find (fun zero => (zero <=? cp) && (cp <? zero + 10)) decimal_zeros with
  | Some zero => Some (cp - zero)
  | None => None
  end.

(** [_PyUnicode_TransformDecimalAndSpaceToASCII] on a [str] that is
    not ASCII: code points below 127 stay, a space becomes a blank, a
    decimal digit its ASCII digit, and anything else a question mark,
    at which the text ends. *)
Fixpoint decimal_and_space_to_ascii (cps : list Z) : list Z :=
  match cps with
  | [] => []
  | cp :: t =>
      if cp <? 127 then cp :: decimal_and_space_to_ascii t
      else if unicode_space cp then 32 :: decimal_and_space_to_ascii t
      else match unicode_decimal cp with
           | Some d => (48 + d) :: decimal_and_space_to_ascii t
           | None => [63]
           end
  end.

Fixpoint string_of_code_points (cps : list Z) : string :=
  match cps with
  | [] => ""
  | cp :: t => String (ascii_of_N (Z.to_N cp)) (string_of_code_points t)
  end.

(** [int(s)] on a [str], [None] standing for ValueError: ASCII text
    is parsed as it is, other text after its spaces and decimal digits
    have been brought to ASCII. *)
Definition int_of_str (s : string) : option Z :=
  match code_points s with
  | Some cps =>
      if forallb (fun cp => cp <? 128) cps then long_from_string s
      else long_from_string
             (string_of_code_points (decimal_and_space_to_ascii cps))
  | None => None
  end.

End Py.

(** ** The SQL the queries rely on (SQLite, [config.DATABASE_URL]) *)

Module Sql.

(** ASCII case folding, as SQLite's LIKE compares letters. *)
Definition fold_case (c : ascii) : ascii :=
  let n := N_of_ascii c in
  if ((97 <=? n) && (n <=? 122))%N then ascii_of_N (n - 32) else c.

(** [col LIKE 'prefix%'] for a prefix without wildcard: the value
    starts with the prefix, letters compared without case. *)
Fixpoint like_prefix (prefix s : string) : bool :=
  match prefix, s with
  | EmptyString, _ => true
  | String p pt, String c t =>
      Ascii.eqb (fold_case p) (fold_case c) && like_prefix pt t
  | String _ _, EmptyString => false
  end.

(** [max(col)] over text values: the greatest in byte order, NULL
    ([None]) over no row. *)
Fixpoint max_text (l : list string) : option string :=
  match l with
  | [] => None
  | x :: t =>
      match max_text t with
      | Some m => Some (if String.leb x m then m else x)
      | None => Some x
      end
  end.

(** [col == v] where both sides may be NULL/None: SQLAlchemy renders
    a comparison with None as IS NULL. *)
Definition opt_eqb {A} (eqb : A -> A -> bool) (x y : option A) : bool :=
  match x, y with
  | Some a, Some b => eqb a b
  | None, None => true
  | _, _ => false
  end.

(** [col.in_(ids)] for a nullable integer column. *)
Definition in_ (x : option Z) (ids : list Z) : bool :=
  match x with
  | Some a => existsb (Z.eqb a) ids
  | None => false
  end.

(** [.first()]: the first row of a result, None when there is none. *)
Definition first {A} (rows : list A) : option A := hd_error rows.

(** A Python float bound to a REAL column, as it is read back: SQLite
    takes nan for NULL and keeps a zero without its sign. *)
Definition real (x : float) : option float :=
  if is_nan x then None
  else if is_zero x then Some 0%float
  else Some x.

(** The same for a value that may be None. *)
Definition nullable_real (x : option float) : option float :=
  match x with
  | Some v => real v
  | None => None
  end.

Section OrderBy.
Variable A : Type.
Variable key : A -> Z.

(** Insertion into a list in descending key order, before the first
    row whose key is not greater. *)
Fixpoint insert_desc (x : A) (l : list A) : list A :=
  match l with
  | [] => [x]
  | y :: t => if key y <=? key x then x :: l else y :: insert_desc x t
  end.

(** [.order_by(key.desc())].  SQL leaves the order of rows with
    equal keys open; here they keep their storage order. *)
Fixpoint order_by_desc (l : list A) : list A :=
  match l with
  | [] => []
  | x :: t => insert_desc x (order_by_desc t)
  end.
End OrderBy.

End Sql.

(** ** The models ([app/models])

    One module per mapped class, with the columns the two services
    read or write.  A nullable column that the services only compare
    with a constant ([status], [bill_to], [applies_to], [is_active]) has
    its plain type: NULL compares unequal to every constant, as does
    any other value the code does not name. *)

Definition date := Z.

Module Port.
Record t := mk {
  id : Z;
  port_code : string;
  port_name : string;
  region : option string
}.
End Port.

Module RateCard.
Record t := mk {
  id : Z;
  origin_port_id : option Z;
  destination_port_id : option Z;
  container_type : string;
  base_ocean_freight : float;
  effective_from : date;
  carrier_name : option string;
  is_active : bool
}.
End RateCard.

Module Surcharge.
Record t := mk {
  id : Z;
  charge_code : string;
  charge_name : string;
  calculation_type : string;
  amount : float;
  percentage_of : option string;
  applies_to : string;
  origin_port_id : option Z;
  destination_port_id : option Z;
  is_active : bool
}.
End Surcharge.

Module Client.
Record t := mk {
  id : Z;
  company_name : string;
  payment_terms_days : option Z
}.
End Client.

Module Shipment.
Record t := mk {
  id : Z;
  booking_number : string;
  shipper_id : option Z;
  consignee_id : option Z;
  origin_port_id : option Z;
  destination_port_id : option Z;
  container_type : string;
  container_count : option Z;
  cbm : option float;
  bill_to : string
}.
End Shipment.

Module Invoice.
Record t := mk {
  id : Z;
  invoice_number : string;
  shipment_id : option Z;
  client_id : option Z;
  issue_date : date;
  due_date : date;
  subtotal : float;
  tax_amount : option float;
  total_amount : float;
  amount_paid : option float;
  balance_due : float;
  status : string
}.

Definition set_status (s : string) (i : t) : t :=
  mk (id i) (invoice_number i) (shipment_id i) (client_id i)
     (issue_date i) (due_date i) (subtotal i) (tax_amount i)
     (total_amount i) (amount_paid i) (balance_due i) s.

Definition set_amount_paid (a : float) (i : t) : t :=
  mk (id i) (invoice_number i) (shipment_id i) (client_id i)
     (issue_date i) (due_date i) (subtotal i) (tax_amount i)
     (total_amount i) (Some a) (balance_due i) (status i).

Definition set_balance_due (b : float) (i : t) : t :=
  mk (id i) (invoice_number i) (shipment_id i) (client_id i)
     (issue_date i) (due_date i) (subtotal i) (tax_amount i)
     (total_amount i) (amount_paid i) b (status i).

(** The row an INSERT of the object stores; None when [subtotal],
    [total_amount] or [balance_due], which are NOT NULL, would be NULL. *)
Definition stored (i : t) : option t :=
  match Sql.real (subtotal i), Sql.real (total_amount i),
        Sql.real (balance_due i) with
  | Some subtotal', Some total', Some balance' =>
      Some (mk (id i) (invoice_number i) (shipment_id i) (client_id i)
               (issue_date i) (due_date i) subtotal'
               (Sql.nullable_real (tax_amount i)) total'
               (Sql.nullable_real (amount_paid i)) balance' (status i))
  | _, _, _ => None
  end.

(** The row after an UPDATE of [amount_paid], [balance_due] and
    [status] from the object; None when [balance_due] would be NULL. *)
Definition stored_totals (i : t) : option t :=
  match Sql.real (balance_due i) with
  | Some balance' =>
      Some (mk (id i) (invoice_number i) (shipment_id i) (client_id i)
               (issue_date i) (due_date i) (subtotal i) (tax_amount i)
               (total_amount i) (Sql.nullable_real (amount_paid i))
               balance' (status i))
  | None => None
  end.
End Invoice.

Module InvoiceLine.
Record t := mk {
  id : Z;
  invoice_id : option Z;
  line_order : Z;
  charge_code : string;
  description : string;
  quantity : option float;
  unit_price : float;
  line_total : float
}.

(** The row an INSERT of the object stores; None when [unit_price] or
    [line_total], which are NOT NULL, would be NULL. *)
Definition stored (l : t) : option t :=
  match Sql.real (unit_price l), Sql.real (line_total l) with
  | Some price', Some total' =>
      Some (mk (id l) (invoice_id l) (line_order l) (charge_code l)
               (description l) (Sql.nullable_real (quantity l)) price' total')
  | _, _ => None
  end.
End InvoiceLine.

Module Payment.
Record t := mk {
  id : Z;
  invoice_id : option Z;
  payment_date : date;
  amount : float;
  payment_method : option string;
  reference_number : option string;
  notes : option string
}.

(** The row an INSERT of the object stores; None when [amount], which
    is NOT NULL, would be NULL. *)
Definition stored (p : t) : option t :=
  match Sql.real (amount p) with
  | Some amount' =>
      Some (mk (id p) (invoice_id p) (payment_date p) amount'
               (payment_method p) (reference_number p) (notes p))
  | None => None
  end.
End Payment.

(** ** The session ([app/database.py])

    The store holds one list of rows per table.  A service call is a
    computation over the store that returns a value or raises. *)

Record DB := mkDB {
  ports : list Port.t;
  rate_cards : list RateCard.t;
  surcharges : list Surcharge.t;
  clients : list Client.t;
  shipments : list Shipment.t;
  invoices : list Invoice.t;
  invoice_lines : list InvoiceLine.t;
  payments : list Payment.t
}.

(** The exceptions of the services.  [sqlalchemy.exc.IntegrityError]
    comes with the constraint that failed: [IntegrityError] is the
    failure of the unique constraint on [invoices.invoice_number],
    [IntegrityError_NotNull] that of a NOT NULL constraint. *)
Inductive exn : Type :=
| ValueError (msg : string)
| OverflowError
| IntegrityError
| IntegrityError_NotNull.

Definition Session (A : Type) : Type := DB -> DB * (exn + A).

Definition ret {A} (a : A) : Session A := fun db => (db, inr a).

Definition bind {A B} (c : Session A) (k : A -> Session B) : Session B :=
  fun db =>
    match c db with
    | (db', inr a) => k a db'
    | (db', inl e) => (db', inl e)
    end.

Definition raise {A} (e : exn) : Session A := fun db => (db, inl e).

(** A read-only query. *)
Definition query {A} (q : DB -> A) : Session A := fun db => (db, inr (q db)).

(** A write to the store. *)
Definition modify (f : DB -> DB) : Session unit := fun db => (f db, inr tt).

(** The writes of a transaction: when a flush fails, the session rolls
    back and the store is what it was before the first of them. *)
Definition transaction {A} (c : Session A) : Session A :=
  fun db =>
    match c db with
    | (db', inr a) => (db', inr a)
    | (_, inl e) => (db, inl e)
    end.

Notation "x <- c ;; k" := (bind c (fun x => k))
  (at level 61, c at next level, right associativity).
Notation "c ;;; k" := (bind c (fun _ => k))
  (at level 61, right associativity).

(** The next value of an autoincrement primary key: one more than the
    greatest key in the table, and 1 in an empty table. *)
Definition next_id (ids : list Z) : Z :=
  match ids with
  | [] => 1
  | id :: rest => fold_right Z.max id rest + 1
  end.

(** A row reached through an ORM object: its position in the table. *)
Fixpoint position {A} (p : A -> bool) (rows : list A) : option nat :=
  match rows with
  | [] => None
  | x :: t => if p x then Some O
              else match position p t with
                   | Some k => Some (S k)
                   | None => None
                   end
  end.

(** [query.first()] as the ORM object it yields: the position of the
    row in the table and its attributes. *)
Fixpoint load_from {A} (p : A -> bool) (rows : list A) (from : nat)
  : option (nat * A) :=
  match rows with
  | [] => None
  | x :: t => if p x then Some (from, x) else load_from p t (S from)
  end.

Definition load {A} (p : A -> bool) (rows : list A) : option (nat * A) :=
  load_from p rows 0.

(** All the rows a filter selects, as positions in the table. *)
Fixpoint positions {A} (p : A -> bool) (rows : list A) (from : nat) : list nat :=
  match rows with
  | [] => []
  | x :: t => if p x then from :: positions p t (S from)
              else positions p t (S from)
  end.

(** Assignment to attributes of the ORM object at a position. *)
Fixpoint update_at {A} (k : nat) (f : A -> A) (rows : list A) : list A :=
  match rows, k with
  | [], _ => []
  | x :: t, O => f x :: t
  | x :: t, S k' => x :: update_at k' f t
  end.

Definition with_invoices (f : list Invoice.t -> list Invoice.t) (db : DB) : DB :=
  mkDB (ports db) (rate_cards db) (surcharges db) (clients db)
       (shipments db) (f (invoices db)) (invoice_lines db) (payments db).

Definition with_invoice_lines (f : list InvoiceLine.t -> list InvoiceLine.t)
    (db : DB) : DB :=
  mkDB (ports db) (rate_cards db) (surcharges db) (clients db)
       (shipments db) (invoices db) (f (invoice_lines db)) (payments db).

Definition with_payments (f : list Payment.t -> list Payment.t) (db : DB) : DB :=
  mkDB (ports db) (rate_cards db) (surcharges db) (clients db)
       (shipments db) (invoices db) (invoice_lines db) (f (payments db)).

(** ** [app/services/invoice_generator.py] *)

(** Container types considered FCL. *)
Definition FCL_TYPES : list string := ["20GP"; "40GP"; "40HC"].

(** Minimum ocean freight threshold for the LCL_MIN surcharge. *)
Definition LCL_MIN_THRESHOLD : float := 120%float.

Definition str_in (s : string) (l : list string) : bool :=
  existsb (String.eqb s) l.

Definition get_next_invoice_number (db : DB) : string :=
  let max_invoice_number :=
    Sql.max_text
      (filter (Sql.like_prefix "INV-2026-")
              (map Invoice.invoice_number (invoices db))) in
  match max_invoice_number with
  | None => "INV-2026-0001"
  | Some number =>
      let sequence :=
        match Py.last_item (Py.split "-" number) with
        | Some segment =>
            match Py.int_of_str segment with
            | Some n => n
            | None => 0
            end
        | None => 0
        end in
      let next_sequence := sequence + 1 in
      ("INV-2026-" ++ Py.format_04d next_sequence)%string
  end.

(** [db.query(Port).filter(Port.id == port_id).first()] *)
Definition get_port (db : DB) (port_id : option Z) : option Port.t :=
  Sql.first
    (filter (fun p => Sql.opt_eqb Z.eqb (Some (Port.id p)) port_id) (ports db)).

(** The ids of the ports of a region. *)
Definition region_ids (db : DB) (region : option string) : list Z :=
  map Port.id
      (filter (fun p => Sql.opt_eqb String.eqb (Port.region p) region) (ports db)).

(** The rate-card query shared by the three tiers: filter, order by
    [effective_from] descending, take the first row. *)
Definition latest_rate_card (db : DB) (p : RateCard.t -> bool)
  : option RateCard.t :=
  Sql.first (Sql.order_by_desc RateCard.effective_from (filter p (rate_cards db))).

Definition exact_filter (origin_port_id dest_port_id : option Z)
    (container_type : string) (rc : RateCard.t) : bool :=
  Sql.opt_eqb Z.eqb (RateCard.origin_port_id rc) origin_port_id
  && Sql.opt_eqb Z.eqb (RateCard.destination_port_id rc) dest_port_id
  && String.eqb (RateCard.container_type rc) container_type
  && RateCard.is_active rc.

Definition region_filter (region_port_ids : list Z) (dest_port_id : option Z)
    (container_type : string) (rc : RateCard.t) : bool :=
  Sql.in_ (RateCard.origin_port_id rc) region_port_ids
  && Sql.opt_eqb Z.eqb (RateCard.destination_port_id rc) dest_port_id
  && String.eqb (RateCard.container_type rc) container_type
  && RateCard.is_active rc.

Definition broad_filter (region_port_ids dest_region_port_ids : list Z)
    (container_type : string) (rc : RateCard.t) : bool :=
  Sql.in_ (RateCard.origin_port_id rc) region_port_ids
  && Sql.in_ (RateCard.destination_port_id rc) dest_region_port_ids
  && String.eqb (RateCard.container_type rc) container_type
  && RateCard.is_active rc.

Definition find_rate_card (db : DB) (origin_port_id dest_port_id : option Z)
    (container_type : string) : option RateCard.t :=
  (* Exact origin + destination match *)
  let exact_match :=
    latest_rate_card db (exact_filter origin_port_id dest_port_id container_type) in
  match exact_match with
  | Some rc => Some rc
  | None =>
      (* Region-based fallback *)
      match get_port db origin_port_id with
      | None => None
      | Some origin_port =>
          let region_port_ids := region_ids db (Port.region origin_port) in
          let region_match :=
            latest_rate_card db
              (region_filter region_port_ids dest_port_id container_type) in
          match region_match with
          | Some rc => Some rc
          | None =>
              (* Further fallback: also relax the destination to same region *)
              match get_port db dest_port_id with
              | None => None
              | Some dest_port =>
                  let dest_region_port_ids :=
                    region_ids db (Port.region dest_port) in
                  latest_rate_card db
                    (broad_filter region_port_ids dest_region_port_ids
                                  container_type)
              end
          end
      end
  end.

(** The body of the loop of [get_applicable_surcharges]: does the
    surcharge pass the three checks that would [continue]? *)
Definition surcharge_applies (category : string)
    (origin_port_id dest_port_id : option Z) (s : Surcharge.t) : bool :=
  if negb (str_in (Surcharge.applies_to s) [category; "all"]) then false
  else if match Surcharge.origin_port_id s with
          | Some o => negb (Sql.opt_eqb Z.eqb (Some o) origin_port_id)
          | None => false
          end then false
  else if match Surcharge.destination_port_id s with
          | Some d => negb (Sql.opt_eqb Z.eqb (Some d) dest_port_id)
          | None => false
          end then false
  else true.

Definition get_applicable_surcharges (db : DB)
    (origin_port_id dest_port_id : option Z) (container_type : string)
  : list Surcharge.t :=
  let category := if str_in container_type FCL_TYPES then "FCL" else "LCL" in
  let all_active := filter Surcharge.is_active (surcharges db) in
  fold_left
    (fun applicable s =>
       if surcharge_applies category origin_port_id dest_port_id s
       then applicable ++ [s] else applicable)
    all_active [].

(** A line item: the dict with keys [charge_code], [description],
    [quantity], [unit_price], [line_total]. *)
Record LineItem := mkLine {
  charge_code : string;
  description : string;
  quantity : float;
  unit_price : float;
  line_total : float
}.

Definition is_lcl (shipment : Shipment.t) : bool :=
  String.eqb (Shipment.container_type shipment) "LCL".

(** [max(shipment.cbm or 0, 1.0)] *)
Definition billable_cbm (shipment : Shipment.t) : float :=
  Py.max (Py.float_or (Shipment.cbm shipment) 0) 1.

(** [shipment.container_count or 1] *)
Definition billable_count (shipment : Shipment.t) : Z :=
  Py.int_or (Shipment.container_count shipment) 1.

(** The local [ocean_freight_total]: the product before rounding. *)
Definition ocean_freight_total (shipment : Shipment.t) (rate_card : RateCard.t)
  : float :=
  if is_lcl shipment
  then (RateCard.base_ocean_freight rate_card * billable_cbm shipment)%float
  else (RateCard.base_ocean_freight rate_card
        * Py.float_of_int (billable_count shipment))%float.

Definition ocean_freight_line (shipment : Shipment.t) (rate_card : RateCard.t)
  : LineItem :=
  if is_lcl shipment
  then mkLine "OFR" "Ocean Freight" (billable_cbm shipment)
         (RateCard.base_ocean_freight rate_card)
         (Py.round2 (ocean_freight_total shipment rate_card))
  else mkLine "OFR" "Ocean Freight" (Py.float_of_int (billable_count shipment))
         (RateCard.base_ocean_freight rate_card)
         (Py.round2 (ocean_freight_total shipment rate_card)).

(** The body of the loop over the surcharges: the line appended for
    [s], or none. *)
Definition surcharge_line (shipment : Shipment.t) (rate_card : RateCard.t)
    (s : Surcharge.t) : option LineItem :=
  let calc := Surcharge.calculation_type s in
  if String.eqb calc "per_container" && negb (is_lcl shipment) then
    let count := billable_count shipment in
    Some (mkLine (Surcharge.charge_code s) (Surcharge.charge_name s)
            (Py.float_of_int count) (Surcharge.amount s)
            (Py.round2 (Surcharge.amount s * Py.float_of_int count)%float))
  else if String.eqb calc "per_cbm" && is_lcl shipment then
    let cbm := billable_cbm shipment in
    Some (mkLine (Surcharge.charge_code s) (Surcharge.charge_name s)
            cbm (Surcharge.amount s)
            (Py.round2 (Surcharge.amount s * cbm)%float))
  else if String.eqb calc "fixed" then
    let line :=
      mkLine (Surcharge.charge_code s) (Surcharge.charge_name s)
        1%float (Surcharge.amount s) (Py.round2 (Surcharge.amount s)) in
    (* LCL_MIN: only add if ocean freight is below threshold *)
    if String.eqb (Surcharge.charge_code s) "LCL_MIN" && is_lcl shipment then
      if (LCL_MIN_THRESHOLD <=? ocean_freight_total shipment rate_card)%float
      then None
      else Some line
    else Some line
  else if String.eqb calc "percentage" then
    let pct_amount :=
      ((Surcharge.amount s / 100) * ocean_freight_total shipment rate_card)%float in
    Some (mkLine (Surcharge.charge_code s) (Surcharge.charge_name s)
            1%float (Py.round2 pct_amount) (Py.round2 pct_amount))
  else None.

Section SortByKey.
Variable A : Type.
Variable key : A -> string.

(** Insertion before the first element with a key not smaller. *)
Fixpoint insert_by_key (x : A) (l : list A) : list A :=
  match l with
  | [] => [x]
  | y :: t => if String.leb (key x) (key y) then x :: l
              else y :: insert_by_key x t
  end.

(** [l.sort(key=...)]: the stable sort in ascending key order. *)
Fixpoint sort_by_key (l : list A) : list A :=
  match l with
  | [] => []
  | x :: t => insert_by_key x (sort_by_key t)
  end.
End SortByKey.

Definition calculate_line_items (shipment : Shipment.t) (rate_card : RateCard.t)
    (surcharges : list Surcharge.t) : list LineItem :=
  (* --- Ocean Freight --- *)
  let lines := [ocean_freight_line shipment rate_card] in
  (* --- Surcharges --- *)
  let surcharge_lines :=
    fold_left
      (fun acc s =>
         match surcharge_line shipment rate_card s with
         | Some line => acc ++ [line]
         | None => acc
         end)
      surcharges [] in
  (* Sort surcharges alphabetically by charge_code *)
  lines ++ sort_by_key charge_code surcharge_lines.

(** [date.max.toordinal()]: 9999-12-31. *)
Definition DATE_MAX : Z := 3652059.

(** [d + timedelta(days=n)]: OverflowError outside years 1 to 9999. *)
Definition date_add (d : date) (n : Z) : Session date :=
  if (1 <=? d + n) && (d + n <=? DATE_MAX) then ret (d + n)
  else raise OverflowError.

(** [db.add(invoice); db.flush()]: the INSERT gives the row its key;
    the NOT NULL constraints and then the unique constraint on
    [invoice_number] are checked. *)
Definition add_invoice (mk_invoice : Z -> Invoice.t) : Session Invoice.t :=
  fun db =>
    let invoice := mk_invoice (next_id (map Invoice.id (invoices db))) in
    match Invoice.stored invoice with
    | None => (db, inl IntegrityError_NotNull)
    | Some row =>
        if str_in (Invoice.invoice_number row)
                  (map Invoice.invoice_number (invoices db))
        then (db, inl IntegrityError)
        else (with_invoices (fun rows => rows ++ [row]) db, inr row)
    end.

(** [db.add(line)], as the flush of [db.commit()] inserts it. *)
Definition add_invoice_line (mk_line : Z -> InvoiceLine.t) : Session unit :=
  fun db =>
    match InvoiceLine.stored
            (mk_line (next_id (map InvoiceLine.id (invoice_lines db)))) with
    | None => (db, inl IntegrityError_NotNull)
    | Some row => (with_invoice_lines (fun rows => rows ++ [row]) db, inr tt)
    end.

(** [for idx, item in enumerate(line_items, start=idx): db.add(...)] *)
Fixpoint add_invoice_lines (invoice_id : Z) (idx : Z) (line_items : list LineItem)
  : Session unit :=
  match line_items with
  | [] => ret tt
  | item :: rest =>
      add_invoice_line
        (fun id => InvoiceLine.mk id (Some invoice_id) idx
                     (charge_code item) (description item)
                     (Some (quantity item)) (unit_price item) (line_total item)) ;;;
      add_invoice_lines invoice_id (idx + 1) rest
  end.

(** [generate_invoice(db, shipment_id)], with [today = date.today()]. *)
Definition generate_invoice (shipment_id : Z) (today : date) : Session Invoice.t :=
  (* 1. Load shipment *)
  found <- query (fun db =>
             Sql.first (filter (fun s => Shipment.id s =? shipment_id)
                               (shipments db))) ;;
  match found with
  | None =>
      raise (ValueError
               ("Shipment with id " ++ Py.str_of_int shipment_id ++ " not found"))
  | Some shipment =>
  existing_invoice <- query (fun db =>
             Sql.first (filter (fun i => Sql.opt_eqb Z.eqb (Invoice.shipment_id i)
                                           (Some shipment_id))
                               (invoices db))) ;;
  match existing_invoice with
  | Some existing =>
      raise (ValueError
               ("Shipment " ++ Py.str_of_int shipment_id ++ " already has invoice "
                ++ Invoice.invoice_number existing))
  | None =>
  (* 2. Determine bill-to client *)
  bill_to <- query (fun db =>
             let client_id :=
               if String.eqb (Shipment.bill_to shipment) "consignee"
               then Shipment.consignee_id shipment
               else Shipment.shipper_id shipment in
             Sql.first (filter (fun c => Sql.opt_eqb Z.eqb (Some (Client.id c))
                                           client_id)
                               (clients db))) ;;
  match bill_to with
  | None => raise (ValueError "Bill-to client not found for shipment")
  | Some client =>
  (* 3. Find rate card *)
  rate <- query (fun db =>
             find_rate_card db (Shipment.origin_port_id shipment)
               (Shipment.destination_port_id shipment)
               (Shipment.container_type shipment)) ;;
  match rate with
  | None =>
      raise (ValueError
               ("No rate card found for route (origin="
                ++ Py.str_of_opt_int (Shipment.origin_port_id shipment)
                ++ ", dest="
                ++ Py.str_of_opt_int (Shipment.destination_port_id shipment)
                ++ ") and container type " ++ Shipment.container_type shipment))
  | Some rate_card =>
  (* 4. Get applicable surcharges *)
  surcharges <- query (fun db =>
             get_applicable_surcharges db (Shipment.origin_port_id shipment)
               (Shipment.destination_port_id shipment)
               (Shipment.container_type shipment)) ;;
  (* 5. Calculate line items *)
  let line_items := calculate_line_items shipment rate_card surcharges in
  (* 6. Create Invoice record *)
  let subtotal := Py.sum (map line_total line_items) in
  let tax_amount := 0%float in
  let total_amount := (subtotal + tax_amount)%float in
  let payment_terms := Py.int_or (Client.payment_terms_days client) 30 in
  invoice_number <- query get_next_invoice_number ;;
  due_date <- date_add today payment_terms ;;
  transaction (
  invoice <- add_invoice (fun id =>
             Invoice.mk id invoice_number (Some shipment_id)
               (Some (Client.id client)) today due_date
               (Py.round2 subtotal) (Some (Py.round2 tax_amount))
               (Py.round2 total_amount) (Some 0%float)
               (Py.round2 total_amount) "draft") ;;
  (* 7. Create InvoiceLine records *)
  add_invoice_lines (Invoice.id invoice) 1 line_items ;;;
  (* 8. Commit and return *)
  ret invoice)
  end end end end.

(** ** [app/services/payment_tracker.py] *)

(** The assignments of [record_payment] to the invoice it loaded. *)
Definition update_invoice_totals (amount : float) (invoice : Invoice.t)
  : Invoice.t :=
  (* Update invoice totals *)
  let amount_paid := (Py.float_or (Invoice.amount_paid invoice) 0 + amount)%float in
  let invoice := Invoice.set_amount_paid amount_paid invoice in
  let invoice :=
    Invoice.set_balance_due (Invoice.total_amount invoice - amount_paid)%float
                            invoice in
  (* Update invoice status based on balance *)
  if (Invoice.balance_due invoice <=? 0)%float then
    Invoice.set_status "paid" (Invoice.set_balance_due 0%float invoice)
  else if (0 <? amount_paid)%float then
    Invoice.set_status "partial" invoice
  else invoice.

(** The UPDATE of the invoice that [db.commit()] flushes. *)
Definition update_invoice (row : nat) (invoice : Invoice.t) : Session unit :=
  match Invoice.stored_totals invoice with
  | Some stored => modify (with_invoices (update_at row (fun _ => stored)))
  | None => raise IntegrityError_NotNull
  end.

(** [db.add(payment)], as the flush of [db.commit()] inserts it. *)
Definition add_payment (mk_payment : Z -> Payment.t) : Session Payment.t :=
  fun db =>
    match Payment.stored (mk_payment (next_id (map Payment.id (payments db)))) with
    | None => (db, inl IntegrityError_NotNull)
    | Some row => (with_payments (fun rows => rows ++ [row]) db, inr row)
    end.

Definition record_payment (invoice_id : Z) (amount : float) (payment_date : date)
    (payment_method reference_number notes : string) : Session Payment.t :=
  found <- query (fun db =>
             load (fun i => Invoice.id i =? invoice_id) (invoices db)) ;;
  match found with
  | None =>
      raise (ValueError
               ("Invoice with id " ++ Py.str_of_int invoice_id ++ " not found"))
  | Some (row, invoice) =>
      (* Create payment record *)
      let payment := fun id =>
        Payment.mk id (Some invoice_id) payment_date amount
          (Some payment_method) (Some reference_number) (Some notes) in
      (* Update invoice totals and status *)
      let invoice := update_invoice_totals amount invoice in
      (* db.commit(); db.refresh(payment) *)
      transaction (update_invoice row invoice ;;; add_payment payment)
  end.

Definition is_overdue (today : date) (i : Invoice.t) : bool :=
  String.eqb (Invoice.status i) "sent" && (Invoice.due_date i <? today).

(** [for invoice in overdue_invoices: invoice.status = "overdue"; count += 1] *)
Fixpoint mark_overdue (overdue_invoices : list nat) (count : Z) : Session Z :=
  match overdue_invoices with
  | [] => ret count
  | invoice :: rest =>
      modify (with_invoices (update_at invoice (Invoice.set_status "overdue"))) ;;;
      mark_overdue rest (count + 1)
  end.

(** [check_overdue(db)], with [today = date.today()]. *)
Definition check_overdue (today : date) : Session Z :=
  overdue_invoices <- query (fun db =>
                        positions (is_overdue today) (invoices db) 0) ;;
  mark_overdue overdue_invoices 0.

(** ** The routes ([app/routers/invoices.py], [app/routers/payments.py])

    A route runs on the store and ends with its response, with the
    [HTTPException] it raises, with a response that fails validation,
    with the error of a session that a failed flush has closed to
    further statements, or with an exception of a service that it does
    not catch. *)

Inductive failure : Type :=
| HTTPException (status_code : Z) (detail : string)
| ValidationError
| PendingRollbackError
| Uncaught (e : exn).

Definition Route (A : Type) : Type := DB -> DB * (failure + A).

(** Insertion into a list in ascending key order, before the first row
    whose key is not smaller. *)
Fixpoint insert_asc {A} (key : A -> Z) (x : A) (l : list A) : list A :=
  match l with
  | [] => [x]
  | y :: t => if key x <=? key y then x :: l else y :: insert_asc key x t
  end.

(** [.order_by(key)]; rows with equal keys keep their storage order. *)
Fixpoint order_by_asc {A} (key : A -> Z) (l : list A) : list A :=
  match l with
  | [] => []
  | x :: t => insert_asc key x (order_by_asc key t)
  end.

(** [if invoice.client_id: client = ...first(); if client: ...]: the
    company name of the client, for a key that is neither NULL nor 0. *)
Definition client_name_of (db : DB) (client_id : option Z) : option string :=
  match client_id with
  | None => None
  | Some 0 => None
  | Some key =>
      match Sql.first (filter (fun c => Client.id c =? key) (clients db)) with
      | Some client => Some (Client.company_name client)
      | None => None
      end
  end.

(** The same for the booking number of the shipment. *)
Definition booking_number_of (db : DB) (shipment_id : option Z) : option string :=
  match shipment_id with
  | None => None
  | Some 0 => None
  | Some key =>
      match Sql.first (filter (fun s => Shipment.id s =? key) (shipments db)) with
      | Some shipment => Some (Shipment.booking_number shipment)
      | None => None
      end
  end.

(** [from app.services.invoice_generator import generate_invoice as
    gen_invoice] *)
Definition gen_invoice := generate_invoice.

Module InvoicesRouter.

(** [InvoiceResponse], with the columns of the invoice model. *)
Record InvoiceResponse := mkInvoiceResponse {
  response_invoice : Invoice.t;
  response_client_name : option string
}.

(** [InvoiceDetail] *)
Record InvoiceDetail := mkInvoiceDetail {
  invoice : Invoice.t;
  client_name : option string;
  booking_number : option string;
  lines : list InvoiceLine.t
}.

(** [InvoiceLineResponse.model_validate(line)]: [invoice_id] and
    [quantity] are required there and nullable in the table. *)
Definition valid_line (line : InvoiceLine.t) : bool :=
  match InvoiceLine.invoice_id line, InvoiceLine.quantity line with
  | Some _, Some _ => true
  | _, _ => false
  end.

(** [GET /api/invoices/{invoice_id}] *)
Definition get_invoice (invoice_id : Z) : Route InvoiceDetail :=
  fun db =>
    match Sql.first (filter (fun i => Invoice.id i =? invoice_id) (invoices db)) with
    | None => (db, inl (HTTPException 404 "Invoice not found"))
    | Some invoice =>
        (* Get line items *)
        let lines :=
          order_by_asc InvoiceLine.line_order
            (filter (fun l => Sql.opt_eqb Z.eqb (InvoiceLine.invoice_id l)
                                (Some invoice_id))
                    (invoice_lines db)) in
        (* Get client name *)
        let client_name := client_name_of db (Invoice.client_id invoice) in
        (* Get shipment booking number *)
        let booking_number := booking_number_of db (Invoice.shipment_id invoice) in
        if forallb valid_line lines
        then (db, inr (mkInvoiceDetail invoice client_name booking_number lines))
        else (db, inl ValidationError)
    end.

(** The body of the answer of [POST /api/invoices/generate/{shipment_id}]. *)
Record Generated := mkGenerated {
  message : string;
  invoice_id : Z;
  invoice_number : string;
  total_amount : float
}.

(** [POST /api/invoices/generate/{shipment_id}]: the service call, its
    ValueError turned into status 400 with the message as detail. *)
Definition generate_invoice (shipment_id : Z) (today : date) : Route Generated :=
  fun db =>
    match gen_invoice shipment_id today db with
    | (db', inr invoice) =>
        (db', inr (mkGenerated "Invoice generated" (Invoice.id invoice)
                     (Invoice.invoice_number invoice)
                     (Invoice.total_amount invoice)))
    | (db', inl (ValueError msg)) => (db', inl (HTTPException 400 msg))
    | (db', inl e) => (db', inl (Uncaught e))
    end.

(** [POST /api/invoices/{invoice_id}/void] *)
Definition void_invoice (invoice_id : Z) : Route InvoiceResponse :=
  fun db =>
    match load (fun i => Invoice.id i =? invoice_id) (invoices db) with
    | None => (db, inl (HTTPException 404 "Invoice not found"))
    | Some (row, invoice) =>
        let invoice := Invoice.set_status "void" invoice in
        let db := with_invoices (update_at row (Invoice.set_status "void")) db in
        (db, inr (mkInvoiceResponse invoice
                    (client_name_of db (Invoice.client_id invoice))))
    end.

End InvoicesRouter.

Module PaymentCreate.
Record t := mk {
  invoice_id : Z;
  payment_date : date;
  amount : float;
  payment_method : option string;
  reference_number : option string;
  notes : option string
}.
End PaymentCreate.

Module PaymentsRouter.

(** [PaymentResponse] *)
Record PaymentResponse := mkPaymentResponse {
  payment : Payment.t;
  invoice_number : option string
}.

(** The assignments of [create_payment] to the invoice it loaded. *)
Definition update_invoice_amounts (amount : float) (invoice : Invoice.t)
  : Invoice.t :=
  (* Update invoice amounts *)
  let amount_paid := (Py.float_or (Invoice.amount_paid invoice) 0 + amount)%float in
  let invoice := Invoice.set_amount_paid amount_paid invoice in
  let invoice :=
    Invoice.set_balance_due (Invoice.total_amount invoice - amount_paid)%float
                            invoice in
  (* Update invoice status *)
  if (Invoice.balance_due invoice <=? 0)%float then
    Invoice.set_status "paid" (Invoice.set_balance_due 0%float invoice)
  else
    Invoice.set_status "partial" invoice.

(** [POST /api/payments] *)
Definition create_payment (payload : PaymentCreate.t) : Route PaymentResponse :=
  fun db =>
    (* Validate invoice exists *)
    match load (fun i => Invoice.id i =? PaymentCreate.invoice_id payload)
               (invoices db) with
    | None => (db, inl (HTTPException 404 "Invoice not found"))
    | Some (row, invoice) =>
        (* Create payment *)
        let payment := fun id =>
          Payment.mk id (Some (PaymentCreate.invoice_id payload))
                     (PaymentCreate.payment_date payload)
                     (PaymentCreate.amount payload)
                     (PaymentCreate.payment_method payload)
                     (PaymentCreate.reference_number payload)
                     (PaymentCreate.notes payload) in
        (* Update invoice amounts and status *)
        let updated :=
          update_invoice_amounts (PaymentCreate.amount payload) invoice in
        (* db.commit(); db.refresh(payment) *)
        match transaction (update_invoice row updated ;;; add_payment payment)
                          db with
        | (db', inr payment) =>
            (db', inr (mkPaymentResponse payment
                         (Some (Invoice.invoice_number invoice))))
        | (db', inl e) => (db', inl (Uncaught e))
        end
    end.

End PaymentsRouter.

(** ** [app/routers/agent.py] *)

Module AgentRouter.

(** An entry of [errors]: the shipment and the exception caught, in
    place of its text [str(e)]. *)
Record BatchError := mkBatchError {
  error_shipment_id : Z;
  booking : string;
  error : exn
}.

(** An entry of [generated]. *)
Record BatchInvoice := mkBatchInvoice {
  invoice_number : string;
  total : float
}.

Record Batch := mkBatch {
  count : Z;
  generated : list BatchInvoice;
  errors : list BatchError
}.

(** [[r[0] for r in db.query(Invoice.shipment_id).all() if r[0]]]: the
    shipment keys of the invoices, without NULL and 0. *)
Fixpoint shipment_keys (rows : list Invoice.t) : list Z :=
  match rows with
  | [] => []
  | i :: rest =>
      match Invoice.shipment_id i with
      | None | Some 0 => shipment_keys rest
      | Some key => key :: shipment_keys rest
      end
  end.

(** Find shipments without invoices. *)
Definition unbilled_shipments (db : DB) : list Shipment.t :=
  let invoiced_shipment_ids := shipment_keys (invoices db) in
  match invoiced_shipment_ids with
  | [] => shipments db
  | _ :: _ =>
      filter (fun s => negb (Sql.in_ (Some (Shipment.id s)) invoiced_shipment_ids))
             (shipments db)
  end.

(** The loop over [unbilled].  After a flush that failed on a
    constraint the session takes no statement before a rollback, which
    the route does not issue: it ends with PendingRollbackError. *)
Fixpoint generate_each (today : date) (unbilled : list Shipment.t)
    (generated : list BatchInvoice) (errors : list BatchError)
  : Route (list BatchInvoice * list BatchError) :=
  match unbilled with
  | [] => fun db => (db, inr (generated, errors))
  | shipment :: rest => fun db =>
      match generate_invoice (Shipment.id shipment) today db with
      | (db', inr inv) =>
          generate_each today rest
            (generated ++ [mkBatchInvoice (Invoice.invoice_number inv)
                                          (Invoice.total_amount inv)])
            errors db'
      | (db', inl IntegrityError) | (db', inl IntegrityError_NotNull) =>
          (db', inl PendingRollbackError)
      | (db', inl e) =>
          generate_each today rest generated
            (errors ++ [mkBatchError (Shipment.id shipment)
                                     (Shipment.booking_number shipment) e])
            db'
      end
  end.

(** [POST /api/agent/generate-batch], without the row it adds to the
    agent log, a table outside the store modelled here. *)
Definition generate_batch (today : date) : Route Batch :=
  fun db =>
    let unbilled := unbilled_shipments db in
    match generate_each today unbilled [] [] db with
    | (db', inr (generated, errors)) =>
        (db', inr (mkBatch (Z.of_nat (List.length generated)) generated errors))
    | (db', inl f) => (db', inl f)
    end.

End AgentRouter.

(** ** Auxiliary definitions for the statements *)

(** The values a loop of the shape
    [for s in l: if ...: acc.append(...)] appends, in order. *)
Fixpoint collect {A B} (f : A -> option B) (l : list A) : list B :=
  match l with
  | [] => []
  | x :: t => match f x with
              | Some y => y :: collect f t
              | None => collect f t
              end
  end.

(** The local [surcharge_lines] of [calculate_line_items] before the sort. *)
Definition surcharge_lines (shipment : Shipment.t) (rate_card : RateCard.t)
    (surcharges : list Surcharge.t) : list LineItem :=
  collect (surcharge_line shipment rate_card) surcharges.

(** Charge codes in ascending, respectively strictly ascending, order. *)
Definition code_le (a b : LineItem) : Prop :=
  String.leb (charge_code a) (charge_code b) = true.
Definition code_lt (a b : LineItem) : Prop :=
  String.ltb (charge_code a) (charge_code b) = true.

(** The lines of a list that carry a given charge code, in order. *)
Definition with_code (c : string) (l : list LineItem) : list LineItem :=
  filter (fun x => String.eqb (charge_code x) c) l.

(** The least exponent of binary64, that of the subnormal numbers. *)
Definition emin64 : Z := -1074.

(** ** Sample data for the closed instances *)

Definition ex_rate (base : float) (container_type : string) : RateCard.t :=
  RateCard.mk 1 (Some 1) (Some 2) container_type base 739000 None true.

Definition ex_lcl_shipment (cbm : float) : Shipment.t :=
  Shipment.mk 1 "BK-0001" (Some 1) (Some 2) (Some 1) (Some 2) "LCL" None
              (Some cbm) "shipper".

Definition ex_fcl_shipment (count : Z) : Shipment.t :=
  Shipment.mk 2 "BK-0002" (Some 1) (Some 2) (Some 1) (Some 2) "40HC"
              (Some count) None "shipper".

Definition ex_surcharge (code calculation_type : string) (amount : float)
    (applies_to : string) : Surcharge.t :=
  Surcharge.mk 1 code code calculation_type amount None applies_to None None true.

(** [db.query(Invoice).filter(Invoice.id == invoice_id).first()], the
    invoice as a later query reads it. *)
Definition get_invoice (db : DB) (invoice_id : Z) : option Invoice.t :=
  Sql.first (filter (fun i => Invoice.id i =? invoice_id) (invoices db)).

(** What [check_overdue] does to one row. *)
Definition swept (today : date) (i : Invoice.t) : Invoice.t :=
  if is_overdue today i then Invoice.set_status "overdue" i else i.

(** The amount paid so far on an invoice: nothing when the column is
    NULL or zero. *)
Definition paid_so_far (invoice : Invoice.t) : float :=
  match Invoice.amount_paid invoice with
  | Some paid => if (paid =? 0)%float then 0%float else paid
  | None => 0%float
  end.

(** The amounts of a payment on an invoice: the amount paid with the
    payment added, and what is left of the total. *)
Definition new_amount_paid (amount : float) (invoice : Invoice.t) : float :=
  (paid_so_far invoice + amount)%float.

Definition new_balance (amount : float) (invoice : Invoice.t) : float :=
  (Invoice.total_amount invoice - new_amount_paid amount invoice)%float.

(** The status the amounts of a payment give an invoice. *)
Definition status_after (amount : float) (invoice : Invoice.t) : string :=
  if (new_balance amount invoice <=? 0)%float then "paid"
  else if (0 <? new_amount_paid amount invoice)%float then "partial"
  else Invoice.status invoice.

(** The invoice row after a payment: the amount paid and the balance
    as the table holds them, the balance never below zero. *)
Definition invoice_after (amount : float) (invoice : Invoice.t) : Invoice.t :=
  Invoice.mk (Invoice.id invoice) (Invoice.invoice_number invoice)
    (Invoice.shipment_id invoice) (Invoice.client_id invoice)
    (Invoice.issue_date invoice) (Invoice.due_date invoice)
    (Invoice.subtotal invoice) (Invoice.tax_amount invoice)
    (Invoice.total_amount invoice)
    (Sql.real (new_amount_paid amount invoice))
    (Py.max 0 (new_balance amount invoice))
    (status_after amount invoice).

(** The payment as the table holds it. *)
Definition payment_row (db : DB) (invoice_id : Z) (payment_date : date)
    (amount : float) (method reference notes : string) : Payment.t :=
  Payment.mk (next_id (map Payment.id (payments db))) (Some invoice_id)
    payment_date (if is_zero amount then 0%float else amount)
    (Some method) (Some reference) (Some notes).

Definition ex_invoice (status : string) (total paid balance : float) : Invoice.t :=
  Invoice.mk 1 "INV-2026-0001" (Some 1) (Some 1) 739000 739030
             total (Some 0%float) total (Some paid) balance status.

Definition ex_store (invoices : list Invoice.t) : DB :=
  mkDB [] [] [] [] [] invoices [] [].

(** The stored invoice numbers the query of [get_next_invoice_number]
    ranges over: those LIKE 'INV-2026-%'. *)
Definition numbers_2026 (db : DB) : list string :=
  filter (Sql.like_prefix "INV-2026-") (map Invoice.invoice_number (invoices db)).

(** An invoice number of the year 2026: the text starts with
    INV-2026-, its three letters in either case. *)
Definition has_year_prefix (number : string) : Prop :=
  exists c1 c2 c3 rest,
    number = String c1 (String c2 (String c3 ("-2026-" ++ rest)))
    /\ (c1 = "I" \/ c1 = "i")%char
    /\ (c2 = "N" \/ c2 = "n")%char
    /\ (c3 = "V" \/ c3 = "v")%char.

(** The greatest, in byte order, of the stored invoice numbers of the
    year. *)
Definition greatest_prefixed (db : DB) (m : string) : Prop :=
  (exists i, In i (invoices db) /\ Invoice.invoice_number i = m)
  /\ has_year_prefix m
  /\ forall i, In i (invoices db) ->
       has_year_prefix (Invoice.invoice_number i) ->
       String.leb (Invoice.invoice_number i) m = true.

(** The [try] block of [get_next_invoice_number]: the sequence read
    from the last segment of a number, 0 when it does not parse. *)
Definition sequence_of (number : string) : Z :=
  match Py.last_item (Py.split "-" number) with
  | Some segment =>
      match Py.int_of_str segment with
      | Some n => n
      | None => 0
      end
  | None => 0
  end.

Definition ex_numbered (numbers : list string) : DB :=
  ex_store (map (fun n => Invoice.mk 1 n None None 739000 739030 0 None 0 None 0
                            "draft") numbers).

(** The tiers of the Rate Resolver, in the words of the specification. *)

(** An active rate card of the container type. *)
Definition usable (container_type : string) (rc : RateCard.t) : Prop :=
  RateCard.container_type rc = container_type /\ RateCard.is_active rc = true.

(** The port id is that of a port of the region. *)
Definition port_in_region (db : DB) (region : option string)
    (port_id : option Z) : Prop :=
  exists p, In p (ports db) /\ port_id = Some (Port.id p) /\ Port.region p = region.

(** Tier 1: exact origin, exact destination. *)
Definition tier1 (db : DB) (origin dest : option Z) (container_type : string)
    (rc : RateCard.t) : Prop :=
  In rc (rate_cards db)
  /\ RateCard.origin_port_id rc = origin
  /\ RateCard.destination_port_id rc = dest
  /\ usable container_type rc.

(** Tier 2: origin in the origin's region, exact destination. *)
Definition tier2 (db : DB) (origin_region : option string) (dest : option Z)
    (container_type : string) (rc : RateCard.t) : Prop :=
  In rc (rate_cards db)
  /\ port_in_region db origin_region (RateCard.origin_port_id rc)
  /\ RateCard.destination_port_id rc = dest
  /\ usable container_type rc.

(** Tier 3: origin in the origin's region, destination in the
    destination's region. *)
Definition tier3 (db : DB) (origin_region dest_region : option string)
    (container_type : string) (rc : RateCard.t) : Prop :=
  In rc (rate_cards db)
  /\ port_in_region db origin_region (RateCard.origin_port_id rc)
  /\ port_in_region db dest_region (RateCard.destination_port_id rc)
  /\ usable container_type rc.

(** A card of the tier with the latest [effective_from] of the tier. *)
Definition most_recent (tier : RateCard.t -> Prop) (rc : RateCard.t) : Prop :=
  tier rc
  /\ forall rc', tier rc' -> RateCard.effective_from rc' <= RateCard.effective_from rc.

(** The port a key resolves to: the first row of the port table that
    carries it.  A key is unresolved when no row carries it. *)
Definition resolves (db : DB) (port_id : option Z) (port : Port.t) : Prop :=
  exists pre post,
    ports db = pre ++ port :: post
    /\ port_id = Some (Port.id port)
    /\ forall p, In p pre -> Port.id p <> Port.id port.

Definition unresolved (db : DB) (port_id : option Z) : Prop :=
  forall p, In p (ports db) -> port_id <> Some (Port.id p).

(** The foreign keys of the rate cards hold: both ports of every card
    are rows of the port table. *)
Definition references_ports (db : DB) : Prop :=
  forall rc, In rc (rate_cards db) ->
    (exists p, resolves db (RateCard.origin_port_id rc) p)
    /\ (exists p, resolves db (RateCard.destination_port_id rc) p).

(** The Conflict error of [generate_invoice]: the shipment already has
    the invoice of that number. *)
Definition Conflict (shipment_id : Z) (invoice_number : string) : exn :=
  ValueError ("Shipment " ++ Py.str_of_int shipment_id ++ " already has invoice "
              ++ invoice_number).

(** The shipment has an invoice, whatever its status. *)
Definition invoiced (db : DB) (shipment_id : Z) : Prop :=
  exists i, In i (invoices db) /\ Invoice.shipment_id i = Some shipment_id.

(** A store with one FCL shipment, its client, ports, a rate card, and
    the given invoices. *)
Definition ex_booked (invoices : list Invoice.t) : DB :=
  mkDB [Port.mk 1 "CNSHA" "Shanghai" (Some "Asia");
        Port.mk 2 "USLAX" "Los Angeles" (Some "Americas")]
       [ex_rate 1800 "40HC"]
       [ex_surcharge "DOC_FEE" "fixed" 75 "all"]
       [Client.mk 1 "Acme Trading" (Some 30)]
       [Shipment.mk 1 "BK-0001" (Some 1) (Some 1) (Some 1) (Some 2) "40HC"
                    (Some 2) None "shipper"]
       invoices [] [].

(** ** Auxiliary definitions for the further properties *)

(** The applicability class of a container type. *)
Definition category_of (container_type : string) : string :=
  if str_in container_type FCL_TYPES then "FCL" else "LCL".

(** A surcharge whose calculation type yields no line for the shipment:
    per container on LCL, per cbm on a container load, or a type that
    is none of the four. *)
Definition no_line_for (shipment : Shipment.t) (s : Surcharge.t) : Prop :=
  (Surcharge.calculation_type s = "per_container" /\ is_lcl shipment = true)
  \/ (Surcharge.calculation_type s = "per_cbm" /\ is_lcl shipment = false)
  \/ ~ In (Surcharge.calculation_type s)
          ["per_container"; "per_cbm"; "fixed"; "percentage"].

(** The client a shipment is billed to: the consignee when [bill_to] is
    consignee, else the shipper. *)
Definition bill_to_client_id (shipment : Shipment.t) : option Z :=
  if String.eqb (Shipment.bill_to shipment) "consignee"
  then Shipment.consignee_id shipment
  else Shipment.shipper_id shipment.

(** A stored line carries a line item for an invoice: the texts of the
    item, and its numbers as a REAL column holds them. *)
Definition row_of_item (invoice_id : Z) (row : InvoiceLine.t) (item : LineItem)
  : Prop :=
  InvoiceLine.invoice_id row = Some invoice_id
  /\ InvoiceLine.charge_code row = charge_code item
  /\ InvoiceLine.description row = description item
  /\ InvoiceLine.quantity row = Sql.real (quantity item)
  /\ Some (InvoiceLine.unit_price row) = Sql.real (unit_price item)
  /\ Some (InvoiceLine.line_total row) = Sql.real (line_total item).

(** The line items of a shipment, as [generate_invoice] computes them. *)
Definition line_items_of (db : DB) (shipment : Shipment.t)
    (rate_card : RateCard.t) : list LineItem :=
  calculate_line_items shipment rate_card
    (get_applicable_surcharges db (Shipment.origin_port_id shipment)
       (Shipment.destination_port_id shipment)
       (Shipment.container_type shipment)).

(** The line orders [idx], [idx + 1], ... of a list of rows. *)
Fixpoint numbered_from (idx : Z) (rows : list InvoiceLine.t) : Prop :=
  match rows with
  | [] => True
  | row :: rest => InvoiceLine.line_order row = idx /\ numbered_from (idx + 1) rest
  end.

(** The foreign key of the invoice lines holds: a line that names an
    invoice names a row of the invoice table. *)
Definition lines_reference_invoices (db : DB) : Prop :=
  forall l key, In l (invoice_lines db) ->
    InvoiceLine.invoice_id l = Some key ->
    exists i, In i (invoices db) /\ Invoice.id i = key.

(** The failures of [generate_invoice] that the data of a shipment
    cause: no bill-to client, no rate card, a due date out of range. *)
Definition data_error (e : exn) : Prop :=
  e = ValueError "Bill-to client not found for shipment"
  \/ (exists route, e = ValueError ("No rate card found for route " ++ route))
  \/ e = OverflowError.

(** The primary key of the shipments: distinct, and not 0. *)
Definition shipment_keys_valid (db : DB) : Prop :=
  NoDup (map Shipment.id (shipments db))
  /\ forall s, In s (shipments db) -> Shipment.id s <> 0.

(** The same store with another surcharge table. *)
Definition ex_booked_with (surcharges : list Surcharge.t) : DB :=
  mkDB (ports (ex_booked [])) (rate_cards (ex_booked [])) surcharges
       (clients (ex_booked [])) (shipments (ex_booked [])) [] [] [].

(** The case analysis on a character, for the comparisons of LIKE. *)
Ltac like_cases c :=
  destruct c as [[] [] [] [] [] [] [] []]; vm_compute;
  (split; [intros H; first [discriminate H | auto]
          | intros H; first [reflexivity
                            | discriminate H
                            | destruct H as [H|H]; discriminate H]]).

(** * Properties *)

(** ** Comparisons of binary64 values *)

Lemma Prim2SF_zero : Prim2SF 0%float = S754_zero false.
Proof. reflexivity. Qed.

Lemma Prim2SF_not_nan (x : float) :
  is_nan x = false -> Prim2SF x <> S754_nan.
Proof.
  intros Hnan. unfold Prim2SF. rewrite Hnan.
  destruct (is_zero x); [discriminate|].
  destruct (is_infinity x); [discriminate|].
  destruct (Z.frexp x) as [r ex].
  destruct (shr_fexp prec emax _ _ _) as [mrs e'].
  destruct (shr_m mrs); discriminate.
Qed.

Lemma SFcompare_antisym (x y : spec_float) :
  SFcompare y x = option_map CompOpp (SFcompare x y).
Proof.
  destruct x as [sx|sx| |sx mx ex], y as [sy|sy| |sy my ey];
    try destruct sx; try destruct sy; try reflexivity; simpl;
    rewrite (Z.compare_antisym ex ey);
    destruct (ex ?= ey); simpl; try reflexivity;
    fold (Pos.compare my mx); fold (Pos.compare mx my);
    rewrite (Pos.compare_antisym mx my);
    destruct (mx ?= my)%positive; reflexivity.
Qed.

(** [a < b] excludes [b <= a]. *)
Lemma ltb_not_leb (a b : float) :
  (a <? b)%float = true -> (b <=? a)%float = false.
Proof.
  rewrite ltb_spec, leb_spec. unfold SFltb, SFleb.
  rewrite (SFcompare_antisym (Prim2SF a) (Prim2SF b)).
  destruct (SFcompare (Prim2SF a) (Prim2SF b)) as [[]|]; simpl; congruence.
Qed.

(** [b <= a] excludes [a < b]. *)
Lemma leb_not_ltb (a b : float) :
  (b <=? a)%float = true -> (a <? b)%float = false.
Proof.
  intros H. destruct (a <? b)%float eqn:E; [|reflexivity].
  apply ltb_not_leb in E. congruence.
Qed.

(** Away from nan, [x <= 0] is the negation of [0 < x]. *)
Lemma leb_zero_ltb (x : float) :
  is_nan x = false -> (x <=? 0)%float = negb (0 <? x)%float.
Proof.
  intros Hnan. apply Prim2SF_not_nan in Hnan.
  rewrite ltb_spec, leb_spec, Prim2SF_zero. unfold SFltb, SFleb.
  destruct (Prim2SF x) as [s|s| |s m e]; try destruct s; try reflexivity.
  congruence.
Qed.

(** ** The sign of a difference of binary64 values *)

Unset Implicit Arguments.

Lemma digits2_pos_bounds (p : positive) :
  2 ^ (Z.pos (digits2_pos p) - 1) <= Z.pos p < 2 ^ Z.pos (digits2_pos p).
Proof.
  induction p as [p IH|p IH|]; simpl digits2_pos.
  - rewrite Pos2Z.inj_succ.
    replace (Z.succ (Z.pos (digits2_pos p)) - 1) with (Z.succ (Z.pos (digits2_pos p) - 1)) by lia.
    rewrite !Z.pow_succ_r by lia. lia.
  - rewrite Pos2Z.inj_succ.
    replace (Z.succ (Z.pos (digits2_pos p)) - 1) with (Z.succ (Z.pos (digits2_pos p) - 1)) by lia.
    rewrite !Z.pow_succ_r by lia. lia.
  - simpl. lia.
Qed.

Lemma shr_m_of_loc (m : Z) (l : location) : shr_m (shr_record_of_loc m l) = m.
Proof. destruct l as [|[]]; reflexivity. Qed.

Lemma shr_1_m (mrs : shr_record) :
  0 <= shr_m mrs -> shr_m (shr_1 mrs) = shr_m mrs / 2.
Proof.
  destruct mrs as [m r s]. cbn [shr_m]. intros Hm.
  destruct m as [|[p|p|]|p]; cbn [shr_1 shr_m]; try lia.
  - reflexivity.
  - apply Z.div_unique with 1; lia.
  - apply Z.div_unique with 0; lia.
  - reflexivity.
Qed.

Lemma pow2_xI (p : positive) :
  2 ^ Z.pos p~1 = 2 * (2 ^ Z.pos p * 2 ^ Z.pos p).
Proof.
  replace (Z.pos p~1) with (Z.pos p + Z.pos p + 1) by lia.
  rewrite !Z.pow_add_r by lia. change (2 ^ 1) with 2. ring.
Qed.

Lemma pow2_xO (p : positive) : 2 ^ Z.pos p~0 = 2 ^ Z.pos p * 2 ^ Z.pos p.
Proof.
  replace (Z.pos p~0) with (Z.pos p + Z.pos p) by lia.
  now rewrite Z.pow_add_r by lia.
Qed.

Lemma iter_shr_1_m (p : positive) (mrs : shr_record) :
  0 <= shr_m mrs ->
  shr_m (iter_pos shr_1 p mrs) = shr_m mrs / 2 ^ Z.pos p.
Proof.
  revert mrs. induction p as [p IH|p IH|]; intros mrs Hm; simpl iter_pos.
  - assert (Hp : 0 < 2 ^ Z.pos p) by (apply Z.pow_pos_nonneg; lia).
    assert (H1 : 0 <= shr_m (shr_1 mrs))
      by (rewrite shr_1_m by lia; apply Z.div_pos; lia).
    assert (H2 : 0 <= shr_m (iter_pos shr_1 p (shr_1 mrs)))
      by (rewrite IH by lia; apply Z.div_pos; lia).
    rewrite IH, IH, shr_1_m by lia.
    rewrite pow2_xI, !Z.div_div by lia. reflexivity.
  - assert (Hp : 0 < 2 ^ Z.pos p) by (apply Z.pow_pos_nonneg; lia).
    assert (H2 : 0 <= shr_m (iter_pos shr_1 p mrs))
      by (rewrite IH by lia; apply Z.div_pos; lia).
    rewrite IH, IH by lia.
    rewrite pow2_xO, !Z.div_div by lia. reflexivity.
  - now rewrite shr_1_m.
Qed.

Lemma fexp64 (k : Z) : fexp prec emax k = Z.max (k - 53) emin64.
Proof. reflexivity. Qed.

(** Truncation to the format keeps a positive mantissa positive. *)
Lemma shr_fexp_pos (m e : Z) (l : location) :
  0 < m -> emin64 <= e ->
  0 < shr_m (fst (shr_fexp prec emax m e l))
  /\ emin64 <= snd (shr_fexp prec emax m e l).
Proof.
  intros Hm He. unfold shr_fexp, shr. rewrite fexp64.
  destruct m as [|pm|pm]; try lia. simpl Zdigits2.
  pose proof (digits2_pos_bounds pm) as Hd.
  set (d := Z.pos (digits2_pos pm)) in *.
  destruct (Z.max (d + e - 53) emin64 - e) as [|n|n] eqn:En; simpl fst; simpl snd.
  - rewrite shr_m_of_loc. lia.
  - rewrite iter_shr_1_m by (rewrite shr_m_of_loc; lia).
    rewrite shr_m_of_loc. split; [|lia].
    apply Z.div_str_pos. split; [apply Z.pow_pos_nonneg; lia|].
    apply Z.le_trans with (2 ^ (d - 1)); [|lia].
    apply Z.pow_le_mono_r; unfold emin64 in *; lia.
  - rewrite shr_m_of_loc. lia.
Qed.

Lemma round_nearest_even_pos (m : Z) (l : location) :
  0 < m -> 0 < round_nearest_even m l.
Proof.
  intros Hm. destruct l as [|[]]; simpl; try lia.
  destruct (Z.even m); lia.
Qed.

Lemma binary_round_aux_pos (s : bool) (m e : Z) (l : location) :
  0 < m -> emin64 <= e ->
  (exists m' e', binary_round_aux prec emax s m e l = S754_finite s m' e')
  \/ binary_round_aux prec emax s m e l = S754_infinity s.
Proof.
  intros Hm He. unfold binary_round_aux.
  pose proof (shr_fexp_pos m e l Hm He) as H1.
  destruct (shr_fexp prec emax m e l) as [mrs' e']. simpl in H1.
  destruct H1 as [Hm' He'].
  pose proof (shr_fexp_pos
                (round_nearest_even (shr_m mrs') (loc_of_shr_record mrs')) e'
                loc_Exact (round_nearest_even_pos _ _ Hm') He') as H2.
  destruct (shr_fexp prec emax _ e' loc_Exact) as [mrs'' e'']. simpl in H2.
  destruct H2 as [Hm'' _].
  destruct (shr_m mrs'') as [|m''|m'']; try lia.
  destruct (e'' <=? emax - prec); [left; eauto | now right].
Qed.

Lemma binary_round_pos (s : bool) (p : positive) (e : Z) :
  emin64 <= e ->
  (exists m' e', binary_round prec emax s p e = S754_finite s m' e')
  \/ binary_round prec emax s p e = S754_infinity s.
Proof.
  intros He. unfold binary_round, shl_align. rewrite fexp64.
  destruct (Z.max (Z.pos (digits2_pos p) + e - 53) emin64 - e) eqn:En;
    apply binary_round_aux_pos; lia.
Qed.

(** The rounded value of an integer multiple of [2 ^ e] compares with
    zero as the integer does. *)
Lemma binary_normalize_leb_zero (D e : Z) :
  emin64 <= e ->
  SFleb (binary_normalize prec emax D e false) (S754_zero false) = (D <=? 0).
Proof.
  intros He. unfold binary_normalize. destruct D as [|p|p].
  - reflexivity.
  - destruct (binary_round_pos false p e He) as [(m' & e' & ->) | ->];
      reflexivity.
  - destruct (binary_round_pos true p e He) as [(m' & e' & ->) | ->];
      reflexivity.
Qed.

Lemma bounded_canonical (m : positive) (e : Z) :
  bounded prec emax m e = true ->
  emin64 <= e
  /\ Z.pos m < 2 ^ 53
  /\ (emin64 < e -> 2 ^ 52 <= Z.pos m).
Proof.
  unfold bounded, canonical_mantissa. rewrite fexp64. intros H.
  apply andb_prop in H. destruct H as [H _]. apply Z.eqb_eq in H.
  pose proof (digits2_pos_bounds m) as [Hlo Hhi].
  unfold emin64 in *. split; [lia|]. split.
  - apply Z.lt_le_trans with (2 ^ Z.pos (digits2_pos m)); [exact Hhi|].
    apply Z.pow_le_mono_r; lia.
  - intros He. replace (Z.pos (digits2_pos m)) with 53 in Hlo by lia.
    exact Hlo.
Qed.

Lemma iter_xO_value (m d : positive) :
  Z.pos (Pos.iter xO m d) = Z.pos m * 2 ^ Z.pos d.
Proof.
  induction d as [|d IH] using Pos.peano_ind.
  - simpl. lia.
  - rewrite Pos.iter_succ, Pos2Z.inj_xO, IH, Pos2Z.inj_succ, Z.pow_succ_r by lia.
    ring.
Qed.

Lemma shl_align_value (m : positive) (e ez : Z) :
  ez <= e -> Z.pos (fst (shl_align m e ez)) = Z.pos m * 2 ^ (e - ez).
Proof.
  intros Hle. unfold shl_align. destruct (ez - e) as [|d|d] eqn:E; simpl fst.
  - replace (e - ez) with 0 by lia. simpl. lia.
  - lia.
  - rewrite iter_xO_value. replace (e - ez) with (Z.pos d) by lia. reflexivity.
Qed.

(** Two finite values compare as their mantissas aligned on the smaller
    exponent do. *)
Lemma SFleb_aligned (sx : bool) (mx : positive) (ex : Z)
    (sy : bool) (my : positive) (ey : Z) :
  bounded prec emax mx ex = true ->
  bounded prec emax my ey = true ->
  SFleb (S754_finite sx mx ex) (S754_finite sy my ey)
  = (cond_Zopp sx (Z.pos (fst (shl_align mx ex (Z.min ex ey))))
     - cond_Zopp sy (Z.pos (fst (shl_align my ey (Z.min ex ey)))) <=? 0).
Proof.
  intros Hx Hy.
  destruct (bounded_canonical _ _ Hx) as (Hex & Hmx & Hnx).
  destruct (bounded_canonical _ _ Hy) as (Hey & Hmy & Hny).
  rewrite !shl_align_value by lia.
  change (2 ^ 53) with 9007199254740992 in *.
  change (2 ^ 52) with 4503599627370496 in *.
  assert (Hpow : forall k, 0 < k -> 2 <= 2 ^ k).
  { intros k Hk. change 2 with (2 ^ 1) at 1. apply Z.pow_le_mono_r; lia. }
  unfold SFleb, SFcompare.
  destruct (Z.compare_spec ex ey) as [Heq|Hlt|Hgt].
  - subst ey. rewrite Z.min_id, Z.sub_diag. change (2 ^ 0) with 1.
    rewrite !Z.mul_1_r.
    change (Pos.compare_cont Eq mx my) with (Pos.compare mx my).
    destruct (Pos.compare_spec mx my) as [Hm|Hm|Hm];
      destruct sx, sy; cbn [cond_Zopp CompOpp]; cbv iota; symmetry;
      first [apply Z.leb_le | apply Z.leb_gt]; lia.
  - rewrite Z.min_l by lia. rewrite Z.sub_diag. change (2 ^ 0) with 1.
    rewrite Z.mul_1_r.
    specialize (Hny ltac:(lia)). specialize (Hpow (ey - ex) ltac:(lia)).
    destruct sx, sy; cbn [cond_Zopp]; cbv iota; symmetry;
      first [apply Z.leb_le | apply Z.leb_gt]; nia.
  - rewrite Z.min_r by lia. rewrite Z.sub_diag. change (2 ^ 0) with 1.
    rewrite Z.mul_1_r.
    specialize (Hnx ltac:(lia)). specialize (Hpow (ex - ey) ltac:(lia)).
    destruct sx, sy; cbn [cond_Zopp]; cbv iota; symmetry;
      first [apply Z.leb_le | apply Z.leb_gt]; nia.
Qed.

Lemma Prim2SF_finite (x : float) :
  is_finite x = true ->
  (exists s, Prim2SF x = S754_zero s)
  \/ (exists s m e, Prim2SF x = S754_finite s m e
                    /\ bounded prec emax m e = true).
Proof.
  unfold is_finite. intros H. apply negb_true_iff, orb_false_iff in H.
  destruct H as [Hnan Hinf].
  assert (Hshape : match Prim2SF x with
                   | S754_nan | S754_infinity _ => False
                   | _ => True
                   end).
  { unfold Prim2SF. rewrite Hnan, Hinf.
    destruct (is_zero x); [exact I|].
    destruct (Z.frexp x) as [r ex].
    destruct (shr_fexp prec emax _ _ _) as [mrs e'].
    destruct (shr_m mrs); exact I. }
  pose proof (Prim2SF_valid x) as Hvalid.
  destruct (Prim2SF x) as [s|s| |s m e]; try contradiction.
  - left. now exists s.
  - right. now exists s, m, e.
Qed.

(** For finite values [a - b <= 0] exactly when [a <= b]. *)
Lemma sub_leb_zero (a b : float) :
  is_finite a = true -> is_finite b = true ->
  (a - b <=? 0)%float = (a <=? b)%float.
Proof.
  intros Ha Hb. rewrite !leb_spec, sub_spec.
  change (Prim2SF 0) with (S754_zero false).
  destruct (Prim2SF_finite a Ha) as [[sa ->] | (sa & ma & ea & -> & Hba)];
    destruct (Prim2SF_finite b Hb) as [[sb ->] | (sb & mb & eb & -> & Hbb)].
  - destruct sa, sb; reflexivity.
  - destruct sb; reflexivity.
  - destruct sa, sb; reflexivity.
  - unfold SF64sub, SFsub.
    rewrite binary_normalize_leb_zero
      by (destruct (bounded_canonical _ _ Hba), (bounded_canonical _ _ Hbb); lia).
    symmetry. now apply SFleb_aligned.
Qed.

Lemma binary_normalize_not_nan (D e : Z) :
  emin64 <= e -> binary_normalize prec emax D e false <> S754_nan.
Proof.
  intros He. unfold binary_normalize. destruct D as [|p|p].
  - discriminate.
  - destruct (binary_round_pos false p e He) as [(m' & e' & ->) | ->];
      discriminate.
  - destruct (binary_round_pos true p e He) as [(m' & e' & ->) | ->];
      discriminate.
Qed.

Lemma is_nan_Prim2SF (x : float) : Prim2SF x <> S754_nan -> is_nan x = false.
Proof.
  intros H. destruct (is_nan x) eqn:E; [|reflexivity].
  elim H. unfold Prim2SF. now rewrite E.
Qed.

(** The sum of two finite values is a number. *)
Lemma add_finite_not_nan (a b : float) :
  is_finite a = true -> is_finite b = true -> is_nan (a + b) = false.
Proof.
  intros Ha Hb. apply is_nan_Prim2SF. rewrite add_spec.
  destruct (Prim2SF_finite a Ha) as [[sa ->] | (sa & ma & ea & -> & Hba)];
    destruct (Prim2SF_finite b Hb) as [[sb ->] | (sb & mb & eb & -> & Hbb)].
  - destruct sa, sb; discriminate.
  - discriminate.
  - discriminate.
  - unfold SF64add, SFadd. apply binary_normalize_not_nan.
    destruct (bounded_canonical _ _ Hba), (bounded_canonical _ _ Hbb). lia.
Qed.

(** A finite value less a number, infinite or not, is a number. *)
Lemma sub_finite_not_nan (a b : float) :
  is_finite a = true -> is_nan b = false -> is_nan (a - b) = false.
Proof.
  intros Ha Hb. apply is_nan_Prim2SF. rewrite sub_spec.
  pose proof (Prim2SF_valid b) as Hvb.
  pose proof (Prim2SF_not_nan b Hb) as Hnb.
  destruct (Prim2SF_finite a Ha) as [[sa ->] | (sa & ma & ea & -> & Hba)];
    destruct (Prim2SF b) as [sb|sb| |sb mb eb]; try contradiction;
    try discriminate.
  - destruct sa, sb; discriminate.
  - unfold SF64sub, SFsub. apply binary_normalize_not_nan.
    destruct (bounded_canonical _ _ Hba), (bounded_canonical _ _ Hvb). lia.
Qed.

Set Implicit Arguments.

(** ** Lists, loops and the stable sort *)

Lemma fold_append_collect {A B} (f : A -> option B) (l : list A) (acc : list B) :
  fold_left (fun acc s => match f s with
                          | Some y => acc ++ [y]
                          | None => acc
                          end) l acc
  = acc ++ collect f l.
Proof.
  revert acc. induction l as [|x t IH]; intros acc; simpl.
  - now rewrite app_nil_r.
  - destruct (f x) as [y|]; rewrite IH; [|reflexivity].
    now rewrite <- app_assoc.
Qed.

Lemma collect_In {A B} (f : A -> option B) (l : list A) (y : B) :
  In y (collect f l) <-> exists x, In x l /\ f x = Some y.
Proof.
  induction l as [|x t IH]; simpl.
  - split; [tauto | intros (x & [] & _)].
  - destruct (f x) as [z|] eqn:E; simpl; rewrite IH; split.
    + intros [->|(x' & Hin & Hf)]; [exists x; auto | exists x'; auto].
    + intros (x' & [->|Hin] & Hf); [left; congruence | right; exists x'; auto].
    + intros (x' & Hin & Hf); exists x'; auto.
    + intros (x' & [->|Hin] & Hf); [congruence | exists x'; auto].
Qed.

Lemma string_compare_refl (s : string) : String.compare s s = Eq.
Proof.
  induction s as [|c s IH]; simpl; [reflexivity|].
  unfold Ascii.compare. now rewrite N.compare_refl.
Qed.

Lemma string_leb_refl (s : string) : String.leb s s = true.
Proof. unfold String.leb. now rewrite string_compare_refl. Qed.

Lemma string_compare_trans (a b c : string) :
  String.compare a b <> Gt -> String.compare b c <> Gt ->
  String.compare a c <> Gt.
Proof.
  revert b c. induction a as [|x a IH]; intros [|y b] [|z c]; simpl;
    try congruence.
  unfold Ascii.compare.
  destruct (N.compare_spec (N_of_ascii x) (N_of_ascii y)) as [Exy|Lxy|Gxy];
    destruct (N.compare_spec (N_of_ascii y) (N_of_ascii z)) as [Eyz|Lyz|Gyz];
    try congruence; intros Hab Hbc.
  - rewrite Exy, Eyz, N.compare_refl. eauto.
  - rewrite Exy. now rewrite (proj2 (N.compare_lt_iff _ _) Lyz).
  - rewrite <- Eyz. now rewrite (proj2 (N.compare_lt_iff _ _) Lxy).
  - rewrite (proj2 (N.compare_lt_iff _ _) (N.lt_trans _ _ _ Lxy Lyz)).
    discriminate.
Qed.

Lemma string_leb_trans (a b c : string) :
  String.leb a b = true -> String.leb b c = true -> String.leb a c = true.
Proof.
  unfold String.leb. intros Hab Hbc.
  assert (H : String.compare a c <> Gt).
  { apply (string_compare_trans a b c);
      [destruct (String.compare a b) | destruct (String.compare b c)];
      congruence. }
  destruct (String.compare a c); congruence.
Qed.

Section SortFacts.
Variable A : Type.
Variable key : A -> string.

Let le (a b : A) : Prop := String.leb (key a) (key b) = true.

Lemma insert_by_key_perm (x : A) (l : list A) :
  Permutation (x :: l) (insert_by_key key x l).
Proof.
  induction l as [|y t IH]; simpl; [reflexivity|].
  destruct (String.leb (key x) (key y)); [reflexivity|].
  rewrite perm_swap. now constructor.
Qed.

Lemma sort_by_key_perm (l : list A) : Permutation l (sort_by_key key l).
Proof.
  induction l as [|x t IH]; simpl; [constructor|].
  rewrite <- insert_by_key_perm. now constructor.
Qed.

Lemma insert_by_key_sorted (x : A) (l : list A) :
  StronglySorted le l -> StronglySorted le (insert_by_key key x l).
Proof.
  induction 1 as [|y t Hs IH Hall]; simpl.
  - repeat constructor.
  - destruct (String.leb (key x) (key y)) eqn:E.
    + constructor; [now constructor|].
      constructor; [exact E|].
      eapply Forall_impl; [|exact Hall].
      intros z Hz. exact (string_leb_trans _ _ _ E Hz).
    + constructor; [exact IH|].
      assert (Hyx : le y x).
      { destruct (String.leb_total (key x) (key y)); [congruence | assumption]. }
      eapply Permutation_Forall; [apply insert_by_key_perm|].
      now constructor.
Qed.

Lemma sort_by_key_sorted (l : list A) : StronglySorted le (sort_by_key key l).
Proof.
  induction l as [|x t IH]; simpl; [constructor|].
  now apply insert_by_key_sorted.
Qed.

(** Stability: among equal keys the order of the input is kept. *)
Lemma insert_by_key_filter (c : string) (x : A) (l : list A) :
  filter (fun a => String.eqb (key a) c) (insert_by_key key x l)
  = filter (fun a => String.eqb (key a) c) (x :: l).
Proof.
  induction l as [|y t IH]; [reflexivity|].
  simpl insert_by_key.
  destruct (String.leb (key x) (key y)) eqn:E; [reflexivity|].
  change (filter _ (y :: insert_by_key key x t))
    with (if String.eqb (key y) c
          then y :: filter (fun a => String.eqb (key a) c) (insert_by_key key x t)
          else filter (fun a => String.eqb (key a) c) (insert_by_key key x t)).
  rewrite IH. simpl.
  destruct (String.eqb_spec (key x) c) as [Hx|Hx];
    destruct (String.eqb_spec (key y) c) as [Hy|Hy]; try reflexivity.
  rewrite Hx, Hy, string_leb_refl in E. discriminate.
Qed.

Lemma sort_by_key_filter (c : string) (l : list A) :
  filter (fun a => String.eqb (key a) c) (sort_by_key key l)
  = filter (fun a => String.eqb (key a) c) l.
Proof.
  induction l as [|x t IH]; [reflexivity|].
  simpl sort_by_key. rewrite insert_by_key_filter. simpl. now rewrite IH.
Qed.
End SortFacts.

(** ** The Charge Calculator *)

Lemma calculate_line_items_eq shipment rate_card surcharges :
  calculate_line_items shipment rate_card surcharges
  = ocean_freight_line shipment rate_card
    :: sort_by_key charge_code (surcharge_lines shipment rate_card surcharges).
Proof.
  unfold calculate_line_items, surcharge_lines.
  now rewrite fold_append_collect.
Qed.

Lemma ocean_freight_line_code shipment rate_card :
  charge_code (ocean_freight_line shipment rate_card) = "OFR".
Proof. unfold ocean_freight_line. now destruct (is_lcl shipment). Qed.

(** A surcharge line is in the result exactly when the loop appended it. *)
Lemma surcharge_line_In shipment rate_card surcharges line :
  In line (sort_by_key charge_code (surcharge_lines shipment rate_card surcharges))
  <-> exists s, In s surcharges /\ surcharge_line shipment rate_card s = Some line.
Proof.
  unfold surcharge_lines. rewrite <- collect_In. split; intros H.
  - eapply Permutation_in; [symmetry; apply sort_by_key_perm | exact H].
  - eapply Permutation_in; [apply sort_by_key_perm | exact H].
Qed.

(** Every appended line carries the charge code of its surcharge. *)
Lemma surcharge_line_code shipment rate_card s line :
  surcharge_line shipment rate_card s = Some line ->
  charge_code line = Surcharge.charge_code s.
Proof.
  unfold surcharge_line.
  repeat match goal with
         | |- context [if ?b then _ else _] => destruct b
         end; intros H; inversion H; reflexivity.
Qed.

(** C1, as the code has it.  A percentage surcharge of amount [p] in
    the list yields a line with quantity 1 whose unit price and line
    total are both [round((p / 100) * ocean_freight_total, 2)], where
    [ocean_freight_total] is the product of the ocean-freight line's
    unit price and quantity before rounding; the ocean-freight line,
    first in the result, shows that product rounded. *)
Theorem percentage_line_uses_unrounded_total :
  forall shipment rate_card surcharges s,
    In s surcharges ->
    Surcharge.calculation_type s = "percentage" ->
    let ofr := ocean_freight_line shipment rate_card in
    let pct :=
      Py.round2 ((Surcharge.amount s / 100) * (unit_price ofr * quantity ofr))%float in
    hd_error (calculate_line_items shipment rate_card surcharges) = Some ofr
    /\ line_total ofr = Py.round2 (unit_price ofr * quantity ofr)%float
    /\ In (mkLine (Surcharge.charge_code s) (Surcharge.charge_name s) 1%float pct pct)
          (calculate_line_items shipment rate_card surcharges).
Proof.
  intros shipment rate_card surcharges s Hin Hcalc ofr pct.
  assert (Hbase : ocean_freight_total shipment rate_card
                  = (unit_price ofr * quantity ofr)%float).
  { unfold ofr, ocean_freight_line, ocean_freight_total.
    now destruct (is_lcl shipment). }
  rewrite calculate_line_items_eq. split; [reflexivity|]. split.
  - rewrite <- Hbase. unfold ofr, ocean_freight_line.
    now destruct (is_lcl shipment).
  - right. apply surcharge_line_In. exists s. split; [exact Hin|].
    unfold surcharge_line. rewrite Hcalc. simpl. now rewrite Hbase.
Qed.

Lemma percentage_line_uses_unrounded_total_witness :
  In (mkLine "PSS" "PSS" 1%float 640.25%float 640.25%float)
     (calculate_line_items (ex_lcl_shipment 1) (ex_rate 10.00390625 "LCL")
        [ex_surcharge "PSS" "percentage" 6400 "all"]).
Proof.
  exact (proj2 (proj2
    (@percentage_line_uses_unrounded_total (ex_lcl_shipment 1)
       (ex_rate 10.00390625 "LCL") [ex_surcharge "PSS" "percentage" 6400 "all"]
       (ex_surcharge "PSS" "percentage" 6400 "all")
       (or_introl eq_refl) eq_refl))).
Defined.

(** C1 as stated fails: with a rate of 10.00390625 per cbm, one cbm and
    a surcharge of 6400 percent, the ocean-freight line totals 10.00
    and 6400% of that is 640.00, but the percentage line is 640.25,
    computed from the product before rounding. *)
Lemma percentage_of_rounded_total_cex :
  exists ofr pct,
    calculate_line_items (ex_lcl_shipment 1) (ex_rate 10.00390625 "LCL")
      [ex_surcharge "PSS" "percentage" 6400 "all"] = [ofr; pct]
    /\ line_total ofr = 10%float
    /\ Py.round2 ((6400 / 100) * line_total ofr)%float = 640%float
    /\ line_total pct = 640.25%float
    /\ unit_price pct = 640.25%float
    /\ line_total pct <> Py.round2 ((6400 / 100) * line_total ofr)%float.
Proof.
  eexists. eexists. split; [vm_compute; reflexivity|].
  repeat (split; [vm_compute; reflexivity|]).
  intros E. apply (f_equal (fun x => (x <=? 640)%float)) in E.
  vm_compute in E. discriminate.
Qed.

(** The Surcharge Selector keeps a surcharge that applies to LCL only
    out of the list of an FCL container type. *)
Lemma fold_append_filter {A} (p : A -> bool) (l acc : list A) :
  fold_left (fun acc s => if p s then acc ++ [s] else acc) l acc
  = acc ++ filter p l.
Proof.
  revert acc. induction l as [|x t IH]; intros acc; simpl.
  - now rewrite app_nil_r.
  - destruct (p x); rewrite IH; [|reflexivity].
    now rewrite <- app_assoc.
Qed.

Lemma fcl_selection_excludes_lcl_only db origin dest container_type s :
  str_in container_type FCL_TYPES = true ->
  In s (get_applicable_surcharges db origin dest container_type) ->
  Surcharge.applies_to s <> "LCL".
Proof.
  intros Hfcl. unfold get_applicable_surcharges.
  rewrite Hfcl, fold_append_filter. simpl.
  intros Hin. apply filter_In in Hin. destruct Hin as [_ Happlies].
  unfold surcharge_applies in Happlies.
  intros Hlcl. rewrite Hlcl in Happlies. discriminate.
Qed.

(** C2, as the code has it.  With the LCL_MIN surcharge of the list a
    fixed one: for an LCL shipment whose ocean-freight total is at least
    120.0 no line carries the code LCL_MIN; for an LCL shipment whose
    total is below 120.0 the LCL_MIN surcharge yields its fixed line
    (quantity 1, unit price the amount, total the amount rounded); and
    for a shipment that is not LCL the calculator applies no LCL_MIN
    rule: the surcharge yields its fixed line like any other.  Whether
    an LCL_MIN surcharge reaches the calculator for an FCL container
    type is the selector's doing: it passes on only surcharges that
    apply to FCL or to all, and every active one without port filter
    that applies to all. *)
Theorem lcl_min_rule :
  forall shipment rate_card applicable,
    (forall s, In s applicable -> Surcharge.charge_code s = "LCL_MIN" ->
               Surcharge.calculation_type s = "fixed") ->
    (is_lcl shipment = true ->
     (120 <=? ocean_freight_total shipment rate_card)%float = true ->
     forall line, In line (calculate_line_items shipment rate_card applicable) ->
                  charge_code line <> "LCL_MIN")
    /\ (forall s, In s applicable -> Surcharge.charge_code s = "LCL_MIN" ->
        is_lcl shipment = true ->
        (ocean_freight_total shipment rate_card <? 120)%float = true ->
        In (mkLine "LCL_MIN" (Surcharge.charge_name s) 1%float (Surcharge.amount s)
                   (Py.round2 (Surcharge.amount s)))
           (calculate_line_items shipment rate_card applicable))
    /\ (forall s, In s applicable -> Surcharge.charge_code s = "LCL_MIN" ->
        is_lcl shipment = false ->
        In (mkLine "LCL_MIN" (Surcharge.charge_name s) 1%float (Surcharge.amount s)
                   (Py.round2 (Surcharge.amount s)))
           (calculate_line_items shipment rate_card applicable))
    /\ (forall db origin dest s,
        str_in (Shipment.container_type shipment) FCL_TYPES = true ->
        (In s (get_applicable_surcharges db origin dest
                 (Shipment.container_type shipment)) ->
         Surcharge.applies_to s = "FCL" \/ Surcharge.applies_to s = "all")
        /\ (In s (surcharges db) -> Surcharge.is_active s = true ->
            Surcharge.applies_to s = "all" ->
            Surcharge.origin_port_id s = None ->
            Surcharge.destination_port_id s = None ->
            In s (get_applicable_surcharges db origin dest
                    (Shipment.container_type shipment)))).
Proof.
  intros shipment rate_card applicable Hfixed.
  rewrite calculate_line_items_eq. split; [|split; [|split]].
  - intros Hlcl Hge line [<-|Hin].
    + now rewrite ocean_freight_line_code.
    + apply surcharge_line_In in Hin. destruct Hin as (s & Hs & Hline).
      intros Hcode. pose proof (surcharge_line_code _ _ _ Hline) as Hc.
      rewrite Hcode in Hc. symmetry in Hc.
      pose proof (Hfixed s Hs Hc) as Hcalc.
      unfold surcharge_line in Hline. rewrite Hcalc, Hc, Hlcl in Hline.
      simpl in Hline. unfold LCL_MIN_THRESHOLD in Hline.
      rewrite Hge in Hline. discriminate.
  - intros s Hs Hc Hlcl Hlt. right. apply surcharge_line_In.
    exists s. split; [exact Hs|].
    unfold surcharge_line. rewrite (Hfixed s Hs Hc), Hc, Hlcl. simpl.
    unfold LCL_MIN_THRESHOLD. now rewrite (ltb_not_leb Hlt).
  - intros s Hs Hc Hlcl. right. apply surcharge_line_In.
    exists s. split; [exact Hs|].
    unfold surcharge_line. rewrite (Hfixed s Hs Hc), Hc, Hlcl. reflexivity.
  - intros db origin dest s Hfcl. unfold get_applicable_surcharges.
    rewrite Hfcl, fold_append_filter. cbn [app]. split.
    + intros Hin. apply filter_In in Hin. destruct Hin as [_ Happlies].
      unfold surcharge_applies in Happlies.
      destruct (str_in (Surcharge.applies_to s) ["FCL"; "all"]) eqn:E;
        [|discriminate].
      unfold str_in in E. cbn [existsb] in E.
      apply orb_true_iff in E. destruct E as [E|E].
      * left. now apply String.eqb_eq.
      * apply orb_true_iff in E. destruct E as [E|E]; [|discriminate].
        right. now apply String.eqb_eq.
    + intros Hin Hactive Hall Ho Hd. apply filter_In.
      split; [apply filter_In; now split|].
      unfold surcharge_applies. now rewrite Hall, Ho, Hd.
Qed.

Lemma lcl_min_rule_witness :
  (forall line,
     In line (calculate_line_items (ex_lcl_shipment 3) (ex_rate 40 "LCL")
                [ex_surcharge "LCL_MIN" "fixed" 120 "LCL"]) ->
     charge_code line <> "LCL_MIN")
  /\ In (mkLine "LCL_MIN" "LCL_MIN" 1%float 120%float 120%float)
        (calculate_line_items (ex_lcl_shipment 2) (ex_rate 40 "LCL")
           [ex_surcharge "LCL_MIN" "fixed" 120 "LCL"]).
Proof.
  assert (Hfixed : forall s,
             In s [ex_surcharge "LCL_MIN" "fixed" 120 "LCL"] ->
             Surcharge.charge_code s = "LCL_MIN" ->
             Surcharge.calculation_type s = "fixed").
  { intros s [<-|[]] _. reflexivity. }
  split.
  - exact (proj1 (@lcl_min_rule (ex_lcl_shipment 3) (ex_rate 40 "LCL")
                    [ex_surcharge "LCL_MIN" "fixed" 120 "LCL"] Hfixed)
                 eq_refl eq_refl).
  - exact (proj1 (proj2 (@lcl_min_rule (ex_lcl_shipment 2) (ex_rate 40 "LCL")
                           [ex_surcharge "LCL_MIN" "fixed" 120 "LCL"] Hfixed))
                 (ex_surcharge "LCL_MIN" "fixed" 120 "LCL")
                 (or_introl eq_refl) eq_refl eq_refl eq_refl).
Defined.

(** C2 as stated fails in its last part.  A fixed LCL_MIN surcharge
    that applies to all is selected for a shipment of two 40HC
    containers, so it is in the applicable list the calculator
    receives, and the lines calculated, and stored with the invoice,
    are OFR and LCL_MIN. *)
Lemma lcl_min_on_fcl_cex :
  let lcl_min := ex_surcharge "LCL_MIN" "fixed" 120 "all" in
  let db := ex_booked_with [lcl_min] in
  let shipment := Shipment.mk 1 "BK-0001" (Some 1) (Some 1) (Some 1) (Some 2)
                    "40HC" (Some 2) None "shipper" in
  shipments db = [shipment]
  /\ str_in (Shipment.container_type shipment) FCL_TYPES = true
  /\ is_lcl shipment = false
  /\ get_applicable_surcharges db (Shipment.origin_port_id shipment)
       (Shipment.destination_port_id shipment)
       (Shipment.container_type shipment) = [lcl_min]
  /\ calculate_line_items shipment (ex_rate 1800 "40HC") [lcl_min]
     = [mkLine "OFR" "Ocean Freight" 2%float 1800%float 3600%float;
        mkLine "LCL_MIN" "LCL_MIN" 1%float 120%float 120%float]
  /\ exists db' invoice,
       generate_invoice 1 739100 db = (db', inr invoice)
       /\ map InvoiceLine.charge_code (invoice_lines db') = ["OFR"; "LCL_MIN"].
Proof.
  cbv zeta. split; [reflexivity|]. split; [reflexivity|].
  split; [reflexivity|]. split; [vm_compute; reflexivity|].
  split; [vm_compute; reflexivity|].
  do 2 eexists. split; vm_compute; reflexivity.
Qed.

(** C8, as the code has it.  The ocean-freight line, with code OFR, is
    first; the remaining lines are the surcharge lines in ascending
    order of charge code, not strictly: lines with the same code follow
    one another, in the order of the surcharge list (the sort is
    stable).  The result is a function of the three inputs. *)
Theorem line_items_order :
  forall shipment rate_card surcharges,
    exists rest,
      calculate_line_items shipment rate_card surcharges
      = ocean_freight_line shipment rate_card :: rest
      /\ charge_code (ocean_freight_line shipment rate_card) = "OFR"
      /\ StronglySorted code_le rest
      /\ Permutation (surcharge_lines shipment rate_card surcharges) rest
      /\ (forall c, with_code c rest
                    = with_code c (surcharge_lines shipment rate_card surcharges)).
Proof.
  intros shipment rate_card surcharges.
  exists (sort_by_key charge_code (surcharge_lines shipment rate_card surcharges)).
  split; [apply calculate_line_items_eq|].
  split; [apply ocean_freight_line_code|].
  split; [apply sort_by_key_sorted|].
  split; [apply sort_by_key_perm|].
  intros c. apply sort_by_key_filter.
Qed.

(** C8 as stated fails: two fixed surcharges with the same charge code
    give two lines with that code, so the remaining codes are not
    strictly ascending. *)
Lemma line_items_strict_order_cex :
  ~ StronglySorted code_lt
      (tl (calculate_line_items (ex_fcl_shipment 2) (ex_rate 1800 "40HC")
             [ex_surcharge "DOC_FEE" "fixed" 75 "all";
              ex_surcharge "DOC_FEE" "fixed" 50 "all"])).
Proof.
  assert (Hdup : exists a b l,
             tl (calculate_line_items (ex_fcl_shipment 2) (ex_rate 1800 "40HC")
                   [ex_surcharge "DOC_FEE" "fixed" 75 "all";
                    ex_surcharge "DOC_FEE" "fixed" 50 "all"]) = a :: b :: l
             /\ String.ltb (charge_code a) (charge_code b) = false).
  { do 3 eexists. split; vm_compute; reflexivity. }
  destruct Hdup as (a & b & l & -> & Hnlt). intros H.
  inversion H as [|a' l' _ Hall]; subst.
  inversion Hall as [|b' l'' Hlt _]; subst.
  unfold code_lt in Hlt. congruence.
Qed.

(** ** Rows reached through ORM objects *)

Lemma update_at_app {A} (f : A -> A) (pre : list A) (x : A) (post : list A) :
  update_at (List.length pre) f (pre ++ x :: post) = pre ++ f x :: post.
Proof. induction pre as [|y pre IH]; simpl; [reflexivity | now rewrite IH]. Qed.

Lemma position_split {A} (p : A -> bool) (rows : list A) (k : nat) :
  position p rows = Some k ->
  exists pre x post,
    rows = pre ++ x :: post /\ List.length pre = k /\ p x = true
    /\ filter p pre = [].
Proof.
  revert k. induction rows as [|y t IH]; intros k; simpl; [discriminate|].
  destruct (p y) eqn:E.
  - intros [= <-]. now exists [], y, t.
  - destruct (position p t) as [k'|]; [|discriminate].
    intros [= <-]. destruct (IH k' eq_refl) as (pre & x & post & -> & <- & Hx & Hpre).
    exists (y :: pre), x, post. simpl. now rewrite E.
Qed.

Lemma position_None {A} (p : A -> bool) (rows : list A) :
  position p rows = None -> filter p rows = [].
Proof.
  induction rows as [|y t IH]; simpl; [reflexivity|].
  destruct (p y); [discriminate|].
  destruct (position p t); [discriminate | auto].
Qed.

Lemma first_filter_position {A} (p : A -> bool) (rows : list A) (x : A) :
  Sql.first (filter p rows) = Some x ->
  exists pre post,
    rows = pre ++ x :: post /\ position p rows = Some (List.length pre)
    /\ filter p pre = [].
Proof.
  intros H. destruct (position p rows) as [k|] eqn:E.
  - destruct (position_split _ _ E) as (pre & y & post & -> & <- & Hy & Hpre).
    rewrite filter_app, Hpre in H. simpl in H. rewrite Hy in H.
    injection H as ->. now exists pre, post.
  - apply position_None in E. rewrite E in H. discriminate.
Qed.

Lemma first_filter_In {A} (p : A -> bool) (l : list A) (x : A) :
  Sql.first (filter p l) = Some x -> In x l /\ p x = true.
Proof.
  intros H. apply filter_In. destruct (filter p l); [discriminate|].
  injection H as ->. now left.
Qed.

Lemma first_filter_none_all {A} (p : A -> bool) (l : list A) :
  Sql.first (filter p l) = None -> forall x, In x l -> p x = false.
Proof.
  intros H x Hx. destruct (p x) eqn:E; [|reflexivity].
  assert (Hin : In x (filter p l)) by now apply filter_In.
  destruct (filter p l); [contradiction | discriminate].
Qed.

Lemma position_all_false {A} (p : A -> bool) (rows : list A) :
  (forall x, In x rows -> p x = false) -> position p rows = None.
Proof.
  induction rows as [|y t IH]; intros H; simpl; [reflexivity|].
  rewrite (H y (or_introl eq_refl)), IH; [reflexivity|].
  intros x Hx. apply H. now right.
Qed.

Lemma filter_nil_all {A} (p : A -> bool) (rows : list A) :
  filter p rows = [] -> forall x, In x rows -> p x = false.
Proof.
  intros H x Hx. destruct (p x) eqn:E; [|reflexivity].
  assert (Hin : In x (filter p rows)) by now apply filter_In.
  now rewrite H in Hin.
Qed.

Lemma load_from_split {A} (p : A -> bool) (rows : list A) :
  forall from k x,
    load_from p rows from = Some (k, x) ->
    exists pre post,
      rows = pre ++ x :: post /\ k = (from + List.length pre)%nat
      /\ p x = true /\ filter p pre = [].
Proof.
  induction rows as [|y t IH]; intros from k x; simpl; [discriminate|].
  destruct (p y) eqn:E.
  - intros [= <- <-]. exists [], t. simpl. now rewrite Nat.add_0_r.
  - intros H. destruct (IH _ _ _ H) as (pre & post & -> & -> & Hx & Hpre).
    exists (y :: pre), post. simpl. rewrite E.
    repeat split; [lia | assumption | assumption].
Qed.

Lemma load_split {A} (p : A -> bool) (rows : list A) (k : nat) (x : A) :
  load p rows = Some (k, x) ->
  exists pre post,
    rows = pre ++ x :: post /\ k = List.length pre
    /\ p x = true /\ filter p pre = [].
Proof. intros H. exact (load_from_split _ _ _ H). Qed.

Lemma load_from_app {A} (p : A -> bool) (pre : list A) (x : A) (post : list A) :
  forall from,
    filter p pre = [] -> p x = true ->
    load_from p (pre ++ x :: post) from = Some ((from + List.length pre)%nat, x).
Proof.
  induction pre as [|y t IH]; intros from Hpre Hx; simpl.
  - now rewrite Hx, Nat.add_0_r.
  - simpl in Hpre. destruct (p y); [discriminate|].
    rewrite IH by assumption. do 2 f_equal. lia.
Qed.

Lemma load_app {A} (p : A -> bool) (pre : list A) (x : A) (post : list A) :
  filter p pre = [] -> p x = true ->
  load p (pre ++ x :: post) = Some (List.length pre, x).
Proof. intros Hpre Hx. exact (load_from_app p pre x post 0 Hpre Hx). Qed.

Lemma load_from_all_false {A} (p : A -> bool) (rows : list A) :
  forall from, (forall x, In x rows -> p x = false) -> load_from p rows from = None.
Proof.
  induction rows as [|y t IH]; intros from H; simpl; [reflexivity|].
  rewrite (H y (or_introl eq_refl)). apply IH. intros x Hx. apply H. now right.
Qed.

Lemma all_false_filter {A} (p : A -> bool) (rows : list A) :
  (forall x, In x rows -> p x = false) -> filter p rows = [].
Proof.
  intros H. induction rows as [|y t IH]; simpl; [reflexivity|].
  rewrite (H y (or_introl eq_refl)). apply IH. intros x Hx. apply H. now right.
Qed.


Lemma first_filter_load {A} (p : A -> bool) (rows : list A) (x : A) :
  Sql.first (filter p rows) = Some x ->
  exists pre post,
    rows = pre ++ x :: post /\ load p rows = Some (List.length pre, x)
    /\ filter p pre = [].
Proof.
  intros H. destruct (first_filter_position _ _ H) as (pre & post & Hrows & _ & Hpre).
  exists pre, post. split; [exact Hrows|]. split; [|exact Hpre].
  rewrite Hrows. apply load_app; [exact Hpre|].
  exact (proj2 (first_filter_In _ _ H)).
Qed.

(** ** Sweep Overdue *)

Lemma with_invoices_const (rows : list Invoice.t)
    (f : list Invoice.t -> list Invoice.t) (db : DB) :
  with_invoices (fun _ => rows) (with_invoices f db)
  = with_invoices (fun _ => rows) db.
Proof. now destruct db. Qed.

Lemma mark_overdue_run (today : date) (rows pre : list Invoice.t) (count : Z)
    (db : DB) :
  invoices db = pre ++ rows ->
  mark_overdue (positions (is_overdue today) rows (List.length pre)) count db
  = (with_invoices (fun _ => pre ++ map (swept today) rows) db,
     inr (count + Z.of_nat (List.length (filter (is_overdue today) rows)))).
Proof.
  revert pre count db. induction rows as [|x t IH]; intros pre count db Hdb.
  - simpl. rewrite Z.add_0_r. unfold ret. f_equal.
    rewrite <- Hdb. symmetry. now destruct db.
  - assert (Hlen : forall y : Invoice.t,
               S (List.length pre) = List.length (pre ++ [y]))
      by (intros y; rewrite length_app; simpl; lia).
    simpl positions. simpl map. simpl filter. unfold swept at 1.
    destruct (is_overdue today x) eqn:E.
    + simpl mark_overdue. unfold bind, modify.
      rewrite (Hlen (Invoice.set_status "overdue" x)).
      rewrite (IH (pre ++ [Invoice.set_status "overdue" x])).
      * rewrite <- app_assoc, with_invoices_const. simpl app.
        do 2 f_equal. simpl List.length. lia.
      * destruct db; simpl in *. subst. rewrite update_at_app.
        now rewrite <- app_assoc.
    + rewrite (Hlen x). rewrite (IH (pre ++ [x])).
      * now rewrite <- app_assoc.
      * now rewrite <- app_assoc.
Qed.

Lemma is_overdue_iff (today : date) (i : Invoice.t) :
  is_overdue today i = true
  <-> Invoice.status i = "sent" /\ Invoice.due_date i < today.
Proof.
  unfold is_overdue. rewrite andb_true_iff, String.eqb_eq, Z.ltb_lt. tauto.
Qed.

(** C7.  [check_overdue] sets to overdue exactly the invoices whose
    status is sent and whose due date is before today, and changes
    nothing else of them; it returns their number, and leaves every
    other invoice, in particular one in draft, partial, paid or void,
    and every other table as it was. *)
Theorem check_overdue_sweeps_sent_past_due :
  forall (today : date) (db : DB),
  exists db',
    check_overdue today db
    = (db', inr (Z.of_nat (List.length (filter (is_overdue today) (invoices db)))))
    /\ (forall i, is_overdue today i = true
                  <-> Invoice.status i = "sent" /\ Invoice.due_date i < today)
    /\ List.length (invoices db') = List.length (invoices db)
    /\ (forall k i, nth_error (invoices db) k = Some i ->
          (Invoice.status i = "sent" /\ Invoice.due_date i < today ->
           nth_error (invoices db') k
           = Some (Invoice.mk (Invoice.id i) (Invoice.invoice_number i)
                     (Invoice.shipment_id i) (Invoice.client_id i)
                     (Invoice.issue_date i) (Invoice.due_date i)
                     (Invoice.subtotal i) (Invoice.tax_amount i)
                     (Invoice.total_amount i) (Invoice.amount_paid i)
                     (Invoice.balance_due i) "overdue"))
          /\ (~ (Invoice.status i = "sent" /\ Invoice.due_date i < today) ->
              nth_error (invoices db') k = Some i)
          /\ (In (Invoice.status i) ["draft"; "partial"; "paid"; "void"] ->
              nth_error (invoices db') k = Some i))
    /\ ports db' = ports db /\ rate_cards db' = rate_cards db
    /\ surcharges db' = surcharges db /\ clients db' = clients db
    /\ shipments db' = shipments db /\ invoice_lines db' = invoice_lines db
    /\ payments db' = payments db.
Proof.
  intros today db.
  exists (with_invoices (fun _ => map (swept today) (invoices db)) db).
  split.
  { unfold check_overdue, bind, query.
    exact (mark_overdue_run today (invoices db) [] 0 db eq_refl). }
  split; [apply is_overdue_iff|].
  split; [destruct db; simpl; apply length_map|].
  split; [|now destruct db].
  intros k i Hk.
  assert (Hk' : nth_error (invoices (with_invoices
                  (fun _ => map (swept today) (invoices db)) db)) k
                = Some (swept today i)).
  { destruct db; simpl in *. now rewrite nth_error_map, Hk. }
  rewrite Hk'. unfold swept. repeat split.
  - intros H. apply is_overdue_iff in H. now rewrite H.
  - intros H. destruct (is_overdue today i) eqn:E; [|reflexivity].
    apply is_overdue_iff in E. contradiction.
  - intros H. destruct (is_overdue today i) eqn:E; [|reflexivity].
    apply is_overdue_iff in E. destruct E as [E _]. rewrite E in H.
    simpl in H. repeat destruct H as [H|H]; try discriminate. contradiction.
Qed.

(** A sent invoice due on day 739030 is swept on day 739100, and a
    draft with the same dates is not. *)
Lemma check_overdue_sweeps_sent_past_due_witness :
  exists db',
    check_overdue 739100
      (ex_store [ex_invoice "sent" 100 0 100; ex_invoice "draft" 100 0 100])
    = (db', inr 1)
    /\ map Invoice.status (invoices db') = ["overdue"; "draft"].
Proof.
  destruct (@check_overdue_sweeps_sent_past_due 739100
              (ex_store [ex_invoice "sent" 100 0 100;
                         ex_invoice "draft" 100 0 100]))
    as (db' & Hrun & _ & Hlen & Hrows & _).
  exists db'. split; [exact Hrun|].
  pose proof (proj1 (Hrows 0%nat _ eq_refl) (conj eq_refl eq_refl)) as H0.
  pose proof (proj2 (proj2 (Hrows 1%nat _ eq_refl))
                (or_introl eq_refl)) as H1.
  destruct (invoices db') as [|x [|y [|z rest]]]; try discriminate.
  cbn in H0, H1. injection H0 as ->. injection H1 as ->. reflexivity.
Defined.

(** ** Apply Payment *)

Lemma update_invoice_totals_id amount invoice :
  Invoice.id (update_invoice_totals amount invoice) = Invoice.id invoice.
Proof.
  unfold update_invoice_totals.
  repeat match goal with
         | |- context [if ?b then _ else _] => destruct b
         end; reflexivity.
Qed.

Lemma is_nan_true_Prim2SF (x : float) : is_nan x = true -> Prim2SF x = S754_nan.
Proof. intros H. unfold Prim2SF. now rewrite H. Qed.

(** A sum or a difference that is a number has operands that are. *)
Lemma add_of_nan (a b : float) :
  is_nan (a + b) = false -> is_nan a = false /\ is_nan b = false.
Proof.
  intros H. pose proof (Prim2SF_not_nan (a + b) H) as Hn.
  rewrite add_spec in Hn. split.
  - destruct (is_nan a) eqn:E; [|reflexivity]. elim Hn.
    rewrite (is_nan_true_Prim2SF a E). reflexivity.
  - destruct (is_nan b) eqn:E; [|reflexivity]. elim Hn.
    rewrite (is_nan_true_Prim2SF b E). unfold SF64add, SFadd.
    now destruct (Prim2SF a).
Qed.

Lemma sub_of_nan (a b : float) :
  is_nan (a - b) = false -> is_nan a = false /\ is_nan b = false.
Proof.
  intros H. pose proof (Prim2SF_not_nan (a - b) H) as Hn.
  rewrite sub_spec in Hn. split.
  - destruct (is_nan a) eqn:E; [|reflexivity]. elim Hn.
    rewrite (is_nan_true_Prim2SF a E). reflexivity.
  - destruct (is_nan b) eqn:E; [|reflexivity]. elim Hn.
    rewrite (is_nan_true_Prim2SF b E). unfold SF64sub, SFsub.
    now destruct (Prim2SF a).
Qed.

Lemma eqb_leb (a b : float) : (a =? b)%float = true -> (a <=? b)%float = true.
Proof.
  rewrite eqb_spec, leb_spec. unfold SFeqb, SFleb.
  destruct (SFcompare (Prim2SF a) (Prim2SF b)) as [[]|]; congruence.
Qed.

Lemma ltb_leb (a b : float) : (a <? b)%float = true -> (a <=? b)%float = true.
Proof.
  rewrite ltb_spec, leb_spec. unfold SFltb, SFleb.
  destruct (SFcompare (Prim2SF a) (Prim2SF b)) as [[]|]; congruence.
Qed.

(** What a REAL column holds of a number. *)
Lemma real_of_number (x : float) :
  is_nan x = false ->
  Sql.real x = Some (if is_zero x then 0%float else x).
Proof. intros H. unfold Sql.real. rewrite H. now destruct (is_zero x). Qed.

Lemma real_of_nan (x : float) : is_nan x = true -> Sql.real x = None.
Proof. intros H. unfold Sql.real. now rewrite H. Qed.

(** The balance [record_payment] assigns is stored as
    [max(0, total_amount - amount_paid)] when that difference is a
    number, and not at all when it is not. *)
Lemma stored_totals_after amount invoice :
  Invoice.stored_totals (update_invoice_totals amount invoice)
  = if is_nan (new_balance amount invoice) then None
    else Some (invoice_after amount invoice).
Proof.
  unfold update_invoice_totals, invoice_after, status_after.
  change (Py.float_or (Invoice.amount_paid invoice) 0 + amount)%float
    with (new_amount_paid amount invoice).
  unfold Invoice.stored_totals, Invoice.set_status, Invoice.set_balance_due,
    Invoice.set_amount_paid.
  cbn [Invoice.balance_due Invoice.amount_paid Invoice.id
       Invoice.invoice_number Invoice.shipment_id Invoice.client_id
       Invoice.issue_date Invoice.due_date Invoice.subtotal Invoice.tax_amount
       Invoice.total_amount Invoice.status].
  change (Invoice.total_amount invoice - new_amount_paid amount invoice)%float
    with (new_balance amount invoice).
  destruct (is_nan (new_balance amount invoice)) eqn:Hnan.
  - assert (Hle : (new_balance amount invoice <=? 0)%float = false).
    { rewrite leb_spec, (is_nan_true_Prim2SF _ Hnan). reflexivity. }
    rewrite Hle.
    destruct (0 <? new_amount_paid amount invoice)%float;
      cbn [Invoice.balance_due]; now rewrite (real_of_nan _ Hnan).
  - unfold Py.max. rewrite (leb_zero_ltb _ Hnan).
    destruct (0 <? new_balance amount invoice)%float eqn:Hpos; cbn [negb].
    + assert (Hzero : is_zero (new_balance amount invoice) = false).
      { destruct (is_zero (new_balance amount invoice)) eqn:E; [|reflexivity].
        pose proof (@eqb_leb (new_balance amount invoice) 0%float E) as Hle.
        rewrite (leb_zero_ltb _ Hnan), Hpos in Hle. discriminate. }
      destruct (0 <? new_amount_paid amount invoice)%float;
        cbn [Invoice.balance_due Invoice.amount_paid Invoice.id
             Invoice.invoice_number Invoice.shipment_id Invoice.client_id
             Invoice.issue_date Invoice.due_date Invoice.subtotal
             Invoice.tax_amount Invoice.total_amount Invoice.status
             Sql.nullable_real];
        rewrite (real_of_number _ Hnan), Hzero; reflexivity.
    + cbn [Invoice.balance_due Invoice.amount_paid Invoice.id
           Invoice.invoice_number Invoice.shipment_id Invoice.client_id
           Invoice.issue_date Invoice.due_date Invoice.subtotal
           Invoice.tax_amount Invoice.total_amount Invoice.status
           Sql.nullable_real].
      reflexivity.
Qed.

(** The run of [record_payment] on an existing invoice: when what is
    left of the total is not a number the commit fails and nothing is
    stored; otherwise the invoice row is replaced and the payment
    appended. *)
Lemma record_payment_run db invoice_id amount payment_date method reference notes
    invoice :
  get_invoice db invoice_id = Some invoice ->
  exists pre post,
    invoices db = pre ++ invoice :: post
    /\ filter (fun i => Invoice.id i =? invoice_id) pre = []
    /\ Invoice.id invoice = invoice_id
    /\ record_payment invoice_id amount payment_date method reference notes db
       = if is_nan (new_balance amount invoice)
         then (db, inl IntegrityError_NotNull)
         else (with_payments
                 (fun rows => rows ++ [payment_row db invoice_id payment_date
                                         amount method reference notes])
                 (with_invoices
                    (fun _ => pre ++ invoice_after amount invoice :: post) db),
               inr (payment_row db invoice_id payment_date amount method
                      reference notes)).
Proof.
  unfold get_invoice. intros Hget.
  destruct (first_filter_load _ _ Hget) as (pre & post & Hrows & Hload & Hpre).
  exists pre, post. split; [exact Hrows|]. split; [exact Hpre|].
  split; [apply Z.eqb_eq; exact (proj2 (first_filter_In _ _ Hget))|].
  unfold record_payment, bind, query. rewrite Hload.
  unfold transaction, update_invoice, bind.
  rewrite stored_totals_after.
  destruct (is_nan (new_balance amount invoice)) eqn:Hnan; [reflexivity|].
  unfold modify, add_payment.
  assert (Hamount : is_nan amount = false).
  { apply sub_of_nan in Hnan. destruct Hnan as [_ Hnan].
    now apply add_of_nan in Hnan. }
  unfold Payment.stored. cbn [Payment.amount with_invoices payments].
  rewrite (real_of_number _ Hamount).
  cbn [Payment.id Payment.invoice_id Payment.payment_date Payment.payment_method
       Payment.reference_number Payment.notes].
  unfold payment_row.
  destruct db as [po rc su cl sh inv li pa].
  cbn [invoices] in Hrows. subst inv.
  unfold with_invoices, with_payments.
  cbn [invoices ports rate_cards surcharges clients shipments invoice_lines
       payments].
  now rewrite update_at_app.
Qed.

Lemma get_invoice_replaced (db : DB) (pre post : list Invoice.t)
    (invoice : Invoice.t) (invoice_id : Z) (f : list Payment.t -> list Payment.t) :
  filter (fun i => Invoice.id i =? invoice_id) pre = [] ->
  Invoice.id invoice = invoice_id ->
  get_invoice (with_payments f
                 (with_invoices (fun _ => pre ++ invoice :: post) db))
              invoice_id
  = Some invoice.
Proof.
  intros Hpre Hid. unfold get_invoice, with_payments, with_invoices.
  cbn [invoices]. rewrite filter_app, Hpre. cbn [app filter].
  now rewrite (proj2 (Z.eqb_eq _ _) Hid).
Qed.

(** C5, as the code has it.  On an existing invoice [record_payment]
    goes through exactly when what is left of the total,
    [total_amount - amount_paid] with the payment added, is a number,
    as it is for finite amounts; otherwise the commit fails with
    IntegrityError and nothing changes.  When it goes through, the
    amount is added to [amount_paid] (that is [p + amount] on an amount
    paid [p] other than zero, and [0 + amount] on NULL or zero),
    whatever the total; [balance_due] is
    [max(0, total_amount - amount_paid)], never negative; the status
    is paid, the balance then being 0, when the difference is zero or
    less, which for finite amounts is when the amount paid has reached
    the total; and it is partial when a balance remains and the amount
    paid is positive. *)
Theorem payment_updates_balance :
  forall db invoice_id amount payment_date method reference notes invoice,
    get_invoice db invoice_id = Some invoice ->
    (is_nan (new_balance amount invoice) = true ->
     record_payment invoice_id amount payment_date method reference notes db
     = (db, inl IntegrityError_NotNull))
    /\ (is_finite (Invoice.total_amount invoice) = true ->
        is_finite (paid_so_far invoice) = true ->
        is_finite amount = true ->
        is_nan (new_balance amount invoice) = false)
    /\ (is_nan (new_balance amount invoice) = false ->
        exists db' payment invoice',
          record_payment invoice_id amount payment_date method reference notes db
          = (db', inr payment)
          /\ get_invoice db' invoice_id = Some invoice'
          /\ (forall paid, Invoice.amount_paid invoice = Some paid ->
                (paid =? 0)%float = false ->
                Invoice.amount_paid invoice' = Sql.real (paid + amount)%float)
          /\ (Invoice.amount_paid invoice = None
              \/ (exists paid, Invoice.amount_paid invoice = Some paid
                               /\ (paid =? 0)%float = true) ->
              Invoice.amount_paid invoice' = Sql.real (0 + amount)%float)
          /\ Invoice.total_amount invoice' = Invoice.total_amount invoice
          /\ Invoice.balance_due invoice'
             = Py.max 0 (Invoice.total_amount invoice
                         - new_amount_paid amount invoice)%float
          /\ (Invoice.balance_due invoice' <? 0)%float = false
          /\ ((new_balance amount invoice <=? 0)%float = true ->
              Invoice.balance_due invoice' = 0%float
              /\ Invoice.status invoice' = "paid")
          /\ (is_finite (Invoice.total_amount invoice) = true ->
              is_finite (new_amount_paid amount invoice) = true ->
              (Invoice.total_amount invoice <=? new_amount_paid amount invoice)%float
              = true ->
              Invoice.balance_due invoice' = 0%float
              /\ Invoice.status invoice' = "paid")
          /\ ((0 <? new_balance amount invoice)%float = true ->
              (0 <? new_amount_paid amount invoice)%float = true ->
              Invoice.balance_due invoice' = new_balance amount invoice
              /\ Invoice.status invoice' = "partial")).
Proof.
  intros db invoice_id amount payment_date method reference notes invoice Hget.
  destruct (record_payment_run db invoice_id amount payment_date method
              reference notes Hget) as (pre & post & Hrows & Hpre & Hid & Hrun).
  split; [intros Hnan; now rewrite Hrun, Hnan|].
  split.
  { intros Htot Hpaid Hamount. unfold new_balance.
    apply sub_finite_not_nan; [exact Htot|]. unfold new_amount_paid.
    now apply add_finite_not_nan. }
  intros Hnan. rewrite Hnan in Hrun.
  do 2 eexists. exists (invoice_after amount invoice).
  split; [exact Hrun|].
  split; [now apply get_invoice_replaced|].
  unfold invoice_after, status_after.
  cbn [Invoice.amount_paid Invoice.total_amount Invoice.balance_due
       Invoice.status].
  split.
  { intros paid Hpaid Hnz. unfold new_amount_paid, paid_so_far.
    now rewrite Hpaid, Hnz. }
  split.
  { intros [Hnone|(paid & Hpaid & Hz)]; unfold new_amount_paid, paid_so_far.
    - now rewrite Hnone.
    - now rewrite Hpaid, Hz. }
  split; [reflexivity|]. split; [reflexivity|].
  fold (new_balance amount invoice).
  assert (Hneg : (Py.max 0 (new_balance amount invoice) <? 0)%float = false).
  { unfold Py.max.
    destruct (0 <? new_balance amount invoice)%float eqn:E; [|reflexivity].
    apply leb_not_ltb. now apply ltb_leb. }
  split; [exact Hneg|].
  assert (Hpaid : (new_balance amount invoice <=? 0)%float = true ->
                  Py.max 0 (new_balance amount invoice) = 0%float
                  /\ (if (new_balance amount invoice <=? 0)%float then "paid"
                      else if (0 <? new_amount_paid amount invoice)%float
                           then "partial" else Invoice.status invoice) = "paid").
  { intros Hle. rewrite Hle. split; [|reflexivity].
    unfold Py.max. now rewrite (leb_not_ltb Hle). }
  split; [exact Hpaid|]. split.
  - intros Htot Hnew Hle. apply Hpaid. unfold new_balance.
    now rewrite (sub_leb_zero _ _ Htot Hnew).
  - intros Hpos Hsome. unfold Py.max. rewrite Hpos, (ltb_not_leb Hpos), Hsome.
    now split.
Qed.

Lemma payment_updates_balance_witness :
  exists db' payment invoice',
    record_payment 1 3375 739010 "wire_transfer" "REF-1" ""
      (ex_store [ex_invoice "partial" 4375 1000 3375]) = (db', inr payment)
    /\ get_invoice db' 1 = Some invoice'
    /\ Invoice.amount_paid invoice' = Some 4375%float
    /\ Invoice.balance_due invoice' = 0%float
    /\ Invoice.status invoice' = "paid".
Proof.
  destruct (proj2 (proj2 (@payment_updates_balance
                     (ex_store [ex_invoice "partial" 4375 1000 3375])
                     1 3375 739010 "wire_transfer" "REF-1" ""
                     (ex_invoice "partial" 4375 1000 3375) eq_refl)) eq_refl)
    as (db' & payment & invoice' & Hrun & Hget & Hpaid & _ & _ & _ & _ & _
        & Hzero & _).
  exists db', payment, invoice'.
  split; [exact Hrun|]. split; [exact Hget|].
  split; [exact (Hpaid 1000%float eq_refl eq_refl)|].
  exact (Hzero eq_refl eq_refl eq_refl).
Defined.

(** C5 as stated, for every payment amount, fails for an amount that
    is not a number: on an invoice of 100 with nothing paid the
    balance would be nan, which the store holds as NULL in a column
    that is NOT NULL; the commit raises IntegrityError, no payment is
    stored and the invoice keeps its amounts and its status. *)
Lemma payment_not_a_number_cex :
  get_invoice (ex_store [ex_invoice "sent" 100 0 100]) 1
  = Some (ex_invoice "sent" 100 0 100)
  /\ record_payment 1 nan 739010 "wire_transfer" "REF-2" ""
       (ex_store [ex_invoice "sent" 100 0 100])
     = (ex_store [ex_invoice "sent" 100 0 100], inl IntegrityError_NotNull).
Proof. split; [reflexivity | vm_compute; reflexivity]. Qed.




(** C10, as the code has it.  [record_payment] decides the status from
    the amounts and not from the status the invoice has.  Whatever that
    status, draft included, a payment that goes through (what is left
    of the total is a number, as it is for a finite total and an
    amount paid that is a number) and brings the amount paid to at
    least the total
    (finite amounts; in the code's terms, that brings
    [total_amount - amount_paid] to zero or less) sets the status to
    paid; the amount paid is [p + amount] on an amount paid [p] other
    than zero; and whenever the amounts decide (that difference is
    zero or less, or the amount paid is positive) the stored invoice is
    the same for every status it may have had.  A payment that does
    not go through fails with IntegrityError, again whatever the
    status. *)
Theorem payment_status_ignores_current_status :
  forall db invoice_id amount payment_date method reference notes invoice,
    get_invoice db invoice_id = Some invoice ->
    (is_nan (new_balance amount invoice) = true ->
     record_payment invoice_id amount payment_date method reference notes db
     = (db, inl IntegrityError_NotNull))
    /\ (is_finite (Invoice.total_amount invoice) = true ->
        is_nan (new_amount_paid amount invoice) = false ->
        is_nan (new_balance amount invoice) = false)
    /\ (is_nan (new_balance amount invoice) = false ->
        exists db' payment invoice',
          record_payment invoice_id amount payment_date method reference notes db
          = (db', inr payment)
          /\ get_invoice db' invoice_id = Some invoice'
          /\ (forall paid, Invoice.amount_paid invoice = Some paid ->
                (paid =? 0)%float = false ->
                is_finite (Invoice.total_amount invoice) = true ->
                is_finite (paid + amount)%float = true ->
                (Invoice.total_amount invoice <=? paid + amount)%float = true ->
                Invoice.status invoice' = "paid")
          /\ (Invoice.amount_paid invoice = None ->
              is_finite (Invoice.total_amount invoice) = true ->
              is_finite (0 + amount)%float = true ->
              (Invoice.total_amount invoice <=? 0 + amount)%float = true ->
              Invoice.status invoice' = "paid")
          /\ ((new_balance amount invoice <=? 0)%float = true ->
              Invoice.status invoice' = "paid")
          /\ (forall status,
                (new_balance amount invoice <=? 0)%float = true
                \/ (0 <? new_amount_paid amount invoice)%float = true ->
                invoice_after amount (Invoice.set_status status invoice)
                = invoice')
          /\ (forall status,
                Invoice.amount_paid
                  (invoice_after amount (Invoice.set_status status invoice))
                = Invoice.amount_paid invoice'
                /\ Invoice.balance_due
                     (invoice_after amount (Invoice.set_status status invoice))
                   = Invoice.balance_due invoice')).
Proof.
  intros db invoice_id amount payment_date method reference notes invoice Hget.
  destruct (record_payment_run db invoice_id amount payment_date method
              reference notes Hget) as (pre & post & Hrows & Hpre & Hid & Hrun).
  split; [intros Hnan; now rewrite Hrun, Hnan|].
  split.
  { intros Htot Hnew. unfold new_balance. now apply sub_finite_not_nan. }
  intros Hnan. rewrite Hnan in Hrun.
  do 2 eexists. exists (invoice_after amount invoice).
  split; [exact Hrun|].
  split; [now apply get_invoice_replaced|].
  assert (Hpaid : (new_balance amount invoice <=? 0)%float = true ->
                  Invoice.status (invoice_after amount invoice) = "paid").
  { intros Hle. unfold invoice_after, status_after. cbn [Invoice.status].
    now rewrite Hle. }
  split.
  { intros paid Hsome Hnz Htot Hnew Hle. apply Hpaid.
    unfold new_balance, new_amount_paid, paid_so_far. rewrite Hsome, Hnz.
    now rewrite (sub_leb_zero _ _ Htot Hnew). }
  split.
  { intros Hnone Htot Hnew Hle. apply Hpaid.
    unfold new_balance, new_amount_paid, paid_so_far. rewrite Hnone.
    now rewrite (sub_leb_zero _ _ Htot Hnew). }
  split; [exact Hpaid|]. split.
  - intros status Hdecide. unfold invoice_after, status_after, new_balance,
      new_amount_paid, paid_so_far.
    cbn [Invoice.set_status Invoice.id Invoice.invoice_number
         Invoice.shipment_id Invoice.client_id Invoice.issue_date
         Invoice.due_date Invoice.subtotal Invoice.tax_amount
         Invoice.total_amount Invoice.amount_paid Invoice.status].
    f_equal.
    unfold new_balance, new_amount_paid, paid_so_far in Hdecide.
    destruct Hdecide as [-> | Hpos]; [reflexivity|].
    rewrite Hpos. now destruct (_ <=? 0)%float.
  - intros status. split; reflexivity.
Qed.

Lemma payment_status_ignores_current_status_witness :
  exists db' payment invoice',
    record_payment 1 60 739010 "ach" "REF-4" ""
      (ex_store [ex_invoice "draft" 100 40 60]) = (db', inr payment)
    /\ get_invoice db' 1 = Some invoice'
    /\ Invoice.status invoice' = "paid".
Proof.
  destruct (proj2 (proj2 (@payment_status_ignores_current_status
                     (ex_store [ex_invoice "draft" 100 40 60])
                     1 60 739010 "ach" "REF-4" ""
                     (ex_invoice "draft" 100 40 60) eq_refl)) eq_refl)
    as (db' & payment & invoice' & Hrun & Hget & Hpaid & _).
  exists db', payment, invoice'.
  split; [exact Hrun|]. split; [exact Hget|].
  exact (Hpaid 40%float eq_refl eq_refl eq_refl eq_refl eq_refl).
Defined.

(** C10 as stated, for every invoice, fails where the amounts are not
    finite.  On a draft invoice with an infinite total a payment of
    infinity brings the amount paid to the total, but what is left of
    the total is then not a number: the commit raises IntegrityError
    and the invoice stays a draft with nothing paid. *)
Lemma payment_on_infinite_total_cex :
  (Invoice.total_amount (ex_invoice "draft" infinity 0 infinity)
   <=? new_amount_paid infinity (ex_invoice "draft" infinity 0 infinity))%float
  = true
  /\ get_invoice (ex_store [ex_invoice "draft" infinity 0 infinity]) 1
     = Some (ex_invoice "draft" infinity 0 infinity)
  /\ record_payment 1 infinity 739010 "ach" "REF-5" ""
       (ex_store [ex_invoice "draft" infinity 0 infinity])
     = (ex_store [ex_invoice "draft" infinity 0 infinity],
        inl IntegrityError_NotNull).
Proof.
  split; [reflexivity|]. split; [reflexivity | vm_compute; reflexivity].
Qed.

(** ** Invoice Numbering *)

Lemma max_text_None (l : list string) : Sql.max_text l = None -> l = [].
Proof.
  destruct l as [|x t]; [reflexivity|]. simpl.
  destruct (Sql.max_text t); discriminate.
Qed.

Lemma max_text_spec (l : list string) (m : string) :
  Sql.max_text l = Some m ->
  In m l /\ forall x, In x l -> String.leb x m = true.
Proof.
  revert m. induction l as [|y t IH]; intros m; simpl; [discriminate|].
  destruct (Sql.max_text t) as [m'|] eqn:E.
  - destruct (IH m' eq_refl) as [Hin Hmax].
    destruct (String.leb y m') eqn:Hle; intros [= <-].
    + split; [now right|]. intros x [<-|Hx]; auto.
    + assert (Hge : String.leb m' y = true).
      { destruct (String.leb_total y m'); [congruence | assumption]. }
      split; [now left|]. intros x [<-|Hx]; [apply string_leb_refl|].
      exact (string_leb_trans _ _ _ (Hmax x Hx) Hge).
  - intros [= <-]. apply max_text_None in E. subst t.
    split; [now left|]. intros x [<-|[]]. apply string_leb_refl.
Qed.

Lemma split_not_nil (sep : ascii) (s : string) : Py.split sep s <> [].
Proof.
  destruct s as [|c t]; simpl; [discriminate|].
  destruct (Ascii.eqb c sep); [discriminate|].
  destruct (Py.split sep t); discriminate.
Qed.

Lemma last_item_Some (l : list string) :
  l <> [] -> exists x, Py.last_item l = Some x.
Proof.
  induction l as [|x t IH]; [congruence|]. intros _.
  destruct t as [|y t']; [now exists x|].
  destruct IH as [z Hz]; [discriminate|]. now exists z.
Qed.

Lemma last_item_cons (x : string) (l : list string) :
  l <> [] -> Py.last_item (x :: l) = Py.last_item l.
Proof. destruct l; [congruence | reflexivity]. Qed.

(** A text that splits into one part is that part, and a text without
    the separator splits into itself. *)
Lemma split_one (sep : ascii) (s h : string) : Py.split sep s = [h] -> s = h.
Proof.
  revert h. induction s as [|c t IH]; intros h; cbn [Py.split].
  - now intros [= <-].
  - destruct (Ascii.eqb c sep).
    + intros [= _ H]. now elim (split_not_nil sep t).
    + destruct (Py.split sep t) as [|h' r] eqn:E;
        [now elim (split_not_nil sep t)|].
      intros [= <- ->]. now rewrite (IH h' eq_refl).
Qed.

Lemma split_without (sep : ascii) (s : string) :
  (forall c, In c (list_ascii_of_string s) -> c <> sep) -> Py.split sep s = [s].
Proof.
  induction s as [|c t IH]; intros H; cbn [Py.split]; [reflexivity|].
  destruct (Ascii.eqb c sep) eqn:E.
  - apply Ascii.eqb_eq in E. now elim (H c (or_introl eq_refl)).
  - rewrite IH; [reflexivity|]. intros c' Hc'. apply H. now right.
Qed.

(** The last part of a split has no separator in it, and is the text
    itself or what follows its last separator. *)
Lemma split_last (sep : ascii) (s : string) :
  exists segment,
    Py.last_item (Py.split sep s) = Some segment
    /\ (forall c, In c (list_ascii_of_string segment) -> c <> sep)
    /\ (s = segment
        \/ exists before, s = (before ++ String sep segment)%string).
Proof.
  induction s as [|c t IH].
  - exists "". split; [reflexivity|]. split; [intros c []|now left].
  - destruct IH as (seg & Hlast & Hnone & Hshape). cbn [Py.split].
    destruct (Ascii.eqb c sep) eqn:E.
    + apply Ascii.eqb_eq in E. subst c. exists seg.
      rewrite last_item_cons by apply split_not_nil.
      split; [exact Hlast|]. split; [exact Hnone|]. right.
      destruct Hshape as [->|(before & ->)].
      * now exists "".
      * now exists (String sep before).
    + destruct (Py.split sep t) as [|h r] eqn:Esplit;
        [now elim (split_not_nil sep t)|].
      destruct r as [|h' r'].
      * injection Hlast as <-. exists (String c h).
        split; [reflexivity|]. split.
        -- intros c' [<-|Hc']; [|now apply Hnone].
           intros ->. now rewrite Ascii.eqb_refl in E.
        -- left. now rewrite (split_one _ _ Esplit).
      * exists seg. split; [exact Hlast|]. split; [exact Hnone|]. right.
        destruct Hshape as [->|(before & ->)].
        -- rewrite (split_without _ Hnone) in Esplit. discriminate.
        -- now exists (String c before).
Qed.

Lemma get_next_invoice_number_of_max (db : DB) (m : string) :
  Sql.max_text (numbers_2026 db) = Some m ->
  get_next_invoice_number db
  = ("INV-2026-" ++ Py.format_04d (sequence_of m + 1))%string.
Proof.
  unfold get_next_invoice_number, numbers_2026, sequence_of.
  now intros ->.
Qed.

(** Every sequence of four digits below 9999 is read back and followed
    by the next one, again of four digits. *)
Lemma four_digit_sequences (n : Z) :
  0 <= n < 9999 ->
  sequence_of ("INV-2026-" ++ Py.format_04d n) = n
  /\ String.length (Py.format_04d (n + 1)) = 4%nat.
Proof.
  intros Hn.
  assert (Hall : forallb
            (fun k => let n := Z.of_nat k in
               (sequence_of ("INV-2026-" ++ Py.format_04d n) =? n)
               && Nat.eqb (String.length (Py.format_04d (n + 1))) 4)
            (seq 0 (Z.to_nat 9999)) = true) by (vm_compute; reflexivity).
  rewrite forallb_forall in Hall.
  specialize (Hall (Z.to_nat n)).
  rewrite in_seq in Hall. cbv zeta in Hall.
  rewrite Z2Nat.id in Hall by lia.
  destruct (andb_prop _ _ (Hall ltac:(lia))) as [H1 H2].
  split; [now apply Z.eqb_eq | now apply Nat.eqb_eq].
Qed.

(** LIKE compares a letter of the pattern with both of its cases, and
    any other character with itself. *)
Lemma like_I (c : ascii) :
  Ascii.eqb (Sql.fold_case "I") (Sql.fold_case c) = true
  <-> (c = "I" \/ c = "i")%char.
Proof. like_cases c. Qed.

Lemma like_N (c : ascii) :
  Ascii.eqb (Sql.fold_case "N") (Sql.fold_case c) = true
  <-> (c = "N" \/ c = "n")%char.
Proof. like_cases c. Qed.

Lemma like_V (c : ascii) :
  Ascii.eqb (Sql.fold_case "V") (Sql.fold_case c) = true
  <-> (c = "V" \/ c = "v")%char.
Proof. like_cases c. Qed.

Lemma like_dash (c : ascii) :
  Ascii.eqb (Sql.fold_case "-") (Sql.fold_case c) = true <-> c = "-"%char.
Proof. like_cases c. Qed.

Lemma like_0 (c : ascii) :
  Ascii.eqb (Sql.fold_case "0") (Sql.fold_case c) = true <-> c = "0"%char.
Proof. like_cases c. Qed.

Lemma like_2 (c : ascii) :
  Ascii.eqb (Sql.fold_case "2") (Sql.fold_case c) = true <-> c = "2"%char.
Proof. like_cases c. Qed.

Lemma like_6 (c : ascii) :
  Ascii.eqb (Sql.fold_case "6") (Sql.fold_case c) = true <-> c = "6"%char.
Proof. like_cases c. Qed.

(** [LIKE 'INV-2026-%'] holds of the texts with the prefix of the year,
    in whatever case of its letters. *)
Lemma like_year_prefix (s : string) :
  Sql.like_prefix "INV-2026-" s = true <-> has_year_prefix s.
Proof.
  unfold has_year_prefix. split.
  - destruct s as [|c1 [|c2 [|c3 [|c4 [|c5 [|c6 [|c7 [|c8 [|c9 rest]]]]]]]]];
      cbn [Sql.like_prefix]; rewrite ?andb_false_r; try discriminate.
    rewrite !andb_true_iff, like_I, like_N, like_V, !like_dash, !like_2,
      like_0, like_6.
    intros (H1 & H2 & H3 & -> & -> & -> & -> & -> & -> & _).
    now exists c1, c2, c3, rest.
  - intros (c1 & c2 & c3 & rest & -> & H1 & H2 & H3).
    cbn [String.append Sql.like_prefix].
    rewrite !andb_true_iff, like_I, like_N, like_V, !like_dash, !like_2,
      like_0, like_6.
    repeat split; assumption.
Qed.

Lemma in_numbers_2026 (db : DB) (number : string) :
  In number (numbers_2026 db)
  <-> (exists i, In i (invoices db) /\ Invoice.invoice_number i = number)
      /\ has_year_prefix number.
Proof.
  unfold numbers_2026. rewrite filter_In, in_map_iff, like_year_prefix.
  split; intros [(i & H1 & H2) Hpre]; (split; [now exists i | exact Hpre]).
Qed.

(** The query of [get_next_invoice_number] yields the greatest stored
    number with the prefix. *)
Lemma max_text_greatest (db : DB) (m : string) :
  Sql.max_text (numbers_2026 db) = Some m <-> greatest_prefixed db m.
Proof.
  unfold greatest_prefixed. split.
  - intros Hmax. destruct (max_text_spec _ Hmax) as [Hin Hge].
    apply in_numbers_2026 in Hin. destruct Hin as [Hstored Hprefix].
    split; [exact Hstored|]. split; [exact Hprefix|].
    intros i Hi Hpre. apply Hge, in_numbers_2026.
    split; [now exists i | exact Hpre].
  - intros (Hstored & Hprefix & Hge).
    assert (Hin : In m (numbers_2026 db))
      by (apply in_numbers_2026; now split).
    destruct (Sql.max_text (numbers_2026 db)) as [m'|] eqn:Hmax.
    + destruct (max_text_spec _ Hmax) as [Hin' Hge'].
      f_equal. apply String.leb_antisym; [|now apply Hge'].
      apply in_numbers_2026 in Hin'.
      destruct Hin' as [(i & Hi & <-) Hpre]. now apply Hge.
    + apply max_text_None in Hmax. now rewrite Hmax in Hin.
Qed.

(** C9.  With no stored number that starts with INV-2026- (letters in
    either case, as LIKE compares them) the next number is
    INV-2026-0001.  Otherwise the greatest such number in byte order is
    taken; what follows its last dash is parsed as an integer, 0
    standing in when it does not parse; and the next number is that
    sequence plus one, zero-padded to four digits: INV-2026-0007 is
    followed by INV-2026-0008, every four-digit sequence below 9999 by
    the next four-digit one, 12345 by 12346, and a sequence that is no
    number, such as 00x7, by 0001. *)
Theorem next_invoice_number :
  forall db,
    ((forall i, In i (invoices db) ->
                ~ has_year_prefix (Invoice.invoice_number i)) ->
     get_next_invoice_number db = "INV-2026-0001")
    /\ ((exists i, In i (invoices db)
                   /\ has_year_prefix (Invoice.invoice_number i)) ->
        exists m, greatest_prefixed db m)
    /\ (forall m, greatest_prefixed db m ->
        exists before segment,
          m = (before ++ String "-" segment)%string
          /\ (forall c, In c (list_ascii_of_string segment) -> c <> "-"%char)
          /\ (forall n, Py.int_of_str segment = Some n ->
                get_next_invoice_number db
                = ("INV-2026-" ++ Py.format_04d (n + 1))%string)
          /\ (Py.int_of_str segment = None ->
                get_next_invoice_number db = "INV-2026-0001"))
    /\ (forall n, 0 <= n < 9999 ->
        greatest_prefixed db ("INV-2026-" ++ Py.format_04d n) ->
        get_next_invoice_number db
        = ("INV-2026-" ++ Py.format_04d (n + 1))%string
        /\ String.length (Py.format_04d (n + 1)) = 4%nat)
    /\ (greatest_prefixed db "INV-2026-0007" ->
        get_next_invoice_number db = "INV-2026-0008")
    /\ (greatest_prefixed db "INV-2026-12345" ->
        get_next_invoice_number db = "INV-2026-12346")
    /\ (greatest_prefixed db "INV-2026-00x7" ->
        get_next_invoice_number db = "INV-2026-0001").
Proof.
  intros db. split; [|split; [|split; [|split; [|split; [|split]]]]].
  - intros Hnone.
    assert (Hempty : numbers_2026 db = []).
    { destruct (numbers_2026 db) as [|x t] eqn:E; [reflexivity|].
      assert (Hx : In x (numbers_2026 db)) by (rewrite E; now left).
      apply in_numbers_2026 in Hx. destruct Hx as [(i & Hi & <-) Hpre].
      now elim (Hnone i Hi). }
    unfold get_next_invoice_number. fold (numbers_2026 db). now rewrite Hempty.
  - intros (i & Hi & Hpre).
    destruct (Sql.max_text (numbers_2026 db)) as [m|] eqn:Hmax.
    + exists m. now apply max_text_greatest.
    + apply max_text_None in Hmax.
      assert (Hin : In (Invoice.invoice_number i) (numbers_2026 db)).
      { apply in_numbers_2026. split; [now exists i | exact Hpre]. }
      now rewrite Hmax in Hin.
  - intros m Hm. pose proof Hm as (_ & Hprefix & _).
    apply max_text_greatest in Hm.
    rewrite (get_next_invoice_number_of_max db Hm). unfold sequence_of.
    destruct (split_last "-" m) as (segment & Hlast & Hnone & Hshape).
    rewrite Hlast.
    destruct Hshape as [->|(before & ->)].
    + exfalso. destruct Hprefix as (c1 & c2 & c3 & rest & -> & _).
      apply (Hnone "-"%char); [|reflexivity].
      cbn [list_ascii_of_string String.append]. do 3 right. now left.
    + exists before, segment. split; [reflexivity|]. split; [exact Hnone|].
      split; [now intros n ->|now intros ->].
  - intros n Hn Hm. apply max_text_greatest in Hm.
    rewrite (get_next_invoice_number_of_max db Hm).
    destruct (four_digit_sequences Hn) as [-> Hlen]. now split.
  - intros Hm. apply max_text_greatest in Hm.
    now rewrite (get_next_invoice_number_of_max db Hm).
  - intros Hm. apply max_text_greatest in Hm.
    now rewrite (get_next_invoice_number_of_max db Hm).
  - intros Hm. apply max_text_greatest in Hm.
    now rewrite (get_next_invoice_number_of_max db Hm).
Qed.

Lemma next_invoice_number_witness :
  greatest_prefixed (ex_store [ex_invoice "sent" 100 0 100]) "INV-2026-0001"
  /\ get_next_invoice_number (ex_store [ex_invoice "sent" 100 0 100])
     = "INV-2026-0002".
Proof.
  assert (H : greatest_prefixed (ex_store [ex_invoice "sent" 100 0 100])
                                "INV-2026-0001").
  { split; [eexists; split; [left; reflexivity | reflexivity]|].
    split.
    - exists "I"%char, "N"%char, "V"%char, "0001".
      repeat split; now left.
    - intros i [<-|[]] _. reflexivity. }
  split; [exact H|].
  exact (proj1 (proj1 (proj2 (proj2 (proj2 (next_invoice_number _))))
                  1 ltac:(lia) H)).
Defined.

(** ** The Rate Resolver *)

Section OrderByFacts.
Variable A : Type.
Variable key : A -> Z.

Let ge (a b : A) : Prop := key b <= key a.

Lemma insert_desc_perm (x : A) (l : list A) :
  Permutation (x :: l) (Sql.insert_desc key x l).
Proof.
  induction l as [|y t IH]; simpl; [reflexivity|].
  destruct (key y <=? key x); [reflexivity|].
  rewrite perm_swap. now constructor.
Qed.

Lemma order_by_desc_perm (l : list A) :
  Permutation l (Sql.order_by_desc key l).
Proof.
  induction l as [|x t IH]; simpl; [constructor|].
  rewrite <- insert_desc_perm. now constructor.
Qed.

Lemma insert_desc_sorted (x : A) (l : list A) :
  StronglySorted ge l -> StronglySorted ge (Sql.insert_desc key x l).
Proof.
  induction 1 as [|y t Hs IH Hall]; simpl.
  - repeat constructor.
  - destruct (Z.leb_spec (key y) (key x)) as [Hle|Hgt].
    + constructor; [now constructor|].
      constructor; [exact Hle|].
      eapply Forall_impl; [|exact Hall].
      unfold ge. intros z Hz. lia.
    + constructor; [exact IH|].
      eapply Permutation_Forall; [apply insert_desc_perm|].
      constructor; [unfold ge; lia | exact Hall].
Qed.

Lemma order_by_desc_sorted (l : list A) :
  StronglySorted ge (Sql.order_by_desc key l).
Proof.
  induction l as [|x t IH]; simpl; [constructor|].
  now apply insert_desc_sorted.
Qed.

(** The first row of the ordered result has the greatest key. *)
Lemma first_order_by_desc (l : list A) :
  match Sql.first (Sql.order_by_desc key l) with
  | Some x => In x l /\ forall y, In y l -> key y <= key x
  | None => l = []
  end.
Proof.
  pose proof (order_by_desc_perm l) as Hperm.
  pose proof (order_by_desc_sorted l) as Hsorted.
  destruct (Sql.order_by_desc key l) as [|x rest]; simpl.
  - now apply Permutation_sym, Permutation_nil in Hperm.
  - split.
    + eapply Permutation_in; [symmetry; exact Hperm | now left].
    + intros y Hy.
      apply (Permutation_in _ Hperm) in Hy. destruct Hy as [<-|Hy]; [lia|].
      inversion Hsorted as [|? ? _ Hall]; subst.
      rewrite Forall_forall in Hall. exact (Hall y Hy).
Qed.
End OrderByFacts.

Lemma opt_eqb_Z (x y : option Z) : Sql.opt_eqb Z.eqb x y = true <-> x = y.
Proof.
  destruct x as [a|], y as [b|]; simpl; try (split; congruence).
  rewrite Z.eqb_eq. split; congruence.
Qed.

Lemma opt_eqb_string (x y : option string) :
  Sql.opt_eqb String.eqb x y = true <-> x = y.
Proof.
  destruct x as [a|], y as [b|]; simpl; try (split; congruence).
  rewrite String.eqb_eq. split; congruence.
Qed.

Lemma in_region_ids (db : DB) (region : option string) (port_id : option Z) :
  Sql.in_ port_id (region_ids db region) = true
  <-> port_in_region db region port_id.
Proof.
  unfold Sql.in_, region_ids, port_in_region. destruct port_id as [a|].
  - rewrite existsb_exists. split.
    + intros (i & Hi & Hai). apply Z.eqb_eq in Hai. subst i.
      apply in_map_iff in Hi. destruct Hi as (p & Hp & Hin).
      apply filter_In in Hin. destruct Hin as [Hin Hreg].
      apply opt_eqb_string in Hreg. exists p. now subst.
    + intros (p & Hin & [= ->] & Hreg). exists (Port.id p).
      split; [|apply Z.eqb_refl].
      apply in_map, filter_In. split; [exact Hin|]. now apply opt_eqb_string.
  - split; [discriminate|]. now intros (p & _ & H & _).
Qed.

Lemma exact_filter_iff db origin dest container_type rc :
  In rc (rate_cards db) /\ exact_filter origin dest container_type rc = true
  <-> tier1 db origin dest container_type rc.
Proof.
  unfold exact_filter, tier1, usable.
  rewrite !andb_true_iff, !opt_eqb_Z, String.eqb_eq. tauto.
Qed.

Lemma region_filter_iff db region dest container_type rc :
  In rc (rate_cards db)
  /\ region_filter (region_ids db region) dest container_type rc = true
  <-> tier2 db region dest container_type rc.
Proof.
  unfold region_filter, tier2, usable.
  rewrite !andb_true_iff, in_region_ids, opt_eqb_Z, String.eqb_eq. tauto.
Qed.

Lemma broad_filter_iff db region dest_region container_type rc :
  In rc (rate_cards db)
  /\ broad_filter (region_ids db region) (region_ids db dest_region)
       container_type rc = true
  <-> tier3 db region dest_region container_type rc.
Proof.
  unfold broad_filter, tier3, usable.
  rewrite !andb_true_iff, !in_region_ids, String.eqb_eq. tauto.
Qed.

(** The query of a tier returns a most recent card of the tier, and
    nothing only when the tier is empty. *)
Lemma latest_rate_card_spec db p (tier : RateCard.t -> Prop) :
  (forall rc, In rc (rate_cards db) /\ p rc = true <-> tier rc) ->
  match latest_rate_card db p with
  | Some rc => most_recent tier rc
  | None => ~ exists rc, tier rc
  end.
Proof.
  intros Htier. unfold latest_rate_card.
  pose proof (first_order_by_desc RateCard.effective_from
                (filter p (rate_cards db))) as H.
  destruct (Sql.first _) as [rc|].
  - destruct H as [Hin Hmax]. split.
    + apply Htier. now apply filter_In.
    + intros rc' Hrc'. apply Hmax, filter_In. now apply Htier.
  - intros (rc & Hrc). apply Htier, filter_In in Hrc. now rewrite H in Hrc.
Qed.

(** The port query finds the port the key resolves to, and nothing for
    an unresolved key. *)
Lemma get_port_resolves (db : DB) (port_id : option Z) (port : Port.t) :
  get_port db port_id = Some port <-> resolves db port_id port.
Proof.
  unfold get_port, resolves. split.
  - intros H. pose proof (first_filter_In _ _ H) as [_ Hkey].
    apply opt_eqb_Z in Hkey.
    destruct (first_filter_position _ _ H) as (pre & post & Hrows & _ & Hpre).
    exists pre, post. split; [exact Hrows|]. split; [now symmetry|].
    intros p Hp Hid. pose proof (filter_nil_all _ _ Hpre p Hp) as Hno.
    cbv beta in Hno. rewrite Hid, Hkey in Hno.
    assert (Hyes : Sql.opt_eqb Z.eqb port_id port_id = true)
      by now apply opt_eqb_Z.
    congruence.
  - intros (pre & post & -> & -> & Hpre).
    rewrite filter_app, all_false_filter.
    + cbn [app filter Sql.opt_eqb]. now rewrite Z.eqb_refl.
    + intros p Hp. cbn [Sql.opt_eqb]. apply Z.eqb_neq. now apply Hpre.
Qed.

Lemma get_port_unresolved (db : DB) (port_id : option Z) :
  get_port db port_id = None <-> unresolved db port_id.
Proof.
  unfold get_port, unresolved. split.
  - intros H p Hp Hid. pose proof (first_filter_none_all _ _ H p Hp) as Hno.
    cbv beta in Hno. rewrite <- Hid in Hno.
    assert (Hyes : Sql.opt_eqb Z.eqb port_id port_id = true)
      by now apply opt_eqb_Z.
    congruence.
  - intros H. rewrite all_false_filter; [reflexivity|].
    intros p Hp.
    destruct (Sql.opt_eqb Z.eqb (Some (Port.id p)) port_id) eqn:E;
      [|reflexivity].
    apply opt_eqb_Z in E. now elim (H p Hp).
Qed.

(** C6, as the code has it.  [find_rate_card] runs the three tiers in
    order and returns from the first that has a card, a most recent one
    of that tier: the exact matches; failing those, the cards from a
    port of the origin's region to the exact destination; failing
    those, the cards from a port of the origin's region to a port of
    the destination's region.  The origin port is looked up only once
    tier 1 is empty and the destination port only once tier 2 is
    empty, and the resolver returns nothing when that port is not a row
    of the port table, without running the next query.  So with an
    origin or a destination that cannot be resolved the answer is never
    one of tier 3: it is nothing, or an exact match, or, the origin
    being resolved, one of tier 2; and it is always nothing where the
    rate cards reference rows of the port table only. *)
Theorem rate_resolver_tiers :
  forall db origin dest container_type,
    ((exists rc, tier1 db origin dest container_type rc) ->
     exists rc, find_rate_card db origin dest container_type = Some rc
                /\ most_recent (tier1 db origin dest container_type) rc)
    /\ (~ (exists rc, tier1 db origin dest container_type rc) ->
        unresolved db origin ->
        find_rate_card db origin dest container_type = None)
    /\ (forall origin_port,
        ~ (exists rc, tier1 db origin dest container_type rc) ->
        resolves db origin origin_port ->
        ((exists rc, tier2 db (Port.region origin_port) dest container_type rc) ->
         exists rc, find_rate_card db origin dest container_type = Some rc
                    /\ most_recent
                         (tier2 db (Port.region origin_port) dest container_type) rc)
        /\ (~ (exists rc, tier2 db (Port.region origin_port) dest container_type rc) ->
            unresolved db dest ->
            find_rate_card db origin dest container_type = None)
        /\ (forall dest_port,
            ~ (exists rc, tier2 db (Port.region origin_port) dest container_type rc) ->
            resolves db dest dest_port ->
            ((exists rc, tier3 db (Port.region origin_port) (Port.region dest_port)
                           container_type rc) ->
             exists rc, find_rate_card db origin dest container_type = Some rc
                        /\ most_recent
                             (tier3 db (Port.region origin_port)
                                    (Port.region dest_port) container_type) rc)
            /\ (~ (exists rc, tier3 db (Port.region origin_port)
                                (Port.region dest_port) container_type rc) ->
                find_rate_card db origin dest container_type = None)))
    /\ (unresolved db origin \/ unresolved db dest ->
        forall rc,
          find_rate_card db origin dest container_type = Some rc ->
          most_recent (tier1 db origin dest container_type) rc
          \/ exists origin_port,
               resolves db origin origin_port
               /\ unresolved db dest
               /\ most_recent
                    (tier2 db (Port.region origin_port) dest container_type) rc)
    /\ (references_ports db ->
        unresolved db origin \/ unresolved db dest ->
        find_rate_card db origin dest container_type = None).
Proof.
  intros db origin dest container_type.
  pose proof (latest_rate_card_spec db
                (exact_filter origin dest container_type)
                (tier1 db origin dest container_type)
                (exact_filter_iff db origin dest container_type)) as H1.
  assert (H2 : forall region,
             match latest_rate_card db
                     (region_filter (region_ids db region) dest container_type) with
             | Some rc => most_recent (tier2 db region dest container_type) rc
             | None => ~ exists rc, tier2 db region dest container_type rc
             end).
  { intros region. apply latest_rate_card_spec, region_filter_iff. }
  assert (H3 : forall region dest_region,
             match latest_rate_card db
                     (broad_filter (region_ids db region)
                                   (region_ids db dest_region) container_type) with
             | Some rc => most_recent (tier3 db region dest_region container_type) rc
             | None => ~ exists rc, tier3 db region dest_region container_type rc
             end).
  { intros region dest_region. apply latest_rate_card_spec, broad_filter_iff. }
  assert (Hfk : forall k p, resolves db k p -> unresolved db k -> False).
  { intros k p Hres Hun. apply get_port_resolves in Hres.
    apply get_port_unresolved in Hun. congruence. }
  unfold find_rate_card.
  destruct (latest_rate_card db (exact_filter origin dest container_type))
    as [rc1|] eqn:E1.
  { (* tier 1 has a card *)
    assert (Hsome : exists rc, tier1 db origin dest container_type rc)
      by (exists rc1; apply H1).
    split; [intros _; now exists rc1|].
    split; [intros Hno; contradiction|].
    split; [intros origin_port Hno; contradiction|].
    split; [intros _ rc [= <-]; now left|].
    intros Hrefs Hunres. destruct H1 as [(Hin & Ho & Hd & _) _].
    destruct (Hrefs rc1 Hin) as [[po Hpo] [pd Hpd]].
    rewrite Ho in Hpo. rewrite Hd in Hpd.
    destruct Hunres as [Hun|Hun]; [elim (Hfk _ _ Hpo Hun) | elim (Hfk _ _ Hpd Hun)]. }
  split; [intros Hsome; contradiction|].
  split; [intros _ Hun; apply get_port_unresolved in Hun; now rewrite Hun|].
  split; [|split].
  - intros origin_port _ Hres. apply get_port_resolves in Hres. rewrite Hres.
    specialize (H2 (Port.region origin_port)).
    destruct (latest_rate_card db
                (region_filter (region_ids db (Port.region origin_port))
                               dest container_type)) as [rc2|] eqn:E2.
    { split; [intros _; now exists rc2|].
      split; [intros Hno; elim Hno; exists rc2; apply H2|].
      intros dest_port Hno. elim Hno. exists rc2. apply H2. }
    split; [intros Hsome; contradiction|].
    split; [intros _ Hun; apply get_port_unresolved in Hun; now rewrite Hun|].
    intros dest_port _ Hdest. apply get_port_resolves in Hdest. rewrite Hdest.
    specialize (H3 (Port.region origin_port) (Port.region dest_port)).
    destruct (latest_rate_card db
                (broad_filter (region_ids db (Port.region origin_port))
                              (region_ids db (Port.region dest_port))
                              container_type)) as [rc3|] eqn:E3.
    + split; [intros _; now exists rc3|].
      intros Hno. elim Hno. exists rc3. apply H3.
    + split; [intros Hsome; contradiction | reflexivity].
  - intros Hunres rc.
    destruct (get_port db origin) as [origin_port|] eqn:Eo; [|discriminate].
    apply get_port_resolves in Eo.
    destruct Hunres as [Hunres|Hunres]; [elim (Hfk _ _ Eo Hunres)|].
    specialize (H2 (Port.region origin_port)).
    destruct (latest_rate_card db
                (region_filter (region_ids db (Port.region origin_port))
                               dest container_type)) as [rc2|] eqn:E2.
    + intros [= <-]. right. now exists origin_port.
    + pose proof Hunres as Hnone. apply get_port_unresolved in Hnone.
      rewrite Hnone. discriminate.
  - intros Hrefs Hunres.
    destruct (get_port db origin) as [origin_port|] eqn:Eo; [|reflexivity].
    apply get_port_resolves in Eo.
    destruct Hunres as [Hunres|Hunres]; [elim (Hfk _ _ Eo Hunres)|].
    specialize (H2 (Port.region origin_port)).
    destruct (latest_rate_card db
                (region_filter (region_ids db (Port.region origin_port))
                               dest container_type)) as [rc2|] eqn:E2.
    + destruct H2 as [(Hin & _ & Hd & _) _].
      destruct (Hrefs rc2 Hin) as [_ [pd Hpd]]. rewrite Hd in Hpd.
      elim (Hfk _ _ Hpd Hunres).
    + apply get_port_unresolved in Hunres. now rewrite Hunres.
Qed.

(** C6, the counterexample.  The resolver does not fail whenever a port
    cannot be resolved: the exact match is sought before any port is
    looked up.  With an empty port table a card of the route is the
    answer although neither port resolves; and with the origin in the
    table and the destination not, a card from another port of the
    origin's region to that destination is. *)
Lemma unresolved_port_card_cex :
  (let db := mkDB [] [ex_rate 1800 "40HC"] [] [] [] [] [] [] in
   unresolved db (Some 1) /\ unresolved db (Some 2)
   /\ find_rate_card db (Some 1) (Some 2) "40HC" = Some (ex_rate 1800 "40HC"))
  /\ (let db := mkDB [Port.mk 1 "CNSHA" "Shanghai" (Some "Asia");
                      Port.mk 3 "CNNGB" "Ningbo" (Some "Asia")]
                     [ex_rate 1800 "40HC"] [] [] [] [] [] [] in
      resolves db (Some 3) (Port.mk 3 "CNNGB" "Ningbo" (Some "Asia"))
      /\ unresolved db (Some 2)
      /\ find_rate_card db (Some 3) (Some 2) "40HC" = Some (ex_rate 1800 "40HC")).
Proof.
  split; cbv zeta.
  - split; [intros p []|]. split; [intros p []|]. vm_compute. reflexivity.
  - split.
    + exists [Port.mk 1 "CNSHA" "Shanghai" (Some "Asia")], [].
      split; [reflexivity|]. split; [reflexivity|].
      intros p [<-|[]]. discriminate.
    + split; [|vm_compute; reflexivity].
      intros p [<-|[<-|[]]]; discriminate.
Qed.

(** ** Generate *)

Lemma first_filter_Some {A} (p : A -> bool) (l : list A) (x : A) :
  In x l -> p x = true ->
  exists y, Sql.first (filter p l) = Some y /\ In y l /\ p y = true.
Proof.
  intros Hin Hp.
  assert (Hx : In x (filter p l)) by now apply filter_In.
  destruct (filter p l) as [|y t] eqn:E; [contradiction|].
  exists y. split; [reflexivity|]. apply filter_In. rewrite E. now left.
Qed.

Lemma first_filter_None {A} (p : A -> bool) (l : list A) :
  (forall x, In x l -> p x = false) -> Sql.first (filter p l) = None.
Proof.
  intros H. destruct (filter p l) as [|y t] eqn:E; [reflexivity|].
  assert (Hy : In y (filter p l)) by (rewrite E; now left).
  apply filter_In in Hy. destruct Hy as [Hin Hp]. rewrite (H y Hin) in Hp.
  discriminate.
Qed.

Lemma transaction_outcome {A} (c : Session A) (db : DB) :
  (exists db' a, c db = (db', inr a) /\ transaction c db = (db', inr a))
  \/ (exists db' e, c db = (db', inl e) /\ transaction c db = (db, inl e)).
Proof.
  unfold transaction. destruct (c db) as [db' [e|a]].
  - right. now exists db', e.
  - left. now exists db', a.
Qed.

(** The lines fail on a NOT NULL constraint only. *)
Lemma add_invoice_lines_failure invoice_id line_items :
  forall idx db db' e,
    add_invoice_lines invoice_id idx line_items db = (db', inl e) ->
    e = IntegrityError_NotNull.
Proof.
  induction line_items as [|item rest IH]; intros idx db db' e;
    [discriminate|].
  cbn [add_invoice_lines]. unfold bind at 1, add_invoice_line.
  destruct (InvoiceLine.stored _); [|now intros [= _ <-]].
  apply IH.
Qed.

(** The writes of [generate_invoice] fail on a constraint only. *)
Lemma insert_invoice_failure mk_invoice line_items db db' e :
  (invoice <- add_invoice mk_invoice ;;
   add_invoice_lines (Invoice.id invoice) 1 line_items ;;; ret invoice) db
  = (db', inl e) ->
  e = IntegrityError \/ e = IntegrityError_NotNull.
Proof.
  unfold bind at 1, add_invoice.
  destruct (Invoice.stored _) as [row|]; [|intros [= _ <-]; now right].
  destruct (str_in _ _); [intros [= _ <-]; now left|].
  unfold bind.
  destruct (add_invoice_lines _ _ _ _) as [db1 [e1|[]]] eqn:E; [|discriminate].
  intros [= _ <-]. right. exact (add_invoice_lines_failure _ _ _ _ E).
Qed.

(** An error of [generate_invoice] leaves the store as it was. *)
Lemma generate_invoice_failure shipment_id today db db' e :
  generate_invoice shipment_id today db = (db', inl e) -> db' = db.
Proof.
  unfold generate_invoice, bind, query, raise.
  destruct (Sql.first (filter _ (shipments db))); [|now intros [= <- _]].
  destruct (Sql.first (filter _ (invoices db))); [now intros [= <- _]|].
  destruct (Sql.first (filter _ (clients db))); [|now intros [= <- _]].
  destruct (find_rate_card db _ _ _); [|now intros [= <- _]].
  unfold date_add. destruct (_ && _); [|now intros [= <- _]].
  unfold ret at 1.
  match goal with
  | |- context [transaction ?c db] =>
      destruct (transaction_outcome c db)
        as [(db1 & a & _ & ->)|(db1 & e1 & _ & ->)]
  end; [discriminate | now intros [= <- _]].
Qed.

(** C4, as the code has it.  For a shipment of the store: when it has
    an invoice, in whatever status, void included, [generate_invoice]
    fails with the Conflict error naming an invoice of the shipment
    and leaves the store as it was, so no invoice or line is created
    and the existing ones are unchanged; when it has no invoice at all,
    [generate_invoice] does not fail with Conflict.  Any error leaves
    the store unchanged. *)
Theorem generate_conflict :
  forall db shipment_id today shipment,
    In shipment (shipments db) ->
    Shipment.id shipment = shipment_id ->
    (invoiced db shipment_id ->
     exists existing,
       In existing (invoices db)
       /\ Invoice.shipment_id existing = Some shipment_id
       /\ generate_invoice shipment_id today db
          = (db, inl (Conflict shipment_id (Invoice.invoice_number existing))))
    /\ (~ invoiced db shipment_id ->
        forall number,
          snd (generate_invoice shipment_id today db)
          <> inl (Conflict shipment_id number))
    /\ (forall db' e,
          generate_invoice shipment_id today db = (db', inl e) -> db' = db).
Proof.
  intros db shipment_id today shipment Hin Hid.
  destruct (first_filter_Some (fun s => Shipment.id s =? shipment_id)
              (shipments db) shipment Hin (proj2 (Z.eqb_eq _ _) Hid))
    as (found & Hfound & _ & _).
  split; [|split].
  - intros (i & Hi & Hship).
    destruct (first_filter_Some
                (fun i => Sql.opt_eqb Z.eqb (Invoice.shipment_id i) (Some shipment_id))
                (invoices db) i Hi (proj2 (opt_eqb_Z _ _) Hship))
      as (existing & Hexisting & Hex_in & Hex_ship).
    exists existing. split; [exact Hex_in|].
    split; [now apply opt_eqb_Z|].
    unfold generate_invoice, bind, query. rewrite Hfound, Hexisting. reflexivity.
  - intros Hnone number.
    assert (Hexisting :
              Sql.first (filter (fun i => Sql.opt_eqb Z.eqb (Invoice.shipment_id i)
                                            (Some shipment_id)) (invoices db))
              = None).
    { apply first_filter_None. intros i Hi.
      destruct (Sql.opt_eqb Z.eqb (Invoice.shipment_id i) (Some shipment_id)) eqn:E;
        [|reflexivity].
      elim Hnone. exists i. split; [exact Hi | now apply opt_eqb_Z]. }
    unfold generate_invoice, bind, query, raise, Conflict.
    rewrite Hfound, Hexisting.
    destruct (Sql.first (filter _ (clients db))) as [client|];
      [|simpl; intros [=]].
    destruct (find_rate_card db _ _ _) as [rate_card|]; [|simpl; intros [=]].
    unfold date_add.
    destruct (_ && _); [|simpl; discriminate].
    unfold ret at 1.
    match goal with
    | |- context [transaction ?c db] =>
        destruct (transaction_outcome c db)
          as [(db1 & a & _ & ->)|(db1 & e1 & Hfail & ->)]
    end; [simpl; discriminate|].
    destruct (insert_invoice_failure _ _ _ Hfail) as [-> | ->];
      simpl; discriminate.
  - intros db' e. apply generate_invoice_failure.
Qed.

Lemma generate_conflict_witness :
  generate_invoice 1 739100 (ex_booked [ex_invoice "sent" 3675 0 3675])
  = (ex_booked [ex_invoice "sent" 3675 0 3675],
     inl (Conflict 1 "INV-2026-0001")).
Proof.
  destruct (proj1 (@generate_conflict
                     (ex_booked [ex_invoice "sent" 3675 0 3675]) 1 739100
                     (Shipment.mk 1 "BK-0001" (Some 1) (Some 1) (Some 1)
                        (Some 2) "40HC" (Some 2) None "shipper")
                     (or_introl eq_refl) eq_refl)
                  (ex_intro _ (ex_invoice "sent" 3675 0 3675)
                     (conj (or_introl eq_refl) eq_refl)))
    as (existing & Hin & _ & Hrun).
  destruct Hin as [<-|[]]. exact Hrun.
Defined.

(** C4 as stated fails in its last part: a shipment whose only invoice
    is void still gets the Conflict error, and no new invoice. *)
Lemma generate_after_void_cex :
  invoices (ex_booked [ex_invoice "void" 3675 0 3675])
  = [ex_invoice "void" 3675 0 3675]
  /\ Invoice.status (ex_invoice "void" 3675 0 3675) = "void"
  /\ generate_invoice 1 739100 (ex_booked [ex_invoice "void" 3675 0 3675])
     = (ex_booked [ex_invoice "void" 3675 0 3675],
        inl (ValueError "Shipment 1 already has invoice INV-2026-0001")).
Proof. repeat split. Qed.

(** Without an invoice the same shipment is invoiced: rate 1800 for two
    containers and a fixed fee of 75. *)
Example generate_first_invoice :
  exists db' invoice,
    generate_invoice 1 739100 (ex_booked []) = (db', inr invoice)
    /\ Invoice.invoice_number invoice = "INV-2026-0001"
    /\ Invoice.total_amount invoice = 3675%float
    /\ Invoice.balance_due invoice = 3675%float
    /\ Invoice.status invoice = "draft"
    /\ Invoice.due_date invoice = 739130
    /\ map InvoiceLine.charge_code (invoice_lines db') = ["OFR"; "DOC_FEE"].
Proof.
  do 2 eexists. split; [vm_compute; reflexivity|]. repeat split.
Qed.

(** The fallback of the Rate Resolver on a small catalog: an exact card
    wins over a more recent card of the region; without it the regional
    card is found; a destination that is no port gives nothing. *)
Example rate_resolver_fallback :
  let ports := [Port.mk 1 "CNSHA" "Shanghai" (Some "Asia");
                Port.mk 2 "USLAX" "Los Angeles" (Some "Americas");
                Port.mk 3 "CNNGB" "Ningbo" (Some "Asia")] in
  let exact := RateCard.mk 1 (Some 1) (Some 2) "40HC" 1800 738000 None true in
  let newer := RateCard.mk 2 (Some 1) (Some 2) "40HC" 1900 738500 None true in
  let regional := RateCard.mk 3 (Some 3) (Some 2) "40HC" 1700 739000 None true in
  let store cards := mkDB ports cards [] [] [] [] [] [] in
  find_rate_card (store [exact; newer; regional]) (Some 1) (Some 2) "40HC"
  = Some newer
  /\ find_rate_card (store [regional]) (Some 1) (Some 2) "40HC" = Some regional
  /\ find_rate_card (store [regional]) (Some 1) (Some 9) "40HC" = None
  /\ find_rate_card (store [regional]) (Some 9) (Some 2) "40HC" = None.
Proof. repeat split. Qed.

Example next_invoice_number_example :
  get_next_invoice_number
    (ex_numbered ["INV-2026-0003"; "INV-2026-0007"; "INV-2025-0042"])
  = "INV-2026-0008"
  /\ get_next_invoice_number (ex_numbered ["INV-2025-0042"]) = "INV-2026-0001"
  /\ get_next_invoice_number (ex_numbered ["INV-2026-00x7"]) = "INV-2026-0001".
Proof. repeat split. Qed.

(** * Further properties of the engine *)

(** ** The Surcharge Selector *)


Lemma port_filter_passes (port_filter port_id : option Z) :
  match port_filter with
  | Some p => negb (Sql.opt_eqb Z.eqb (Some p) port_id)
  | None => false
  end = false
  <-> port_filter = None \/ port_filter = port_id.
Proof.
  destruct port_filter as [p|].
  - rewrite negb_false_iff, opt_eqb_Z. split; [tauto|].
    intros [H|H]; [discriminate | exact H].
  - tauto.
Qed.

Lemma surcharge_applies_iff category origin dest s :
  surcharge_applies category origin dest s = true
  <-> (Surcharge.applies_to s = category \/ Surcharge.applies_to s = "all")
      /\ (Surcharge.origin_port_id s = None
          \/ Surcharge.origin_port_id s = origin)
      /\ (Surcharge.destination_port_id s = None
          \/ Surcharge.destination_port_id s = dest).
Proof.
  unfold surcharge_applies, str_in. cbn [existsb]. rewrite orb_false_r.
  rewrite <- (port_filter_passes (Surcharge.origin_port_id s) origin).
  rewrite <- (port_filter_passes (Surcharge.destination_port_id s) dest).
  rewrite <- !String.eqb_eq, <- orb_true_iff.
  destruct (_ || _); cbn [negb];
    destruct (match Surcharge.origin_port_id s with
              | Some p => negb (Sql.opt_eqb Z.eqb (Some p) origin)
              | None => false
              end);
    destruct (match Surcharge.destination_port_id s with
              | Some p => negb (Sql.opt_eqb Z.eqb (Some p) dest)
              | None => false
              end);
    intuition congruence.
Qed.

(** X1.  [get_applicable_surcharges] is a filter of the surcharge table
    that keeps the table order: a surcharge is selected exactly when it
    is active, applies to the class of the container type (FCL for
    20GP, 40GP and 40HC, LCL for anything else) or to all, and each of
    its port filters is unset or equal to the shipment's port. *)
Theorem selector_is_filter :
  forall db origin dest container_type,
    get_applicable_surcharges db origin dest container_type
    = filter (fun s => Surcharge.is_active s
                       && surcharge_applies (category_of container_type)
                                            origin dest s)
             (surcharges db)
    /\ (category_of container_type = "FCL"
        <-> container_type = "20GP" \/ container_type = "40GP"
            \/ container_type = "40HC")
    /\ (category_of container_type = "FCL" \/ category_of container_type = "LCL")
    /\ (forall s,
          In s (get_applicable_surcharges db origin dest container_type)
          <-> In s (surcharges db)
              /\ Surcharge.is_active s = true
              /\ (Surcharge.applies_to s = category_of container_type
                  \/ Surcharge.applies_to s = "all")
              /\ (Surcharge.origin_port_id s = None
                  \/ Surcharge.origin_port_id s = origin)
              /\ (Surcharge.destination_port_id s = None
                  \/ Surcharge.destination_port_id s = dest)).
Proof.
  intros db origin dest container_type.
  assert (Heq : get_applicable_surcharges db origin dest container_type
                = filter (fun s => Surcharge.is_active s
                                   && surcharge_applies (category_of container_type)
                                                        origin dest s)
                         (surcharges db)).
  { unfold get_applicable_surcharges. fold (category_of container_type).
    rewrite fold_append_filter. simpl.
    induction (surcharges db) as [|s t IH]; simpl; [reflexivity|].
    destruct (Surcharge.is_active s); simpl; [|exact IH].
    destruct (surcharge_applies _ origin dest s); now rewrite IH. }
  split; [exact Heq|]. split; [|split].
  - unfold category_of, str_in, FCL_TYPES. simpl.
    rewrite !orb_false_r.
    destruct (String.eqb_spec container_type "20GP") as [->|H1];
      [simpl; tauto|].
    destruct (String.eqb_spec container_type "40GP") as [->|H2];
      [simpl; tauto|].
    destruct (String.eqb_spec container_type "40HC") as [->|H3];
      [simpl; tauto|].
    simpl. split; [discriminate | tauto].
  - unfold category_of. destruct (str_in _ _); tauto.
  - intros s. rewrite Heq, filter_In, andb_true_iff.
    rewrite surcharge_applies_iff. tauto.
Qed.

(** ** Charge lines by calculation type *)

Lemma collect_length {A B} (f : A -> option B) (l : list A) :
  (List.length (collect f l) <= List.length l)%nat.
Proof.
  induction l as [|x t IH]; simpl; [lia|].
  destruct (f x); simpl; lia.
Qed.

Lemma collect_none {A B} (f : A -> option B) (l : list A) :
  (forall x, In x l -> f x = None) -> collect f l = [].
Proof.
  induction l as [|x t IH]; intros H; simpl; [reflexivity|].
  rewrite (H x (or_introl eq_refl)). apply IH. intros y Hy. apply H. now right.
Qed.

Lemma collect_app {A B} (f : A -> option B) (l1 l2 : list A) :
  collect f (l1 ++ l2) = collect f l1 ++ collect f l2.
Proof.
  induction l1 as [|x t IH]; simpl; [reflexivity|].
  destruct (f x); simpl; now rewrite IH.
Qed.

Lemma no_line_for_None shipment rate_card s :
  no_line_for shipment s -> surcharge_line shipment rate_card s = None.
Proof.
  unfold no_line_for, surcharge_line.
  intros [[-> ->] | [[-> ->] | Hnot]]; try reflexivity.
  destruct (String.eqb_spec (Surcharge.calculation_type s) "per_container")
    as [E|_]; [elim Hnot; rewrite E; simpl; tauto|].
  destruct (String.eqb_spec (Surcharge.calculation_type s) "per_cbm")
    as [E|_]; [elim Hnot; rewrite E; simpl; tauto|].
  destruct (String.eqb_spec (Surcharge.calculation_type s) "fixed")
    as [E|_]; [elim Hnot; rewrite E; simpl; tauto|].
  destruct (String.eqb_spec (Surcharge.calculation_type s) "percentage")
    as [E|_]; [elim Hnot; rewrite E; simpl; tauto|].
  reflexivity.
Qed.

(** X2.  What a surcharge of the list contributes, by calculation
    type.  On a container load a per-container surcharge gives a line
    with the container count as quantity and amount times count,
    rounded, as total; on LCL a per-cbm surcharge gives a line with the
    billable volume as quantity; a fixed surcharge other than LCL_MIN
    gives a line of quantity 1.  A surcharge whose type does not fit
    the shipment (per container on LCL, per cbm on a container load, an
    unknown type) gives no line and no error: the lines are those of
    the list without it, wherever in the list it stands, and a list of
    such surcharges leaves the ocean-freight line alone.  There is at
    most one line per surcharge. *)
Theorem surcharge_lines_by_type :
  forall shipment rate_card surcharges,
    (forall s, In s surcharges ->
       (Surcharge.calculation_type s = "per_container" ->
        is_lcl shipment = false ->
        In (mkLine (Surcharge.charge_code s) (Surcharge.charge_name s)
              (Py.float_of_int (Py.int_or (Shipment.container_count shipment) 1))
              (Surcharge.amount s)
              (Py.round2
                 (Surcharge.amount s
                  * Py.float_of_int
                      (Py.int_or (Shipment.container_count shipment) 1))%float))
           (calculate_line_items shipment rate_card surcharges))
       /\ (Surcharge.calculation_type s = "per_cbm" ->
           is_lcl shipment = true ->
           In (mkLine (Surcharge.charge_code s) (Surcharge.charge_name s)
                 (Py.max (Py.float_or (Shipment.cbm shipment) 0) 1)
                 (Surcharge.amount s)
                 (Py.round2
                    (Surcharge.amount s
                     * Py.max (Py.float_or (Shipment.cbm shipment) 0) 1)%float))
              (calculate_line_items shipment rate_card surcharges))
       /\ (Surcharge.calculation_type s = "fixed" ->
           Surcharge.charge_code s <> "LCL_MIN" ->
           In (mkLine (Surcharge.charge_code s) (Surcharge.charge_name s)
                 1%float (Surcharge.amount s) (Py.round2 (Surcharge.amount s)))
              (calculate_line_items shipment rate_card surcharges)))
    /\ (forall before s after,
          surcharges = before ++ s :: after ->
          no_line_for shipment s ->
          calculate_line_items shipment rate_card surcharges
          = calculate_line_items shipment rate_card (before ++ after))
    /\ ((forall s, In s surcharges -> no_line_for shipment s) ->
        calculate_line_items shipment rate_card surcharges
        = [ocean_freight_line shipment rate_card])
    /\ (1 <= List.length (calculate_line_items shipment rate_card surcharges)
        <= 1 + List.length surcharges)%nat.
Proof.
  intros shipment rate_card surcharges. rewrite calculate_line_items_eq.
  split; [|split; [|split]].
  - intros s Hs. split; [|split].
    + intros Hcalc Hlcl. right. apply surcharge_line_In. exists s.
      split; [exact Hs|]. unfold surcharge_line. now rewrite Hcalc, Hlcl.
    + intros Hcalc Hlcl. right. apply surcharge_line_In. exists s.
      split; [exact Hs|]. unfold surcharge_line. now rewrite Hcalc, Hlcl.
    + intros Hcalc Hcode. right. apply surcharge_line_In. exists s.
      split; [exact Hs|]. unfold surcharge_line. rewrite Hcalc. simpl.
      apply String.eqb_neq in Hcode. now rewrite Hcode.
  - intros before s after -> Hnone. rewrite !calculate_line_items_eq.
    unfold surcharge_lines. rewrite !collect_app. cbn [collect].
    now rewrite (no_line_for_None rate_card Hnone).
  - intros Hnone. unfold surcharge_lines.
    rewrite collect_none; [reflexivity|].
    intros s Hs. apply no_line_for_None. now apply Hnone.
  - simpl List.length.
    rewrite <- (Permutation_length
                  (sort_by_key_perm charge_code
                     (surcharge_lines shipment rate_card surcharges))).
    pose proof (collect_length (surcharge_line shipment rate_card) surcharges).
    unfold surcharge_lines. lia.
Qed.

Lemma surcharge_lines_by_type_witness :
  In (mkLine "BAF" "BAF" 3%float 100%float 300%float)
     (calculate_line_items (ex_fcl_shipment 3) (ex_rate 1800 "40HC")
        [ex_surcharge "CFS" "per_cbm" 15 "all";
         ex_surcharge "BAF" "per_container" 100 "FCL"])
  /\ calculate_line_items (ex_fcl_shipment 3) (ex_rate 1800 "40HC")
       [ex_surcharge "CFS" "per_cbm" 15 "all";
        ex_surcharge "BAF" "per_container" 100 "FCL"]
     = calculate_line_items (ex_fcl_shipment 3) (ex_rate 1800 "40HC")
         [ex_surcharge "BAF" "per_container" 100 "FCL"].
Proof.
  split; [|exact (proj1 (proj2 (@surcharge_lines_by_type (ex_fcl_shipment 3)
                         (ex_rate 1800 "40HC")
                         [ex_surcharge "CFS" "per_cbm" 15 "all";
                          ex_surcharge "BAF" "per_container" 100 "FCL"]))
                   [] (ex_surcharge "CFS" "per_cbm" 15 "all")
                   [ex_surcharge "BAF" "per_container" 100 "FCL"]
                   eq_refl (or_intror (or_introl (conj eq_refl eq_refl))))].
  exact (proj1 (proj1 (@surcharge_lines_by_type (ex_fcl_shipment 3)
                         (ex_rate 1800 "40HC")
                         [ex_surcharge "CFS" "per_cbm" 15 "all";
                          ex_surcharge "BAF" "per_container" 100 "FCL"])
                      (ex_surcharge "BAF" "per_container" 100 "FCL")
                      (or_intror (or_introl eq_refl)))
               eq_refl eq_refl).
Defined.

(** ** The ocean-freight line *)

Lemma Prim2SF_one : Prim2SF 1%float = S754_finite false 4503599627370496 (-52).
Proof. reflexivity. Qed.

(** A value from 1 upwards is not zero. *)
Lemma one_leb_not_zero (c : float) :
  (1 <=? c)%float = true -> (c =? 0)%float = false.
Proof.
  rewrite leb_spec, eqb_spec, Prim2SF_one, Prim2SF_zero.
  unfold SFleb, SFeqb.
  destruct (Prim2SF c) as [s|s| |s m e]; try destruct s; simpl;
    try discriminate; reflexivity.
Qed.

(** A value below 1, zero or not, is replaced by 1. *)
Lemma max_one_below (c : float) :
  (c <? 1)%float = true ->
  Py.max (if (c =? 0)%float then 0%float else c) 1 = 1%float.
Proof.
  intros Hlt. unfold Py.max.
  destruct (c =? 0)%float; [reflexivity | now rewrite Hlt].
Qed.

(** X3.  The quantity of the ocean-freight line.  On LCL a missing or
    zero volume and any volume below 1 are billed as 1.0, and a volume
    of at least 1 as it is.  On a container load a missing or zero
    count is billed as one container; any other count is billed as it
    is, a negative one included.  In both cases the unit price is the
    rate card's base rate, the total is the rounded product, the code is
    OFR, and the line comes first. *)
Theorem ocean_freight_quantity :
  forall shipment rate_card surcharges,
    exists ofr rest,
      calculate_line_items shipment rate_card surcharges = ofr :: rest
      /\ charge_code ofr = "OFR" /\ description ofr = "Ocean Freight"
      /\ unit_price ofr = RateCard.base_ocean_freight rate_card
      /\ line_total ofr = Py.round2 (unit_price ofr * quantity ofr)%float
      /\ (is_lcl shipment = true ->
          (Shipment.cbm shipment = None -> quantity ofr = 1%float)
          /\ (forall c, Shipment.cbm shipment = Some c ->
                ((c =? 0)%float = true -> quantity ofr = 1%float)
                /\ ((c <? 1)%float = true -> quantity ofr = 1%float)
                /\ ((1 <=? c)%float = true -> quantity ofr = c)))
      /\ (is_lcl shipment = false ->
          (Shipment.container_count shipment = None -> quantity ofr = 1%float)
          /\ (Shipment.container_count shipment = Some 0 ->
              quantity ofr = 1%float)
          /\ (forall n, Shipment.container_count shipment = Some n -> n <> 0 ->
                quantity ofr = Py.float_of_int n)).
Proof.
  intros shipment rate_card surcharges. rewrite calculate_line_items_eq.
  eexists. eexists. split; [reflexivity|].
  unfold ocean_freight_line, ocean_freight_total, billable_cbm, billable_count.
  destruct (is_lcl shipment); simpl;
    (split; [reflexivity|]); (split; [reflexivity|]);
    (split; [reflexivity|]); (split; [reflexivity|]).
  - split; [|discriminate]. intros _. split.
    + now intros ->.
    + intros c ->. simpl. split; [|split].
      * now intros ->.
      * apply max_one_below.
      * intros Hge. rewrite (one_leb_not_zero Hge). unfold Py.max.
        now rewrite (leb_not_ltb Hge).
  - split; [discriminate|]. intros _. split; [|split].
    + now intros ->.
    + now intros ->.
    + intros n -> Hn. simpl. apply Z.eqb_neq in Hn. now rewrite Hn.
Qed.

(** ** Generate: what a successful run creates *)

Lemma with_invoice_lines_nil (db : DB) :
  with_invoice_lines (fun rows => rows ++ []) db = db.
Proof. destruct db. unfold with_invoice_lines. cbn. now rewrite app_nil_r. Qed.

Lemma with_invoice_lines_cons (row : InvoiceLine.t) (rest : list InvoiceLine.t)
    (db : DB) :
  with_invoice_lines (fun rows => rows ++ rest)
    (with_invoice_lines (fun rows => rows ++ [row]) db)
  = with_invoice_lines (fun rows => rows ++ row :: rest) db.
Proof. destruct db. unfold with_invoice_lines. cbn. now rewrite <- app_assoc. Qed.

(** The loop over the line items, when no insert fails: one row per
    item, in order, appended to the line table. *)
Lemma add_invoice_lines_inv invoice_id line_items :
  forall idx db db',
    add_invoice_lines invoice_id idx line_items db = (db', inr tt) ->
    exists new_lines,
      db' = with_invoice_lines (fun rows => rows ++ new_lines) db
      /\ Forall2 (row_of_item invoice_id) new_lines line_items
      /\ numbered_from idx new_lines.
Proof.
  induction line_items as [|item rest IH]; intros idx db db'.
  - cbn [add_invoice_lines]. unfold ret. intros [= <-]. exists [].
    split; [now rewrite with_invoice_lines_nil|]. split; constructor.
  - cbn [add_invoice_lines]. unfold bind at 1, add_invoice_line.
    destruct (InvoiceLine.stored _) as [row|] eqn:Erow; [|discriminate].
    intros Hrest. destruct (IH _ _ _ Hrest) as (new_lines & -> & Hitems & Hnum).
    exists (row :: new_lines).
    split; [now rewrite with_invoice_lines_cons|].
    unfold InvoiceLine.stored in Erow. cbn in Erow.
    destruct (Sql.real (unit_price item)) as [price|] eqn:Eprice;
      [|discriminate].
    destruct (Sql.real (line_total item)) as [total|] eqn:Etotal;
      [|discriminate].
    injection Erow as <-. split.
    + constructor; [|exact Hitems]. unfold row_of_item. cbn.
      now rewrite Eprice, Etotal.
    + split; [reflexivity | exact Hnum].
Qed.

Lemma fold_max_above (id : Z) (rest : list Z) (x : Z) :
  In x (id :: rest) -> x <= fold_right Z.max id rest.
Proof.
  induction rest as [|z t IH]; simpl.
  - intros [->|[]]. lia.
  - intros [->|[->|H]].
    + specialize (IH (or_introl eq_refl)). lia.
    + lia.
    + specialize (IH (or_intror H)). lia.
Qed.

Lemma next_id_above (ids : list Z) (x : Z) : In x ids -> x < next_id ids.
Proof.
  unfold next_id. destruct ids as [|y t]; [intros []|].
  intros H. apply fold_max_above in H. lia.
Qed.

(** A successful run of [generate_invoice], step by step. *)
Lemma generate_invoice_inv shipment_id today db db' invoice :
  generate_invoice shipment_id today db = (db', inr invoice) ->
  exists shipment client rate_card new_lines,
    Sql.first (filter (fun s => Shipment.id s =? shipment_id) (shipments db))
    = Some shipment
    /\ Sql.first (filter (fun i => Sql.opt_eqb Z.eqb (Invoice.shipment_id i)
                                     (Some shipment_id)) (invoices db)) = None
    /\ Sql.first (filter (fun c => Sql.opt_eqb Z.eqb (Some (Client.id c))
                                     (bill_to_client_id shipment)) (clients db))
       = Some client
    /\ find_rate_card db (Shipment.origin_port_id shipment)
         (Shipment.destination_port_id shipment)
         (Shipment.container_type shipment) = Some rate_card
    /\ str_in (get_next_invoice_number db)
              (map Invoice.invoice_number (invoices db)) = false
    /\ 1 <= today + Py.int_or (Client.payment_terms_days client) 30 <= DATE_MAX
    /\ Invoice.stored
         (Invoice.mk (next_id (map Invoice.id (invoices db)))
            (get_next_invoice_number db) (Some shipment_id)
            (Some (Client.id client)) today
            (today + Py.int_or (Client.payment_terms_days client) 30)
            (Py.round2 (Py.sum (map line_total
                                    (line_items_of db shipment rate_card))))
            (Some (Py.round2 0))
            (Py.round2 (Py.sum (map line_total
                                    (line_items_of db shipment rate_card)) + 0)%float)
            (Some 0%float)
            (Py.round2 (Py.sum (map line_total
                                    (line_items_of db shipment rate_card)) + 0)%float)
            "draft")
       = Some invoice
    /\ db' = with_invoice_lines (fun rows => rows ++ new_lines)
               (with_invoices (fun rows => rows ++ [invoice]) db)
    /\ Forall2 (row_of_item (Invoice.id invoice)) new_lines
         (line_items_of db shipment rate_card)
    /\ numbered_from 1 new_lines.
Proof.
  unfold generate_invoice, bind at 1 2 3 4 5 6 7, query, raise.
  destruct (Sql.first (filter _ (shipments db))) as [shipment|];
    [|discriminate].
  destruct (Sql.first (filter _ (invoices db))) as [existing|];
    [discriminate|].
  fold (bill_to_client_id shipment).
  destruct (Sql.first (filter _ (clients db))) as [client|] eqn:Eclient;
    [|discriminate].
  destruct (find_rate_card db _ _ _) as [rate_card|] eqn:Erate; [|discriminate].
  fold (line_items_of db shipment rate_card).
  unfold date_add.
  destruct (_ && _) eqn:Edate; [|discriminate].
  unfold ret at 1, transaction, bind at 1, add_invoice.
  destruct (Invoice.stored _) as [row|] eqn:Erow; [|discriminate].
  cbn [Invoice.stored] in Erow.
  assert (Hnumber : Invoice.invoice_number row = get_next_invoice_number db).
  { unfold Invoice.stored in Erow. cbn in Erow.
    destruct (Sql.real _); [|discriminate].
    destruct (Sql.real _); [|discriminate].
    now injection Erow as <-. }
  rewrite Hnumber.
  destruct (str_in _ _) eqn:Enum; [discriminate|].
  unfold bind, ret.
  destruct (add_invoice_lines _ _ _ _) as [db1 [e|[]]] eqn:Elines;
    [discriminate|].
  intros [= <- <-].
  destruct (add_invoice_lines_inv _ _ _ _ Elines)
    as (new_lines & -> & Hitems & Hnum).
  exists shipment, client, rate_card, new_lines.
  split; [reflexivity|]. split; [reflexivity|]. split; [exact Eclient|].
  split; [exact Erate|]. split; [first [exact Enum | reflexivity]|].
  apply andb_prop in Edate. destruct Edate as [E1 E2].
  apply Z.leb_le in E1. apply Z.leb_le in E2.
  split; [lia|]. split; [first [exact Erow | reflexivity]|].
  split; [reflexivity|].
  split; assumption.
Qed.

(** The row an INSERT stores keeps the texts, keys and dates of the
    object, and holds its numbers as a REAL column does. *)
Lemma stored_invoice_fields (i row : Invoice.t) :
  Invoice.stored i = Some row ->
  Invoice.id row = Invoice.id i
  /\ Invoice.invoice_number row = Invoice.invoice_number i
  /\ Invoice.shipment_id row = Invoice.shipment_id i
  /\ Invoice.client_id row = Invoice.client_id i
  /\ Invoice.issue_date row = Invoice.issue_date i
  /\ Invoice.due_date row = Invoice.due_date i
  /\ Some (Invoice.subtotal row) = Sql.real (Invoice.subtotal i)
  /\ Invoice.tax_amount row = Sql.nullable_real (Invoice.tax_amount i)
  /\ Some (Invoice.total_amount row) = Sql.real (Invoice.total_amount i)
  /\ Invoice.amount_paid row = Sql.nullable_real (Invoice.amount_paid i)
  /\ Some (Invoice.balance_due row) = Sql.real (Invoice.balance_due i)
  /\ Invoice.status row = Invoice.status i.
Proof.
  unfold Invoice.stored.
  destruct (Sql.real (Invoice.subtotal i)); [|discriminate].
  destruct (Sql.real (Invoice.total_amount i)); [|discriminate].
  destruct (Sql.real (Invoice.balance_due i)); [|discriminate].
  intros [= <-]. cbn. repeat split.
Qed.

(** X4.  A successful [generate_invoice] creates the invoice and its
    lines together and nothing else.  The shipment exists and had no
    invoice; the client is the bill-to party; the new invoice is the
    last row of the invoice table, with a key above every other, the
    next invoice number, status draft, nothing paid, the balance equal
    to the total, issued today and due after the client's payment
    terms (30 days when unset); its subtotal and total are the rounded
    sum of the line totals; the line table gains one row per calculated
    line item, in order and numbered from 1, each tied to the new
    invoice; every other table is unchanged.  The numbers are those the
    REAL columns hold: the computed values, a zero without its sign. *)
Theorem generate_creates_invoice_with_lines :
  forall shipment_id today db db' invoice,
    generate_invoice shipment_id today db = (db', inr invoice) ->
    exists shipment client rate_card new_lines,
      In shipment (shipments db) /\ Shipment.id shipment = shipment_id
      /\ ~ invoiced db shipment_id
      /\ In client (clients db)
      /\ Some (Client.id client) = bill_to_client_id shipment
      /\ find_rate_card db (Shipment.origin_port_id shipment)
           (Shipment.destination_port_id shipment)
           (Shipment.container_type shipment) = Some rate_card
      /\ invoices db' = invoices db ++ [invoice]
      /\ (forall i, In i (invoices db) -> Invoice.id i < Invoice.id invoice)
      /\ Invoice.invoice_number invoice = get_next_invoice_number db
      /\ Invoice.shipment_id invoice = Some shipment_id
      /\ Invoice.client_id invoice = Some (Client.id client)
      /\ Invoice.status invoice = "draft"
      /\ Invoice.amount_paid invoice = Some 0%float
      /\ Invoice.balance_due invoice = Invoice.total_amount invoice
      /\ Invoice.issue_date invoice = today
      /\ Invoice.due_date invoice
         = today + Py.int_or (Client.payment_terms_days client) 30
      /\ invoice_lines db' = invoice_lines db ++ new_lines
      /\ Forall2 (row_of_item (Invoice.id invoice)) new_lines
           (calculate_line_items shipment rate_card
              (get_applicable_surcharges db (Shipment.origin_port_id shipment)
                 (Shipment.destination_port_id shipment)
                 (Shipment.container_type shipment)))
      /\ numbered_from 1 new_lines
      /\ Some (Invoice.subtotal invoice)
         = Sql.real
             (Py.round2
                (Py.sum
                   (map line_total
                      (calculate_line_items shipment rate_card
                         (get_applicable_surcharges db
                            (Shipment.origin_port_id shipment)
                            (Shipment.destination_port_id shipment)
                            (Shipment.container_type shipment))))))
      /\ Some (Invoice.total_amount invoice)
         = Sql.real
             (Py.round2
                (Py.sum
                   (map line_total
                      (calculate_line_items shipment rate_card
                         (get_applicable_surcharges db
                            (Shipment.origin_port_id shipment)
                            (Shipment.destination_port_id shipment)
                            (Shipment.container_type shipment)))) + 0)%float)
      /\ ports db' = ports db /\ rate_cards db' = rate_cards db
      /\ surcharges db' = surcharges db /\ clients db' = clients db
      /\ shipments db' = shipments db /\ payments db' = payments db.
Proof.
  intros shipment_id today db db' invoice Hrun.
  destruct (generate_invoice_inv _ _ _ Hrun)
    as (shipment & client & rate_card & new_lines & Hship & Hnone & Hclient
        & Hrate & _ & _ & Hinv & Hdb & Hitems & Hnum).
  exists shipment, client, rate_card, new_lines.
  apply first_filter_In in Hship. destruct Hship as [Hship_in Hship_id].
  apply Z.eqb_eq in Hship_id.
  apply first_filter_In in Hclient. destruct Hclient as [Hclient_in Hclient_id].
  apply opt_eqb_Z in Hclient_id.
  destruct (stored_invoice_fields _ Hinv)
    as (Fid & Fnumber & Fship & Fclient & Fissue & Fdue & Fsub & _ & Ftotal
        & Fpaid & Fbalance & Fstatus).
  cbn in Fid, Fnumber, Fship, Fclient, Fissue, Fdue, Fsub, Ftotal, Fpaid,
    Fbalance, Fstatus.
  split; [exact Hship_in|]. split; [exact Hship_id|]. split.
  { intros (i & Hi & Hi_ship).
    pose proof (first_filter_none_all _ _ Hnone i Hi) as Hf. simpl in Hf.
    apply (proj2 (opt_eqb_Z _ _)) in Hi_ship. congruence. }
  split; [exact Hclient_in|]. split; [exact Hclient_id|].
  split; [exact Hrate|].
  split; [rewrite Hdb; now destruct db|].
  split.
  { intros i Hi. rewrite Fid. apply next_id_above. now apply in_map. }
  split; [exact Fnumber|]. split; [exact Fship|]. split; [exact Fclient|].
  split; [exact Fstatus|]. split; [exact Fpaid|].
  split; [rewrite <- Ftotal in Fbalance; now injection Fbalance|].
  split; [exact Fissue|]. split; [exact Fdue|].
  split; [rewrite Hdb; now destruct db|].
  split; [exact Hitems|]. split; [exact Hnum|].
  split; [exact Fsub|]. split; [exact Ftotal|].
  rewrite Hdb. destruct db. repeat split.
Qed.

Lemma generate_creates_invoice_with_lines_witness :
  exists db' invoice,
    generate_invoice 1 739100 (ex_booked []) = (db', inr invoice)
    /\ invoices db' = [invoice]
    /\ Invoice.status invoice = "draft"
    /\ Invoice.balance_due invoice = Invoice.total_amount invoice.
Proof.
  assert (Hrun : exists db' invoice,
             generate_invoice 1 739100 (ex_booked []) = (db', inr invoice)).
  { do 2 eexists. vm_compute. reflexivity. }
  destruct Hrun as (db' & invoice & Hrun).
  destruct (@generate_creates_invoice_with_lines 1 739100 (ex_booked []) db'
              invoice Hrun)
    as (shipment & client & rate_card & new_lines & _ & _ & _ & _ & _ & _
        & Hinvoices & _ & _ & _ & _ & Hstatus & _ & Hbalance & _).
  exists db', invoice. split; [exact Hrun|].
  split; [exact Hinvoices|]. split; [exact Hstatus | exact Hbalance].
Defined.

(** X6.  After a successful [generate_invoice] for a shipment, a second
    call for the same shipment, on whatever day, fails with the
    Conflict error that names the invoice just created, and changes
    nothing. *)
Theorem generate_twice_conflicts :
  forall shipment_id today db db' invoice,
    generate_invoice shipment_id today db = (db', inr invoice) ->
    forall today',
      generate_invoice shipment_id today' db'
      = (db', inl (Conflict shipment_id (Invoice.invoice_number invoice))).
Proof.
  intros shipment_id today db db' invoice Hrun today'.
  destruct (generate_invoice_inv _ _ _ Hrun)
    as (shipment & client & rate_card & new_lines & Hship & Hnone & _ & _ & _
        & _ & Hinv & Hdb & _).
  assert (Hshipments : shipments db' = shipments db)
    by (rewrite Hdb; now destruct db).
  assert (Hinvoices : invoices db' = invoices db ++ [invoice])
    by (rewrite Hdb; now destruct db).
  assert (Hmatch : Sql.opt_eqb Z.eqb (Invoice.shipment_id invoice)
                     (Some shipment_id) = true).
  { destruct (stored_invoice_fields _ Hinv) as (_ & _ & -> & _).
    simpl. apply Z.eqb_refl. }
  unfold generate_invoice, bind, query, raise, Conflict.
  rewrite Hshipments, Hship, Hinvoices, filter_app.
  assert (Hold : filter (fun i => Sql.opt_eqb Z.eqb (Invoice.shipment_id i)
                                    (Some shipment_id)) (invoices db) = []).
  { destruct (filter _ (invoices db)); [reflexivity | discriminate]. }
  rewrite Hold. simpl. rewrite Hmatch. reflexivity.
Qed.

Lemma generate_twice_conflicts_witness :
  exists db' invoice,
    generate_invoice 1 739100 (ex_booked []) = (db', inr invoice)
    /\ generate_invoice 1 739200 db'
       = (db', inl (ValueError "Shipment 1 already has invoice INV-2026-0001")).
Proof.
  assert (Hrun : exists db' invoice,
             generate_invoice 1 739100 (ex_booked []) = (db', inr invoice)
             /\ Invoice.invoice_number invoice = "INV-2026-0001").
  { do 2 eexists. split; vm_compute; reflexivity. }
  destruct Hrun as (db' & invoice & Hrun & Hnumber).
  exists db', invoice. split; [exact Hrun|].
  rewrite (@generate_twice_conflicts 1 739100 (ex_booked []) db' invoice Hrun
             739200).
  rewrite Hnumber. reflexivity.
Defined.

(** ** Generate: the other failures *)


(** ** Invoice numbers stay unique below 9999 *)





(** Past 9999 the text maximum is no longer the greatest sequence: with
    9999 and 10000 stored the next number is 10000 again and the insert
    is refused. *)
Example numbering_wraps_after_9999 :
  get_next_invoice_number (ex_numbered ["INV-2026-9999"; "INV-2026-10000"])
  = "INV-2026-10000"
  /\ snd (generate_invoice 1 739100
            (ex_booked [Invoice.mk 1 "INV-2026-9999" None None 739000 739030
                          0 None 0 None 0 "paid";
                        Invoice.mk 2 "INV-2026-10000" None None 739000 739030
                          0 None 0 None 0 "paid"]))
     = inl IntegrityError.
Proof. split; vm_compute; reflexivity. Qed.

(** ** Apply Payment: the failures and the frame *)


Lemma record_payment_not_found db invoice_id amount payment_date method
    reference notes :
  get_invoice db invoice_id = None ->
  record_payment invoice_id amount payment_date method reference notes db
  = (db, inl (ValueError ("Invoice with id " ++ Py.str_of_int invoice_id
                          ++ " not found"))).
Proof.
  unfold get_invoice. intros Hget.
  unfold record_payment, bind, query, raise, load.
  rewrite load_from_all_false; [reflexivity|].
  exact (first_filter_none_all _ _ Hget).
Qed.


(** A payment of 40 on an invoice of 100 is stored; one that is not a
    number is refused by the column of the balance, and the store is as
    before. *)
Example record_payment_not_a_number :
  (exists db',
     record_payment 1 40 739010 "check" "CHK-1" ""
       (ex_store [ex_invoice "sent" 100 0 100])
     = (db', inr (Payment.mk 1 (Some 1) 739010 40 (Some "check")
                    (Some "CHK-1") (Some ""))))
  /\ record_payment 1 nan 739010 "check" "CHK-1" ""
       (ex_store [ex_invoice "sent" 100 0 100])
     = (ex_store [ex_invoice "sent" 100 0 100], inl IntegrityError_NotNull)
  /\ record_payment 2 40 739010 "check" "CHK-1" ""
       (ex_store [ex_invoice "sent" 100 0 100])
     = (ex_store [ex_invoice "sent" 100 0 100],
        inl (ValueError "Invoice with id 2 not found")).
Proof.
  split; [eexists; vm_compute; reflexivity|].
  split; vm_compute; reflexivity.
Qed.

(** X9.  A successful [record_payment] replaces the first invoice with
    the given id by the row with the new amount paid, balance and
    status, and appends one payment with a new key that carries the
    arguments of the call, the amount as the column holds it.  The
    invoice keeps its id, number, shipment, client, dates, subtotal,
    tax and total; every other invoice, earlier payment and table is as
    before. *)
Theorem record_payment_frame :
  forall db invoice_id amount payment_date method reference notes db' payment,
    record_payment invoice_id amount payment_date method reference notes db
    = (db', inr payment) ->
    exists pre invoice post,
      invoices db = pre ++ invoice :: post
      /\ Invoice.id invoice = invoice_id
      /\ (forall i, In i pre -> Invoice.id i <> invoice_id)
      /\ invoices db' = pre ++ invoice_after amount invoice :: post
      /\ payment = Payment.mk (next_id (map Payment.id (payments db)))
                     (Some invoice_id) payment_date
                     (if is_zero amount then 0%float else amount)
                     (Some method) (Some reference) (Some notes)
      /\ is_nan amount = false
      /\ payments db' = payments db ++ [payment]
      /\ (forall p, In p (payments db) -> Payment.id p < Payment.id payment)
      /\ (let invoice' := invoice_after amount invoice in
          Invoice.id invoice' = Invoice.id invoice
          /\ Invoice.invoice_number invoice' = Invoice.invoice_number invoice
          /\ Invoice.shipment_id invoice' = Invoice.shipment_id invoice
          /\ Invoice.client_id invoice' = Invoice.client_id invoice
          /\ Invoice.issue_date invoice' = Invoice.issue_date invoice
          /\ Invoice.due_date invoice' = Invoice.due_date invoice
          /\ Invoice.subtotal invoice' = Invoice.subtotal invoice
          /\ Invoice.tax_amount invoice' = Invoice.tax_amount invoice
          /\ Invoice.total_amount invoice' = Invoice.total_amount invoice
          /\ Invoice.amount_paid invoice'
             = Sql.real (new_amount_paid amount invoice)
          /\ Invoice.balance_due invoice'
             = Py.max 0 (new_balance amount invoice)
          /\ Invoice.status invoice' = status_after amount invoice)
      /\ ports db' = ports db /\ rate_cards db' = rate_cards db
      /\ surcharges db' = surcharges db /\ clients db' = clients db
      /\ shipments db' = shipments db /\ invoice_lines db' = invoice_lines db.
Proof.
  intros db invoice_id amount payment_date method reference notes db' payment.
  destruct (get_invoice db invoice_id) as [invoice|] eqn:Hget.
  - destruct (@record_payment_run db invoice_id amount payment_date method
                reference notes invoice Hget) as (pre & post & Hrows & Hpre & Hid & Hrun).
    rewrite Hrun.
    destruct (is_nan (new_balance amount invoice)) eqn:Hnan; [discriminate|].
    intros [= <- <-]. exists pre, invoice, post.
    split; [exact Hrows|]. split; [exact Hid|].
    split.
    { intros i Hi. apply Z.eqb_neq. exact (filter_nil_all _ _ Hpre i Hi). }
    split; [reflexivity|]. split; [reflexivity|].
    split.
    { apply sub_of_nan in Hnan. destruct Hnan as [_ Hnan].
      now apply add_of_nan in Hnan. }
    split; [reflexivity|].
    split.
    { intros p Hp. unfold payment_row. cbn [Payment.id].
      apply next_id_above. now apply in_map. }
    split; [cbv zeta; unfold invoice_after; cbn; repeat split|].
    repeat split.
  - rewrite (@record_payment_not_found db invoice_id amount payment_date method
               reference notes Hget). discriminate.
Qed.

Lemma record_payment_frame_witness :
  exists db' payment,
    record_payment 1 40 739010 "check" "CHK-1" ""
      (ex_store [ex_invoice "sent" 100 0 100]) = (db', inr payment)
    /\ payments db' = [payment]
    /\ Payment.id payment = 1.
Proof.
  assert (Hrun : exists db' payment,
             record_payment 1 40 739010 "check" "CHK-1" ""
               (ex_store [ex_invoice "sent" 100 0 100]) = (db', inr payment)).
  { do 2 eexists. vm_compute. reflexivity. }
  destruct Hrun as (db' & payment & Hrun).
  destruct (@record_payment_frame (ex_store [ex_invoice "sent" 100 0 100]) 1 40
              739010 "check" "CHK-1" "" db' payment Hrun)
    as (pre & invoice & post & _ & _ & _ & _ & Hpayment & _ & Hpayments & _).
  exists db', payment. split; [exact Hrun|]. split; [exact Hpayments|].
  rewrite Hpayment. reflexivity.
Defined.

(** The table holds a zero without its sign: the payment read back
    after a payment of -0.0 carries 0.0. *)
Example record_payment_negative_zero :
  exists db' payment,
    record_payment 1 (-0) 739010 "check" "CHK-1" ""
      (ex_store [ex_invoice "sent" 100 0 100]) = (db', inr payment)
    /\ Prim2SF (Payment.amount payment) = S754_zero false.
Proof. do 2 eexists. split; vm_compute; reflexivity. Qed.

(** ** Sweep Overdue: a second sweep *)

Lemma swept_not_overdue today today' i :
  today' <= today -> is_overdue today' (swept today i) = false.
Proof.
  intros Hle. destruct (is_overdue today' (swept today i)) eqn:E; [|reflexivity].
  apply is_overdue_iff in E. destruct E as [Hs Hd].
  unfold swept in Hs, Hd. destruct (is_overdue today i) eqn:E'.
  - discriminate.
  - assert (is_overdue today i = true); [|congruence].
    apply is_overdue_iff. split; [exact Hs | lia].
Qed.

Lemma swept_idem today today' i :
  today' <= today -> swept today' (swept today i) = swept today i.
Proof.
  intros Hle. unfold swept at 1. now rewrite swept_not_overdue.
Qed.

Lemma filter_swept today today' rows :
  today' <= today ->
  filter (is_overdue today') (map (swept today) rows) = [].
Proof.
  intros Hle. induction rows as [|x t IH]; simpl; [reflexivity|].
  now rewrite swept_not_overdue.
Qed.

Lemma check_overdue_run today db :
  check_overdue today db
  = (with_invoices (fun _ => map (swept today) (invoices db)) db,
     inr (Z.of_nat (List.length (filter (is_overdue today) (invoices db))))).
Proof.
  unfold check_overdue, bind, query.
  exact (@mark_overdue_run today (invoices db) [] 0 db eq_refl).
Qed.

(** X10.  After [check_overdue] has run, a second run on the same day or
    an earlier one finds nothing: it returns 0 and leaves the store as
    the first run left it.  No invoice is still sent and past due after
    the sweep. *)
Theorem check_overdue_twice :
  forall today db db' n,
    check_overdue today db = (db', inr n) ->
    (forall today', today' <= today -> check_overdue today' db' = (db', inr 0))
    /\ forall i, In i (invoices db') ->
         ~ (Invoice.status i = "sent" /\ Invoice.due_date i < today).
Proof.
  intros today db db' n. rewrite check_overdue_run. intros [= <- _].
  split.
  - intros today' Hle. rewrite check_overdue_run.
    assert (Hmap : map (swept today')
                     (invoices (with_invoices
                        (fun _ => map (swept today) (invoices db)) db))
                   = map (swept today) (invoices db)).
    { cbn [with_invoices invoices]. rewrite map_map. apply map_ext.
      intros i. now apply swept_idem. }
    assert (Hnone : filter (is_overdue today')
                      (invoices (with_invoices
                         (fun _ => map (swept today) (invoices db)) db)) = []).
    { cbn [with_invoices invoices]. now apply filter_swept. }
    rewrite Hmap, Hnone, with_invoices_const. reflexivity.
  - intros i Hi Hsent. cbn [with_invoices invoices] in Hi.
    apply in_map_iff in Hi. destruct Hi as (x & <- & _).
    apply is_overdue_iff in Hsent.
    rewrite swept_not_overdue in Hsent by lia. discriminate.
Qed.

Lemma check_overdue_twice_witness :
  exists db',
    check_overdue 739100 (ex_store [ex_invoice "sent" 100 0 100]) = (db', inr 1)
    /\ check_overdue 739100 db' = (db', inr 0).
Proof.
  assert (Hrun : exists db',
             check_overdue 739100 (ex_store [ex_invoice "sent" 100 0 100])
             = (db', inr 1)).
  { eexists. vm_compute. reflexivity. }
  destruct Hrun as (db' & Hrun). exists db'. split; [exact Hrun|].
  exact (proj1 (@check_overdue_twice 739100
                  (ex_store [ex_invoice "sent" 100 0 100]) db' 1 Hrun)
               739100 (Z.le_refl 739100)).
Defined.

(** ** Rate Resolver: what it can return *)

(** X11.  Whatever tier answers, the card [find_rate_card] returns is a
    row of the rate-card table, is active and has the requested
    container type; and when the table holds no active card of that
    container type the resolver returns nothing. *)
Theorem find_rate_card_sound :
  forall db origin dest container_type,
    (forall rc, find_rate_card db origin dest container_type = Some rc ->
                In rc (rate_cards db) /\ usable container_type rc)
    /\ ((forall rc, In rc (rate_cards db) -> ~ usable container_type rc) ->
        find_rate_card db origin dest container_type = None).
Proof.
  intros db origin dest container_type.
  assert (Hsound : forall rc, find_rate_card db origin dest container_type = Some rc ->
                In rc (rate_cards db) /\ usable container_type rc).
  { intros rc. unfold find_rate_card.
    pose proof (latest_rate_card_spec db
                  (exact_filter origin dest container_type)
                  (tier1 db origin dest container_type)
                  (fun rc => exact_filter_iff db origin dest container_type rc))
      as H1.
    destruct (latest_rate_card db (exact_filter origin dest container_type))
      as [rc1|].
    { intros [= <-]. destruct H1 as [(Hin & _ & _ & Hu) _]. now split. }
    destruct (get_port db origin) as [origin_port|]; [|discriminate].
    pose proof (latest_rate_card_spec db
                  (region_filter (region_ids db (Port.region origin_port)) dest
                     container_type)
                  (tier2 db (Port.region origin_port) dest container_type)
                  (fun rc => region_filter_iff db (Port.region origin_port) dest
                               container_type rc)) as H2.
    destruct (latest_rate_card db (region_filter _ dest container_type))
      as [rc2|].
    { intros [= <-]. destruct H2 as [(Hin & _ & _ & Hu) _]. now split. }
    destruct (get_port db dest) as [dest_port|]; [|discriminate].
    pose proof (latest_rate_card_spec db
                  (broad_filter (region_ids db (Port.region origin_port))
                     (region_ids db (Port.region dest_port)) container_type)
                  (tier3 db (Port.region origin_port) (Port.region dest_port)
                     container_type)
                  (fun rc => broad_filter_iff db (Port.region origin_port)
                               (Port.region dest_port) container_type rc)) as H3.
    destruct (latest_rate_card db (broad_filter _ _ container_type)) as [rc3|].
    { intros [= <-]. destruct H3 as [(Hin & _ & _ & Hu) _]. now split. }
    discriminate. }
  split; [exact Hsound|].
  intros Hnone.
  destruct (find_rate_card db origin dest container_type) as [rc|] eqn:E;
    [|reflexivity].
  destruct (Hsound rc eq_refl) as [Hin Hu]. now elim (Hnone rc Hin).
Qed.

(** ** The routes *)



Lemma invoiced_first (db : DB) (shipment_id : Z) :
  invoiced db shipment_id ->
  exists i,
    Sql.first (filter (fun i => Sql.opt_eqb Z.eqb (Invoice.shipment_id i)
                                  (Some shipment_id)) (invoices db)) = Some i.
Proof.
  intros (i & Hi & Hship).
  destruct (first_filter_Some
              (fun i => Sql.opt_eqb Z.eqb (Invoice.shipment_id i) (Some shipment_id))
              (invoices db) i Hi (proj2 (opt_eqb_Z _ _) Hship)) as (y & Hy & _).
  now exists y.
Qed.

(** X13.  Voiding does not make a shipment billable again: after
    [void_invoice], for any shipment that had an invoice,
    [generate_invoice] still fails with a ValueError and creates
    nothing. *)
Theorem void_keeps_shipment_invoiced :
  forall db invoice_id db' response shipment_id today,
    InvoicesRouter.void_invoice invoice_id db = (db', inr response) ->
    invoiced db shipment_id ->
    exists msg,
      generate_invoice shipment_id today db' = (db', inl (ValueError msg)).
Proof.
  intros db invoice_id db' response shipment_id today Hvoid Hinv.
  assert (Hinv' : invoiced db' shipment_id).
  { revert Hvoid. unfold InvoicesRouter.void_invoice.
    destruct (load _ (invoices db)) as [[row invoice]|] eqn:Eload; [|discriminate].
    intros [= <- _].
    destruct (load_split _ _ Eload) as (pre & post & Hrows & -> & _ & _).
    destruct Hinv as (i & Hi & Hship). unfold invoiced.
    cbn [with_invoices invoices].
    rewrite Hrows, update_at_app. rewrite Hrows in Hi.
    apply in_app_or in Hi. destruct Hi as [Hi|[<-|Hi]].
    - exists i. split; [apply in_or_app; now left | exact Hship].
    - exists (Invoice.set_status "void" invoice).
      split; [apply in_or_app; right; now left | exact Hship].
    - exists i. split; [apply in_or_app; right; now right | exact Hship]. }
  destruct (invoiced_first Hinv') as (existing & Hexisting).
  unfold generate_invoice, bind, query, raise.
  destruct (Sql.first (filter _ (shipments db'))); [|now eexists].
  rewrite Hexisting. now eexists.
Qed.

Lemma void_keeps_shipment_invoiced_witness :
  exists db' response msg,
    InvoicesRouter.void_invoice 1
      (ex_booked [ex_invoice "sent" 100 0 100]) = (db', inr response)
    /\ generate_invoice 1 739100 db' = (db', inl (ValueError msg)).
Proof.
  assert (Hrun : exists db' response,
             InvoicesRouter.void_invoice 1
               (ex_booked [ex_invoice "sent" 100 0 100]) = (db', inr response)).
  { do 2 eexists. vm_compute. reflexivity. }
  destruct Hrun as (db' & response & Hrun).
  destruct (@void_keeps_shipment_invoiced
              (ex_booked [ex_invoice "sent" 100 0 100]) 1 db' response 1 739100
              Hrun
              (ex_intro _ (ex_invoice "sent" 100 0 100)
                        (conj (or_introl eq_refl) eq_refl))) as (msg & Hmsg).
  exists db', response, msg. split; [exact Hrun | exact Hmsg].
Defined.

(** ** The payment route and the payment service *)










(** A payment that is not a number is refused by both. *)
Example create_payment_not_a_number :
  PaymentsRouter.create_payment
    (PaymentCreate.mk 1 739010 nan (Some "check") (Some "CHK-1") (Some ""))
    (ex_store [ex_invoice "sent" 100 0 100])
  = (ex_store [ex_invoice "sent" 100 0 100],
     inl (Uncaught IntegrityError_NotNull)).
Proof. vm_compute. reflexivity. Qed.

(** ** Reading a generated invoice back *)

Lemma order_by_asc_numbered (rows : list InvoiceLine.t) :
  forall idx, numbered_from idx rows ->
    order_by_asc InvoiceLine.line_order rows = rows.
Proof.
  induction rows as [|x t IH]; intros idx Hnum; [reflexivity|].
  destruct Hnum as [Hx Ht]. cbn [order_by_asc]. rewrite (IH _ Ht).
  destruct t as [|y t']; [reflexivity|].
  destruct Ht as [Hy _]. cbn [insert_asc].
  replace (InvoiceLine.line_order x <=? InvoiceLine.line_order y) with true;
    [reflexivity|].
  symmetry. apply Z.leb_le. lia.
Qed.

(** A product or a rounded value that is a number comes from numbers. *)
Lemma mul_of_nan (a b : float) :
  is_nan (a * b) = false -> is_nan a = false /\ is_nan b = false.
Proof.
  intros H. pose proof (Prim2SF_not_nan (a * b) H) as Hn.
  rewrite mul_spec in Hn. split.
  - destruct (is_nan a) eqn:E; [|reflexivity]. elim Hn.
    rewrite (is_nan_true_Prim2SF a E). reflexivity.
  - destruct (is_nan b) eqn:E; [|reflexivity]. elim Hn.
    rewrite (is_nan_true_Prim2SF b E).
    now destruct (Prim2SF a) as [[]|[]| |[] m e].
Qed.

Lemma round2_of_nan (x : float) :
  is_nan (Py.round2 x) = false -> is_nan x = false.
Proof.
  destruct (is_nan x) eqn:E; [|reflexivity].
  unfold Py.round2. rewrite (is_nan_true_Prim2SF x E). congruence.
Qed.

(** In a line whose total is a number the quantity is a number: it is
    1, or a factor of the total. *)
Lemma quantity_number shipment rate_card surcharges item :
  In item (calculate_line_items shipment rate_card surcharges) ->
  is_nan (line_total item) = false -> is_nan (quantity item) = false.
Proof.
  rewrite calculate_line_items_eq. intros [<-|Hin].
  - unfold ocean_freight_line, ocean_freight_total.
    destruct (is_lcl shipment); cbn [line_total quantity]; intros H;
      apply round2_of_nan, mul_of_nan in H; apply H.
  - apply surcharge_line_In in Hin. destruct Hin as (s & _ & Hline).
    unfold surcharge_line in Hline.
    destruct (_ && negb _)%bool.
    { injection Hline as <-. cbn [line_total quantity]. intros H.
      apply round2_of_nan, mul_of_nan in H. apply H. }
    destruct (_ && is_lcl shipment)%bool.
    { injection Hline as <-. cbn [line_total quantity]. intros H.
      apply round2_of_nan, mul_of_nan in H. apply H. }
    destruct (String.eqb (Surcharge.calculation_type s) "fixed").
    { destruct (_ && _)%bool;
        [destruct (_ <=? _)%float; [discriminate|]|];
        injection Hline as <-; reflexivity. }
    destruct (String.eqb (Surcharge.calculation_type s) "percentage");
      [|discriminate].
    injection Hline as <-. reflexivity.
Qed.

Lemma real_Some_number (x y : float) :
  Some y = Sql.real x -> is_nan x = false.
Proof. unfold Sql.real. destruct (is_nan x); [discriminate | reflexivity]. Qed.

Lemma rows_of_items_pass (invoice_id : Z) (rows : list InvoiceLine.t)
    (items : list LineItem) :
  Forall2 (row_of_item invoice_id) rows items ->
  (forall item, In item items ->
     is_nan (line_total item) = false -> is_nan (quantity item) = false) ->
  filter (fun l => Sql.opt_eqb Z.eqb (InvoiceLine.invoice_id l) (Some invoice_id))
         rows = rows
  /\ forallb InvoicesRouter.valid_line rows = true.
Proof.
  induction 1 as [|row item rows items Hrow _ IH]; intros Hq; [now split|].
  destruct IH as [IHf IHv]; [intros i Hi; apply Hq; now right|].
  destruct Hrow as (Hid & _ & _ & Hquantity & _ & Htotal).
  cbn [filter forallb].
  unfold InvoicesRouter.valid_line at 1. rewrite Hid, Hquantity, IHf, IHv.
  rewrite (real_of_number _ (Hq item (or_introl eq_refl)
                               (real_Some_number _ Htotal))).
  cbn [Sql.opt_eqb]. now rewrite Z.eqb_refl.
Qed.

Lemma first_filter_ext {A} (p q : A -> bool) (l : list A) :
  (forall x, p x = q x) -> Sql.first (filter p l) = Sql.first (filter q l).
Proof. intros H. now rewrite (filter_ext _ _ H). Qed.

(** X15.  An invoice that [generate_invoice] has created reads back
    through [GET /api/invoices/{invoice_id}], provided the lines already
    stored name existing invoices only: the route answers with the
    invoice as created and with exactly the lines calculated for the
    shipment, in the order of the calculation and numbered from 1; the
    booking number is that of the shipment and the client name that of
    the bill-to client, unless the key is 0, which the route takes for
    no key.  The numbers of the lines are those the table holds; every
    stored line has a quantity, so the answer passes validation. *)
Theorem generated_invoice_reads_back :
  forall shipment_id today db db' invoice,
    lines_reference_invoices db ->
    generate_invoice shipment_id today db = (db', inr invoice) ->
    exists shipment client rate_card detail,
      Sql.first (filter (fun s => Shipment.id s =? shipment_id) (shipments db))
      = Some shipment
      /\ In client (clients db)
      /\ Some (Client.id client) = bill_to_client_id shipment
      /\ find_rate_card db (Shipment.origin_port_id shipment)
           (Shipment.destination_port_id shipment)
           (Shipment.container_type shipment) = Some rate_card
      /\ InvoicesRouter.get_invoice (Invoice.id invoice) db' = (db', inr detail)
      /\ InvoicesRouter.invoice detail = invoice
      /\ Forall2 (row_of_item (Invoice.id invoice)) (InvoicesRouter.lines detail)
           (calculate_line_items shipment rate_card
              (get_applicable_surcharges db (Shipment.origin_port_id shipment)
                 (Shipment.destination_port_id shipment)
                 (Shipment.container_type shipment)))
      /\ numbered_from 1 (InvoicesRouter.lines detail)
      /\ InvoicesRouter.booking_number detail
         = (if shipment_id =? 0 then None
            else Some (Shipment.booking_number shipment))
      /\ InvoicesRouter.client_name detail
         = (if Client.id client =? 0 then None
            else Some (Client.company_name client)).
Proof.
  intros shipment_id today db db' invoice Hfk Hrun.
  destruct (generate_invoice_inv _ _ _ Hrun)
    as (shipment & client & rate_card & new_lines & Hship & Hnone & Hclient
        & Hrate & _ & _ & Hinv & Hdb & Hitems & Hnum).
  destruct (stored_invoice_fields _ Hinv)
    as (Fid & _ & Fship & Fclient & _).
  cbn in Fid, Fship, Fclient.
  assert (Hid : forall i, In i (invoices db) -> Invoice.id i < Invoice.id invoice).
  { intros i Hi. rewrite Fid. apply next_id_above. now apply in_map. }
  assert (Hbill : bill_to_client_id shipment = Some (Client.id client)).
  { apply first_filter_In in Hclient. destruct Hclient as [_ Hc].
    apply opt_eqb_Z in Hc. now symmetry. }
  exists shipment, client, rate_card.
  exists (InvoicesRouter.mkInvoiceDetail invoice
            (if Client.id client =? 0 then None
             else Some (Client.company_name client))
            (if shipment_id =? 0 then None
             else Some (Shipment.booking_number shipment))
            new_lines).
  split; [exact Hship|].
  split; [exact (proj1 (first_filter_In _ _ Hclient))|].
  split; [now symmetry|]. split; [exact Hrate|].
  split; [|now repeat split].
  unfold InvoicesRouter.get_invoice.
  assert (Hinvoices : invoices db' = invoices db ++ [invoice])
    by (rewrite Hdb; now destruct db).
  assert (Hlines' : invoice_lines db' = invoice_lines db ++ new_lines)
    by (rewrite Hdb; now destruct db).
  assert (Hclients : clients db' = clients db) by (rewrite Hdb; now destruct db).
  assert (Hshipments : shipments db' = shipments db)
    by (rewrite Hdb; now destruct db).
  rewrite Hinvoices, Hlines'. rewrite !filter_app.
  rewrite all_false_filter.
  2:{ intros i Hi. apply Z.eqb_neq. specialize (Hid i Hi). lia. }
  cbn [app filter]. rewrite Z.eqb_refl. cbn [Sql.first hd_error].
  rewrite (all_false_filter
             (fun l => Sql.opt_eqb Z.eqb (InvoiceLine.invoice_id l)
                         (Some (Invoice.id invoice)))).
  2:{ intros l Hl.
      destruct (Sql.opt_eqb Z.eqb (InvoiceLine.invoice_id l)
                  (Some (Invoice.id invoice))) eqn:E; [|reflexivity].
      apply opt_eqb_Z in E. destruct (Hfk l _ Hl E) as (i & Hi & Hi_id).
      specialize (Hid i Hi). lia. }
  destruct (rows_of_items_pass Hitems
              (@quantity_number shipment rate_card _)) as [Hpass Hvalid].
  cbn [app]. rewrite Hpass, (order_by_asc_numbered _ _ Hnum), Hvalid.
  do 3 f_equal.
  - unfold client_name_of. rewrite Hclients.
    rewrite Fclient.
    destruct (Client.id client) as [|key|key] eqn:Ekey; [reflexivity| |].
    + rewrite (first_filter_ext _
                 (fun c => Sql.opt_eqb Z.eqb (Some (Client.id c))
                             (bill_to_client_id shipment))).
      * now rewrite Hclient.
      * intros c. now rewrite Hbill.
    + rewrite (first_filter_ext _
                 (fun c => Sql.opt_eqb Z.eqb (Some (Client.id c))
                             (bill_to_client_id shipment))).
      * now rewrite Hclient.
      * intros c. now rewrite Hbill.
  - unfold booking_number_of. rewrite Hshipments.
    rewrite Fship.
    destruct shipment_id as [|key|key]; [reflexivity| |]; now rewrite Hship.
Qed.

Lemma generated_invoice_reads_back_witness :
  exists db' invoice detail,
    generate_invoice 1 739100 (ex_booked []) = (db', inr invoice)
    /\ InvoicesRouter.get_invoice (Invoice.id invoice) db' = (db', inr detail)
    /\ InvoicesRouter.invoice detail = invoice
    /\ InvoicesRouter.booking_number detail = Some "BK-0001"
    /\ map InvoiceLine.charge_code (InvoicesRouter.lines detail)
       = ["OFR"; "DOC_FEE"].
Proof.
  assert (Hrun : exists db' invoice,
             generate_invoice 1 739100 (ex_booked []) = (db', inr invoice)).
  { do 2 eexists. vm_compute. reflexivity. }
  destruct Hrun as (db' & invoice & Hrun).
  destruct (@generated_invoice_reads_back 1 739100 (ex_booked []) db' invoice
              (fun l key (H : In l []) => False_ind _ H) Hrun)
    as (shipment & client & rate_card & detail & Hship & _ & _ & Hrate & Hget
        & Hinvoice & Hlines & _ & Hbooking & _).
  exists db', invoice, detail.
  split; [exact Hrun|]. split; [exact Hget|]. split; [exact Hinvoice|].
  injection Hship as <-. split; [exact Hbooking|].
  assert (Hcard : rate_card = ex_rate 1800 "40HC").
  { vm_compute in Hrate. now injection Hrate as <-. }
  subst rate_card.
  assert (Hcodes : forall rows items,
             Forall2 (row_of_item (Invoice.id invoice)) rows items ->
             map InvoiceLine.charge_code rows = map charge_code items).
  { clear. induction 1 as [|row item rows items Hrow _ IH]; [reflexivity|].
    simpl. rewrite IH. now destruct Hrow as (_ & -> & _). }
  rewrite (Hcodes _ _ Hlines). vm_compute. reflexivity.
Defined.

(** ** The generate route *)


(** ** The batch route *)

Lemma shipment_keys_In (rows : list Invoice.t) (key : Z) :
  In key (AgentRouter.shipment_keys rows)
  <-> key <> 0 /\ exists i, In i rows /\ Invoice.shipment_id i = Some key.
Proof.
  induction rows as [|i rest IH]; simpl.
  - split; [tauto | now intros (_ & i & [] & _)].
  - destruct (Invoice.shipment_id i) as [[|k|k]|] eqn:E.
    + rewrite IH. split.
      * intros (Hk & j & Hj & Hship). split; [exact Hk|]. exists j. tauto.
      * intros (Hk & j & [<-|Hj] & Hship); [congruence|].
        split; [exact Hk|]. now exists j.
    + simpl. rewrite IH. split.
      * intros [<-|(Hk & j & Hj & Hship)].
        -- split; [discriminate|]. exists i. tauto.
        -- split; [exact Hk|]. exists j. tauto.
      * intros (Hk & j & [<-|Hj] & Hship).
        -- left. congruence.
        -- right. split; [exact Hk|]. now exists j.
    + simpl. rewrite IH. split.
      * intros [<-|(Hk & j & Hj & Hship)].
        -- split; [discriminate|]. exists i. tauto.
        -- split; [exact Hk|]. exists j. tauto.
      * intros (Hk & j & [<-|Hj] & Hship).
        -- left. congruence.
        -- right. split; [exact Hk|]. now exists j.
    + rewrite IH. split.
      * intros (Hk & j & Hj & Hship). split; [exact Hk|]. exists j. tauto.
      * intros (Hk & j & [<-|Hj] & Hship); [congruence|].
        split; [exact Hk|]. now exists j.
Qed.

(** The selection of [generate_batch] as one filter: without collected
    keys the filter keeps every shipment. *)
Lemma unbilled_shipments_filter (db : DB) :
  AgentRouter.unbilled_shipments db
  = filter (fun s => negb (Sql.in_ (Some (Shipment.id s))
                             (AgentRouter.shipment_keys (invoices db))))
           (shipments db).
Proof.
  unfold AgentRouter.unbilled_shipments.
  destruct (AgentRouter.shipment_keys (invoices db)); [|reflexivity].
  cbn [Sql.in_ existsb negb].
  induction (shipments db) as [|s t IH]; [reflexivity|].
  simpl. now rewrite <- IH.
Qed.

Lemma in_shipment_keys (db : DB) (key : Z) :
  Sql.in_ (Some key) (AgentRouter.shipment_keys (invoices db)) = true
  <-> key <> 0 /\ invoiced db key.
Proof.
  unfold Sql.in_. rewrite existsb_exists. split.
  - intros (k & Hk & Heqb). apply Z.eqb_eq in Heqb. subst k.
    now apply shipment_keys_In in Hk.
  - intros H. exists key. split; [|apply Z.eqb_refl].
    now apply shipment_keys_In.
Qed.

(** X17.  The shipments [generate_batch] works on are, in table order,
    the shipments that no invoice names, whatever the status of the
    invoice; a shipment with key 0 is always among them, because the
    route drops the key 0 from the keys it collects. *)
Theorem unbilled_selection :
  forall db,
    AgentRouter.unbilled_shipments db
    = filter (fun s => negb (Sql.in_ (Some (Shipment.id s))
                               (AgentRouter.shipment_keys (invoices db))))
             (shipments db)
    /\ forall s,
         In s (AgentRouter.unbilled_shipments db)
         <-> In s (shipments db)
             /\ (Shipment.id s = 0 \/ ~ invoiced db (Shipment.id s)).
Proof.
  intros db. split; [apply unbilled_shipments_filter|].
  intros s. rewrite unbilled_shipments_filter, filter_In, negb_true_iff.
  split.
  - intros [Hs Hout]. split; [exact Hs|].
    destruct (Z.eq_dec (Shipment.id s) 0) as [Hz|Hnz]; [now left|].
    right. intros Hinv.
    assert (Htrue : Sql.in_ (Some (Shipment.id s))
                      (AgentRouter.shipment_keys (invoices db)) = true)
      by now apply in_shipment_keys.
    congruence.
  - intros [Hs Hcase]. split; [exact Hs|].
    destruct (Sql.in_ (Some (Shipment.id s))
                (AgentRouter.shipment_keys (invoices db))) eqn:E; [|reflexivity].
    apply in_shipment_keys in E. destruct E as [Hnz Hinv].
    destruct Hcase; contradiction.
Qed.

(** The failures of [generate_invoice], case by case. *)
Lemma generate_invoice_errors shipment_id today db db' e :
  generate_invoice shipment_id today db = (db', inl e) ->
  (forall s, In s (shipments db) -> Shipment.id s <> shipment_id)
  \/ invoiced db shipment_id
  \/ data_error e
  \/ e = IntegrityError
  \/ e = IntegrityError_NotNull.
Proof.
  unfold generate_invoice, bind, query, raise.
  destruct (Sql.first (filter _ (shipments db))) as [shipment|] eqn:Eship.
  2:{ intros _. left. intros s Hs. apply Z.eqb_neq.
      exact (first_filter_none_all _ _ Eship s Hs). }
  destruct (Sql.first (filter _ (invoices db))) as [existing|] eqn:Eex.
  { intros _. right. left. apply first_filter_In in Eex.
    destruct Eex as [Hin Hship]. apply opt_eqb_Z in Hship. now exists existing. }
  destruct (Sql.first (filter _ (clients db))).
  2:{ intros [= _ <-]. right. right. left. now left. }
  destruct (find_rate_card db _ _ _).
  2:{ intros [= _ <-]. right. right. left. right. left.
      eexists. cbn [String.append]. reflexivity. }
  unfold date_add. destruct (_ && _).
  2:{ intros [= _ <-]. right. right. left. now right; right. }
  unfold ret at 1.
  match goal with
  | |- context [transaction ?c db] =>
      destruct (transaction_outcome c db)
        as [(db1 & a & _ & ->)|(db1 & e1 & Hfail & ->)]
  end; [discriminate|].
  intros [= _ <-]. do 3 right.
  exact (insert_invoice_failure _ _ _ Hfail).
Qed.

Lemma generate_invoice_tables shipment_id today db db' invoice :
  generate_invoice shipment_id today db = (db', inr invoice) ->
  invoices db' = invoices db ++ [invoice]
  /\ Invoice.shipment_id invoice = Some shipment_id
  /\ Invoice.status invoice = "draft"
  /\ ports db' = ports db /\ rate_cards db' = rate_cards db
  /\ surcharges db' = surcharges db /\ clients db' = clients db
  /\ shipments db' = shipments db /\ payments db' = payments db.
Proof.
  intros Hrun.
  destruct (generate_invoice_inv _ _ _ Hrun)
    as (shipment & client & rate_card & new_lines & _ & _ & _ & _ & _ & _
        & Hinv & Hdb & _).
  destruct (stored_invoice_fields _ Hinv)
    as (_ & _ & Fship & _ & _ & _ & _ & _ & _ & _ & _ & Fstatus).
  rewrite Hdb. split; [now destruct db|].
  split; [exact Fship|]. split; [exact Fstatus|].
  destruct db; repeat split.
Qed.

Lemma invoiced_app (db db' : DB) (new : list Invoice.t) (key : Z) :
  invoices db' = invoices db ++ new ->
  invoiced db' key
  <-> invoiced db key
      \/ exists i, In i new /\ Invoice.shipment_id i = Some key.
Proof.
  intros Hrows. unfold invoiced. rewrite Hrows. split.
  - intros (i & Hi & Hship). apply in_app_or in Hi.
    destruct Hi; [left | right]; now exists i.
  - intros [(i & Hi & Hship)|(i & Hi & Hship)]; exists i;
      (split; [apply in_or_app; tauto | exact Hship]).
Qed.

Lemma invoiced_dec (db : DB) (key : Z) : invoiced db key \/ ~ invoiced db key.
Proof.
  destruct (Sql.first (filter (fun i => Sql.opt_eqb Z.eqb (Invoice.shipment_id i)
                                          (Some key)) (invoices db)))
    as [i|] eqn:E.
  - left. apply first_filter_In in E. destruct E as [Hi Hship].
    apply opt_eqb_Z in Hship. now exists i.
  - right. intros (i & Hi & Hship).
    pose proof (first_filter_none_all _ _ E i Hi) as Hf. cbv beta in Hf.
    apply (proj2 (opt_eqb_Z _ _)) in Hship. congruence.
Qed.

(** The loop of [generate_batch] on shipments with distinct keys, none
    of them invoiced. *)
Lemma generate_each_run today :
  forall unbilled generated errors db db' g e,
    AgentRouter.generate_each today unbilled generated errors db
    = (db', inr (g, e)) ->
    (forall s, In s unbilled -> In s (shipments db)) ->
    NoDup (map Shipment.id unbilled) ->
    (forall s, In s unbilled -> ~ invoiced db (Shipment.id s)) ->
    exists new e',
      g = generated
          ++ map (fun i => AgentRouter.mkBatchInvoice (Invoice.invoice_number i)
                             (Invoice.total_amount i)) new
      /\ e = errors ++ e'
      /\ invoices db' = invoices db ++ new
      /\ (List.length new + List.length e' = List.length unbilled)%nat
      /\ (forall i, In i new ->
            Invoice.status i = "draft"
            /\ exists s, In s unbilled
                         /\ Invoice.shipment_id i = Some (Shipment.id s))
      /\ (forall entry, In entry e' ->
            data_error (AgentRouter.error entry)
            /\ exists s, In s unbilled
                         /\ AgentRouter.error_shipment_id entry = Shipment.id s
                         /\ AgentRouter.booking entry = Shipment.booking_number s
                         /\ ~ invoiced db' (Shipment.id s))
      /\ (forall s, In s unbilled ->
            invoiced db' (Shipment.id s)
            \/ exists entry, In entry e'
                             /\ AgentRouter.error_shipment_id entry = Shipment.id s)
      /\ ports db' = ports db /\ rate_cards db' = rate_cards db
      /\ surcharges db' = surcharges db /\ clients db' = clients db
      /\ shipments db' = shipments db /\ payments db' = payments db.
Proof.
  induction unbilled as [|s rest IH];
    intros generated errors db db' g e Hrun Hin Hdup Hfree.
  - injection Hrun as <- <- <-. exists [], []. cbn [map]. rewrite !app_nil_r.
    repeat split; try reflexivity; try contradiction.
  - cbn [AgentRouter.generate_each] in Hrun.
    cbn [map] in Hdup. apply NoDup_cons_iff in Hdup. destruct Hdup as [Hfresh Hdup].
    assert (Hother : forall s', In s' rest -> Shipment.id s' <> Shipment.id s).
    { intros s' Hs' Heq. apply Hfresh. rewrite <- Heq. now apply in_map. }
    destruct (generate_invoice (Shipment.id s) today db) as [db1 [err|inv]] eqn:Egen.
    + (* the shipment fails *)
      pose proof (generate_invoice_failure _ _ _ Egen) as ->.
      assert (Hdata : data_error err /\ err <> IntegrityError
                      /\ err <> IntegrityError_NotNull).
      { destruct (generate_invoice_errors _ _ _ Egen)
          as [Hnone|[Hinv|[Hdata|[ -> | -> ]]]].
        - now elim (Hnone s (Hin s (or_introl eq_refl))).
        - now elim (Hfree s (or_introl eq_refl)).
        - split; [exact Hdata|].
          destruct Hdata as [ -> |[(route & ->)| -> ]]; split; discriminate.
        - discriminate.
        - discriminate. }
      destruct Hdata as (Hdata & Hnot & Hnot').
      assert (Hrun' : AgentRouter.generate_each today rest generated
                        (errors ++ [AgentRouter.mkBatchError (Shipment.id s)
                                      (Shipment.booking_number s) err]) db
                      = (db', inr (g, e))).
      { destruct err; try exact Hrun; [now elim Hnot | now elim Hnot']. }
      destruct (IH _ _ _ _ _ _ Hrun' (fun s' Hs' => Hin s' (or_intror Hs')) Hdup
                   (fun s' Hs' => Hfree s' (or_intror Hs')))
        as (new & e' & Hg & He & Hrows & Hlen & Hnew & Herr & Hcover & Htables).
      exists new, (AgentRouter.mkBatchError (Shipment.id s)
                     (Shipment.booking_number s) err :: e').
      split; [exact Hg|]. split; [now rewrite He, <- app_assoc|].
      split; [exact Hrows|]. split; [cbn [List.length]; lia|].
      split.
      { intros i Hi. destruct (Hnew i Hi) as (Hst & s' & Hs' & Hship).
        split; [exact Hst|]. exists s'. split; [now right | exact Hship]. }
      split.
      { intros entry [<-|Hentry].
        - split; [exact Hdata|]. exists s. split; [now left|].
          split; [reflexivity|]. split; [reflexivity|].
          intros Hinv. apply (invoiced_app _ _ _ _ Hrows) in Hinv.
          destruct Hinv as [Hinv|(i & Hi & Hship)].
          + now apply (Hfree s (or_introl eq_refl)).
          + destruct (Hnew i Hi) as (_ & s' & Hs' & Hship').
            apply (Hother s' Hs'). congruence.
        - destruct (Herr entry Hentry) as (Hd & s' & Hs' & Hrest).
          split; [exact Hd|]. exists s'. split; [now right | exact Hrest]. }
      split; [|exact Htables].
      intros s' [<-|Hs'].
      * right. eexists. split; [now left | reflexivity].
      * destruct (Hcover s' Hs') as [Hinv|(entry & Hentry & Hid)];
          [now left|]. right. exists entry. split; [now right | exact Hid].
    + (* the shipment is invoiced *)
      destruct (generate_invoice_tables _ _ _ Egen)
        as (Hrows1 & Hship1 & Hstatus1 & Hpo & Hrc & Hsu & Hcl & Hsh & Hpa).
      assert (Hfree1 : forall s', In s' rest -> ~ invoiced db1 (Shipment.id s')).
      { intros s' Hs' Hinv. apply (invoiced_app _ _ _ _ Hrows1) in Hinv.
        destruct Hinv as [Hinv|(i & [<-|Hfalse] & Hship)].
        - now apply (Hfree s' (or_intror Hs')).
        - apply (Hother s' Hs'). congruence.
        - contradiction. }
      destruct (IH _ _ _ _ _ _ Hrun
                   (fun s' Hs' => eq_ind_r (fun l => In s' l)
                                    (Hin s' (or_intror Hs')) Hsh)
                   Hdup Hfree1)
        as (new & e' & Hg & He & Hrows & Hlen & Hnew & Herr & Hcover
            & Hpo' & Hrc' & Hsu' & Hcl' & Hsh' & Hpa').
      exists (inv :: new), e'.
      split; [rewrite Hg, <- app_assoc; reflexivity|]. split; [exact He|].
      split; [rewrite Hrows, Hrows1, <- app_assoc; reflexivity|].
      split; [cbn [List.length]; lia|].
      split.
      { intros i [<-|Hi].
        - split; [exact Hstatus1|]. exists s. split; [now left | exact Hship1].
        - destruct (Hnew i Hi) as (Hst & s' & Hs' & Hship).
          split; [exact Hst|]. exists s'. split; [now right | exact Hship]. }
      split.
      { intros entry Hentry.
        destruct (Herr entry Hentry) as (Hd & s' & Hs' & Hrest).
        split; [exact Hd|]. exists s'. split; [now right | exact Hrest]. }
      split.
      { intros s' [<-|Hs'].
        - left. apply (invoiced_app _ _ _ _ Hrows). left.
          apply (invoiced_app _ _ _ _ Hrows1). right.
          exists inv. split; [now left | exact Hship1].
        - destruct (Hcover s' Hs') as [Hinv|(entry & Hentry & Hid)];
            [now left|]. right. now exists entry. }
      repeat split; congruence.
Qed.

(** The loop of [generate_batch] keeps the order of the shipments: the
    invoices it appends and the errors it lists follow the list it
    works on. *)
Lemma generate_each_order today :
  forall unbilled generated errors db db' g e,
    AgentRouter.generate_each today unbilled generated errors db
    = (db', inr (g, e)) ->
    NoDup (map Shipment.id unbilled) ->
    exists new e' billed,
      e = errors ++ e'
      /\ invoices db' = invoices db ++ new
      /\ map Invoice.shipment_id new
         = map (fun s => Some (Shipment.id s)) (filter billed unbilled)
      /\ map AgentRouter.error_shipment_id e'
         = map Shipment.id (filter (fun s => negb (billed s)) unbilled).
Proof.
  induction unbilled as [|s rest IH];
    intros generated errors db db' g e Hrun Hdup.
  - injection Hrun as <- <- <-. exists [], [], (fun _ => true).
    cbn [map filter]. now rewrite !app_nil_r.
  - cbn [AgentRouter.generate_each] in Hrun.
    cbn [map] in Hdup. apply NoDup_cons_iff in Hdup.
    destruct Hdup as [Hfresh Hdup].
    assert (Hother : forall s', In s' rest ->
                                (Shipment.id s' =? Shipment.id s) = false).
    { intros s' Hs'. apply Z.eqb_neq. intros Heq. apply Hfresh.
      rewrite <- Heq. now apply in_map. }
    destruct (generate_invoice (Shipment.id s) today db) as [db1 [err|inv]]
      eqn:Egen.
    + pose proof (generate_invoice_failure _ _ _ Egen) as ->.
      assert (Hrun' : AgentRouter.generate_each today rest generated
                        (errors ++ [AgentRouter.mkBatchError (Shipment.id s)
                                      (Shipment.booking_number s) err]) db
                      = (db', inr (g, e)))
        by (destruct err; first [exact Hrun | discriminate Hrun]).
      destruct (IH _ _ _ _ _ _ Hrun' Hdup)
        as (new & e' & billed & He & Hrows & Hnew & Herr).
      exists new, (AgentRouter.mkBatchError (Shipment.id s)
                     (Shipment.booking_number s) err :: e').
      exists (fun x => negb (Shipment.id x =? Shipment.id s) && billed x)%bool.
      split; [now rewrite He, <- app_assoc|]. split; [exact Hrows|].
      cbn [filter]. rewrite Z.eqb_refl.
      cbn [negb andb map AgentRouter.error_shipment_id]. split.
      * rewrite Hnew. f_equal. apply filter_ext_in.
        intros s' Hs'. now rewrite (Hother s' Hs').
      * rewrite Herr. do 2 f_equal. apply filter_ext_in.
        intros s' Hs'. now rewrite (Hother s' Hs').
    + destruct (generate_invoice_tables _ _ _ Egen)
        as (Hrows1 & Hship1 & _).
      destruct (IH _ _ _ _ _ _ Hrun Hdup)
        as (new & e' & billed & He & Hrows & Hnew & Herr).
      exists (inv :: new), e'.
      exists (fun x => (Shipment.id x =? Shipment.id s) || billed x)%bool.
      split; [exact He|].
      split; [rewrite Hrows, Hrows1, <- app_assoc; reflexivity|].
      cbn [filter]. rewrite Z.eqb_refl. cbn [negb orb map]. split.
      * rewrite Hship1, Hnew. do 2 f_equal. apply filter_ext_in.
        intros s' Hs'. now rewrite (Hother s' Hs').
      * rewrite Herr. f_equal. apply filter_ext_in.
        intros s' Hs'. now rewrite (Hother s' Hs').
Qed.

(** X18.  A batch that completes, on shipments with distinct keys other
    than 0.  Every shipment without invoice is tried once, in table
    order: the new invoices, all drafts, are appended to the invoice
    table in that order and listed in [generated] with their numbers
    and totals; [count] is their number; each failure is listed in
    [errors], in that order too, with the shipment it belongs to, and
    is one of no bill-to client, no rate card, due date out of range,
    never a conflict or an unknown shipment (a batch in which a
    constraint of the store fails does not complete).  So the
    shipments of the new invoices and those of the errors are the
    shipments without invoice, split in two without reordering.  After
    the batch every shipment of the store is invoiced or named in
    [errors], not both. *)
Theorem generate_batch_outcome :
  forall today db db' batch,
    shipment_keys_valid db ->
    AgentRouter.generate_batch today db = (db', inr batch) ->
    exists new billed,
      invoices db' = invoices db ++ new
      /\ map Invoice.shipment_id new
         = map (fun s => Some (Shipment.id s))
               (filter billed (AgentRouter.unbilled_shipments db))
      /\ map AgentRouter.error_shipment_id (AgentRouter.errors batch)
         = map Shipment.id
               (filter (fun s => negb (billed s))
                       (AgentRouter.unbilled_shipments db))
      /\ AgentRouter.generated batch
         = map (fun i => AgentRouter.mkBatchInvoice (Invoice.invoice_number i)
                           (Invoice.total_amount i)) new
      /\ AgentRouter.count batch = Z.of_nat (List.length new)
      /\ (List.length new + List.length (AgentRouter.errors batch)
          = List.length (AgentRouter.unbilled_shipments db))%nat
      /\ (forall i, In i new ->
            Invoice.status i = "draft"
            /\ exists s, In s (shipments db) /\ ~ invoiced db (Shipment.id s)
                         /\ Invoice.shipment_id i = Some (Shipment.id s))
      /\ (forall entry, In entry (AgentRouter.errors batch) ->
            data_error (AgentRouter.error entry)
            /\ exists s, In s (shipments db)
                         /\ AgentRouter.error_shipment_id entry = Shipment.id s
                         /\ AgentRouter.booking entry = Shipment.booking_number s
                         /\ ~ invoiced db' (Shipment.id s))
      /\ (forall s, In s (shipments db) ->
            invoiced db' (Shipment.id s)
            \/ exists entry, In entry (AgentRouter.errors batch)
                             /\ AgentRouter.error_shipment_id entry
                                = Shipment.id s)
      /\ ports db' = ports db /\ rate_cards db' = rate_cards db
      /\ surcharges db' = surcharges db /\ clients db' = clients db
      /\ shipments db' = shipments db /\ payments db' = payments db.
Proof.
  intros today db db' batch [Hdup Hnz] Hrun.
  unfold AgentRouter.generate_batch in Hrun.
  destruct (AgentRouter.generate_each today (AgentRouter.unbilled_shipments db)
              [] [] db) as [db1 [f|[g e]]] eqn:Eloop; [discriminate|].
  injection Hrun as <- <-.
  pose proof (unbilled_shipments_filter db) as Heq.
  assert (Hshipped : forall s, In s (AgentRouter.unbilled_shipments db) ->
                               In s (shipments db)).
  { intros s Hs. rewrite Heq in Hs. now apply filter_In in Hs. }
  assert (Hfree : forall s, In s (AgentRouter.unbilled_shipments db) ->
                            ~ invoiced db (Shipment.id s)).
  { intros s Hs Hinv. pose proof (Hshipped s Hs) as Hin.
    rewrite Heq in Hs. apply filter_In in Hs. destruct Hs as [_ Hout].
    apply negb_true_iff in Hout.
    assert (Htrue : Sql.in_ (Some (Shipment.id s))
                      (AgentRouter.shipment_keys (invoices db)) = true)
      by (apply in_shipment_keys; split; [now apply Hnz | exact Hinv]).
    congruence. }
  assert (Hdup' : NoDup (map Shipment.id (AgentRouter.unbilled_shipments db))).
  { rewrite Heq. clear - Hdup.
    induction (shipments db) as [|s t IH]; [constructor|].
    cbn [map] in Hdup. apply NoDup_cons_iff in Hdup. destruct Hdup as [Hs Ht].
    cbn [filter]. destruct (negb _); [|now apply IH].
    cbn [map]. constructor; [|now apply IH].
    intros Hin. apply Hs. apply in_map_iff in Hin.
    destruct Hin as (x & <- & Hx). apply filter_In in Hx. now apply in_map. }
  destruct (@generate_each_run _ _ _ _ _ _ _ _ Eloop Hshipped Hdup' Hfree)
    as (new & e' & Hg & He & Hrows & Hlen & Hnew & Herr & Hcover & Htables).
  destruct (@generate_each_order today _ _ _ _ _ _ _ Eloop Hdup')
    as (new2 & e2 & billed & He2 & Hrows2 & Hnew2 & Herr2).
  cbn [app] in Hg, He, He2. subst g e.
  rewrite Hrows in Hrows2. apply app_inv_head in Hrows2. subst new2 e2.
  exists new, billed.
  cbn [AgentRouter.generated AgentRouter.count AgentRouter.errors].
  split; [exact Hrows|]. split; [exact Hnew2|]. split; [exact Herr2|].
  split; [reflexivity|].
  split; [now rewrite length_map|]. split; [exact Hlen|].
  split.
  { intros i Hi. destruct (Hnew i Hi) as (Hst & s & Hs & Hship).
    split; [exact Hst|]. exists s.
    split; [now apply Hshipped|]. split; [now apply Hfree | exact Hship]. }
  split.
  { intros entry Hentry. destruct (Herr entry Hentry) as (Hd & s & Hs & Hrest).
    split; [exact Hd|]. exists s.
    split; [now apply Hshipped | exact Hrest]. }
  split; [|exact Htables].
  intros s Hs.
  destruct (invoiced_dec db (Shipment.id s)) as [Hinv|Hfree'].
  - left. apply (invoiced_app _ _ _ _ Hrows). now left.
  - apply Hcover. rewrite Heq. apply filter_In. split; [exact Hs|].
    apply negb_true_iff.
    destruct (Sql.in_ (Some (Shipment.id s))
                (AgentRouter.shipment_keys (invoices db))) eqn:E; [|reflexivity].
    apply in_shipment_keys in E. now elim Hfree'.
Qed.

Lemma generate_batch_outcome_witness :
  exists db' batch new,
    AgentRouter.generate_batch 739100 (ex_booked []) = (db', inr batch)
    /\ invoices db' = new
    /\ AgentRouter.count batch = Z.of_nat (List.length new)
    /\ (forall i, In i new -> Invoice.status i = "draft").
Proof.
  assert (Hrun : exists db' batch,
             AgentRouter.generate_batch 739100 (ex_booked []) = (db', inr batch)).
  { do 2 eexists. vm_compute. reflexivity. }
  destruct Hrun as (db' & batch & Hrun).
  assert (Hkeys : shipment_keys_valid (ex_booked [])).
  { split.
    - repeat constructor. intros Hin. exact Hin.
    - intros s [<-|Hin]; [discriminate | contradiction]. }
  destruct (@generate_batch_outcome 739100 (ex_booked []) db' batch Hkeys Hrun)
    as (new & billed & Hrows & _ & _ & _ & Hcount & _ & Hnew & _).
  exists db', batch, new. split; [exact Hrun|]. split; [exact Hrows|].
  split; [exact Hcount|]. intros i Hi. exact (proj1 (Hnew i Hi)).
Defined.
